(** * anthropic-cerebras-shim: the translators, embedded and verified

    A shallow embedding of the request and response translators
    ([src/translators/request.ts], [src/translators/response.ts]) together
    with the part of the JavaScript object model they rely on, followed by
    the theorems about them.

    Conventions.
    - JavaScript values that travel as JSON are [JS.Value]s; a number is
      a double given by sign, mantissa and exponent ([spec_float]).
    - Counters, positions and token counts are integers ([Z]).
    - [undefined] and [null] in an optional field are both [None]; the code
      only ever tests such fields for truthiness or with [??].
    - A [throw] is the [Throw] outcome of [Result]; state mutated before
      the throw stays mutated.
    - The builtins [JSON.parse] and [JSON.stringify] are parameters of the
      functions that call them; [Math.random] is replaced by its outcome.
    - The loggers only write to the console and are left out. *)

From Stdlib Require Import List String Ascii ZArith Bool Lia SpecFloat.
From Stdlib Require Import DecimalString DecimalNat DecimalFacts.
Import ListNotations.

Set Warnings "-register-all".
Set Implicit Arguments.

Open Scope string_scope.
Open Scope list_scope.
Open Scope Z_scope.

(* ================================================================== *)
(** ** Insertion-ordered maps

    Both a JavaScript object (string keys) and a [Map] keep their entries
    in insertion order; assigning to a key that is present replaces the
    value where it stands, assigning to a new key appends. *)

Section Assoc.
Context {K V : Type} (eqb : K -> K -> bool).

Fixpoint assoc_get (k : K) (es : list (K * V)) : option V :=
  match es with
  | [] => None
  | (k', v) :: es' => if eqb k' k then Some v else assoc_get k es'
  end.

Fixpoint assoc_set (k : K) (v : V) (es : list (K * V)) : list (K * V) :=
  match es with
  | [] => [(k, v)]
  | (k', v') :: es' =>
      if eqb k' k then (k', v) :: es' else (k', v') :: assoc_set k v es'
  end.

Definition assoc_has (k : K) (es : list (K * V)) : bool :=
  match assoc_get k es with Some _ => true | None => false end.
End Assoc.

(** JavaScript truthiness of a string and of an optional string. *)
Definition nonEmpty (s : string) : bool := negb (String.eqb s "").

Definition truthyStr (o : option string) : bool :=
  match o with Some s => nonEmpty s | None => false end.

(** [Array.prototype.join] on strings. *)
Definition join (sep : string) (l : list string) : string := String.concat sep l.

Definition newline : string := String (ascii_of_nat 10) EmptyString.

(** Outcome of a call that may throw. *)
Inductive Exn : Type :=
| Error (message : string)     (* [new Error(message)] *)
| SyntaxError.                 (* thrown by [JSON.parse] *)

Inductive Result (A : Type) : Type :=
| Ok (a : A)
| Throw (e : Exn).
Arguments Ok {A} a.
Arguments Throw {A} e.

(* ================================================================== *)
(** ** JavaScript values and ordinary objects *)

Module JS.

(** A value as [JSON.parse] builds it, plus what assignment can turn an
    object into.  [VObject proto own]: [own] are the own enumerable
    properties in [Object.entries] order; [proto] is [None] for
    [Object.prototype], [Some VNull] for no prototype, [Some o] for the
    object [o].  [Object.entries] of a parsed object lists integer-like
    keys first; the translators insert keys in that same order and then
    only append non-numeric ones, so appending is exact for them. *)
Inductive Value : Type :=
| VUndefined
| VNull
| VBool (b : bool)
| VNumber (x : spec_float)
| VString (s : string)
| VArray (elems : list Value)
| VObject (proto : option Value) (own : list (string * Value)).

Definition emptyObject : Value := VObject None [].

(** The number [n], a positive integer. *)
Definition integer (n : positive) : Value := VNumber (S754_finite false n 0).

(** [!!v] *)
Definition truthy (v : Value) : bool :=
  match v with
  | VUndefined | VNull => false
  | VBool b => b
  | VNumber (S754_zero _) | VNumber S754_nan => false
  | VNumber _ => true
  | VString s => nonEmpty s
  | VArray _ | VObject _ _ => true
  end.

(** [typeof v === "object" && v !== null] *)
Definition isObject (v : Value) : bool :=
  match v with VArray _ | VObject _ _ => true | _ => false end.

(** [Array.isArray(v)] *)
Definition isArray (v : Value) : bool :=
  match v with VArray _ => true | _ => false end.

(** [v === s] for a string literal [s] *)
Definition isString (s : string) (v : Value) : bool :=
  match v with VString s' => String.eqb s' s | _ => false end.

(** The property key of array position [i]. *)
Definition indexKey (i : nat) : string :=
  NilEmpty.string_of_uint (Nat.to_uint i).

Fixpoint indexed (i : nat) (l : list Value) : list (string * Value) :=
  match l with
  | [] => []
  | v :: l' => (indexKey i, v) :: indexed (S i) l'
  end.

(** [Object.entries(o)] for an object or an array. *)
Definition entries (o : Value) : list (string * Value) :=
  match o with
  | VObject _ own => own
  | VArray l => indexed 0 l
  | _ => []
  end.

(** [Object.keys(v).length] for a value that is not [null] or
    [undefined]: a string has its positions for keys, a number or a
    boolean has none. *)
Definition keyCount (v : Value) : nat :=
  match v with
  | VString s => String.length s
  | _ => List.length (entries v)
  end.

(** [for (const [k, v] of Object.entries(o)) acc = body(acc, k, v)],
    written so that [v] stays a structural part of [o]. *)
Section ForEntries.
Context {A : Type} (body : A -> string -> Value -> A).

Fixpoint forOwn (es : list (string * Value)) (acc : A) : A :=
  match es with
  | [] => acc
  | (k, v) :: es' => forOwn es' (body acc k v)
  end.

Fixpoint forIndexed (i : nat) (l : list Value) (acc : A) : A :=
  match l with
  | [] => acc
  | v :: l' => forIndexed (S i) l' (body acc (indexKey i) v)
  end.

Definition forEntries (o : Value) (acc : A) : A :=
  match o with
  | VObject _ own => forOwn own acc
  | VArray l => forIndexed 0 l acc
  | _ => acc
  end.
End ForEntries.

(** [a.map(f)] *)
Definition arrayMap (f : Value -> Value) (a : Value) : Value :=
  match a with VArray l => VArray (map f l) | _ => a end.

(** [o[k]] / [o.k]: own property first, then the prototype chain.  Of
    [Object.prototype] and [Array.prototype] nothing is visible here:
    the translators read only [type], [properties], [anyOf], [oneOf]
    and [allOf], which those prototypes do not define. *)
Fixpoint get (o : Value) (k : string) : Value :=
  match o with
  | VObject proto own =>
      match assoc_get String.eqb k own with
      | Some v => v
      | None => match proto with Some p => get p k | None => VUndefined end
      end
  | VArray l =>
      match assoc_get String.eqb k (indexed 0 l) with
      | Some v => v
      | None => VUndefined
      end
  | _ => VUndefined
  end.

(** Whether the [__proto__] accessor of [Object.prototype] is what an
    assignment to [__proto__] finds when it starts at prototype [p]. *)
Fixpoint setterFrom (p : Value) : bool :=
  match p with
  | VObject proto own =>
      if assoc_has String.eqb "__proto__" own then false
      else match proto with Some q => setterFrom q | None => true end
  | VArray _ => true
  | _ => false
  end.

Definition protoSetterVisible (proto : option Value) : bool :=
  match proto with Some p => setterFrom p | None => true end.

(** [o[k] = v] on an ordinary object.  An own property is overwritten
    in place.  Otherwise the key [__proto__], while the accessor is
    inherited, does not create a property: it replaces the prototype
    when [v] is an object or [null] and does nothing for other values.
    Every other assignment appends an own property. *)
Definition set (o : Value) (k : string) (v : Value) : Value :=
  match o with
  | VObject proto own =>
      if assoc_has String.eqb k own then VObject proto (assoc_set String.eqb k v own)
      else if String.eqb k "__proto__" && protoSetterVisible proto then
        if isObject v then VObject (Some v) own
        else match v with
             | VNull => VObject (Some VNull) own
             | _ => o
             end
      else VObject proto (assoc_set String.eqb k v own)
  | _ => o
  end.

(** The own data of a value: its own properties, recursively, and no
    prototypes.  Serialization and deep equality look at nothing else. *)
Fixpoint ownData (v : Value) : Value :=
  match v with
  | VArray l => VArray (map ownData l)
  | VObject _ own => VObject None (map (fun kv => (fst kv, ownData (snd kv))) own)
  | _ => v
  end.

End JS.
Export JS.

(* ================================================================== *)
(** ** [types/anthropic.ts] *)

Module Anthropic.

Inductive SourceType : Type := base64 | url.

Record ImageSource : Type := {
  src_type : SourceType;
  src_media_type : option string;
  src_data : option string;
  src_url : option string
}.

(** [TextBlock | ImageBlock | ToolUseBlock | ToolResultBlock]; the content
    of a tool result is a string or a list of blocks. *)
Inductive ContentBlock : Type :=
| TextBlock (text : string)
| ImageBlock (source : ImageSource)
| ToolUseBlock (id name : string) (input : Value)
| ToolResultBlock (tool_use_id : string)
                  (content : string + list ContentBlock)
                  (is_error : option bool).

Inductive Role : Type := user | assistant.

Record Message : Type := {
  role : Role;
  content : string + list ContentBlock
}.

(** [input_schema] is whatever the request body carries there. *)
Record Tool : Type := {
  tool_name : string;
  tool_description : option string;
  input_schema : Value
}.

Inductive StopReason : Type := end_turn | max_tokens | stop_sequence | tool_use.

Record Usage : Type := {
  input_tokens : Z;
  output_tokens : Z
}.

Record MessagesResponse : Type := {
  resp_id : string;
  resp_model : string;
  resp_content : list ContentBlock;
  resp_stop_reason : option StopReason;
  resp_stop_sequence : option string;
  resp_usage : Usage
}.

Inductive Delta : Type :=
| TextDelta (text : string)
| InputJsonDelta (partial_json : string).

(** [StreamEvent]; the fields [type: "message"] and [role: "assistant"]
    of a message are constants and not stored. *)
Inductive StreamEvent : Type :=
| MessageStart (message : MessagesResponse)
| ContentBlockStart (index : Z) (content_block : ContentBlock)
| ContentBlockDelta (index : Z) (delta : Delta)
| ContentBlockStop (index : Z)
| MessageDelta (stop_reason : StopReason) (stop_sequence : option string)
               (usage_output_tokens : Z)
| MessageStop
| Ping
| ErrorEvent (error_type message : string).

(** [ToolChoice]: the flag [disable_parallel_tool_use] is optional on the
    first three. *)
Inductive ToolChoice : Type :=
| ChoiceAuto (disable_parallel_tool_use : option bool)
| ChoiceAny (disable_parallel_tool_use : option bool)
| ChoiceTool (name : string) (disable_parallel_tool_use : option bool)
| ChoiceNone.

(** [MessagesRequest]; the text blocks of [system] are given by their
    texts. *)
Record MessagesRequest : Type := {
  mr_model : string;
  mr_max_tokens : Z;
  mr_messages : list Message;
  mr_system : option (string + list string);
  mr_temperature : option spec_float;
  mr_top_p : option spec_float;
  mr_top_k : option spec_float;
  mr_stop_sequences : option (list string);
  mr_stream : option bool;
  mr_tools : option (list Tool);
  mr_tool_choice : option ToolChoice
}.

End Anthropic.

(* ================================================================== *)
(** ** [types/cerebras.ts] *)

Module Cerebras.

Inductive UserContentPart : Type :=
| TextPart (text : string)            (* [{type: "text", text}] *)
| ImageUrlPart (image_url : string).  (* [{type: "image_url", image_url: {url}}] *)

Record FunctionCall : Type := {
  fn_name : string;
  fn_arguments : string
}.

Record ToolCall : Type := {
  tc_id : string;
  tc_function : FunctionCall
}.

(** [{type: "function", function: {name, description, parameters}}] *)
Record Tool : Type := {
  function_name : string;
  function_description : option string;
  parameters : Value
}.

Inductive ChatMessage : Type :=
| SystemMessage (content : string)
| UserMessage (content : string + list UserContentPart)
| AssistantMessage (content : option string) (tool_calls : option (list ToolCall))
| ToolMessage (content : string) (tool_call_id : string).

Record ResponseMessage : Type := {
  msg_content : option string;
  msg_reasoning : option string;
  msg_tool_calls : option (list ToolCall)
}.

(** [finish_reason] is typed as one of four literals or [null]; it is
    kept as an optional string so that any other value is covered. *)
Record Choice : Type := {
  choice_index : Z;
  message : ResponseMessage;
  finish_reason : option string
}.

Record Usage : Type := {
  prompt_tokens : Z;
  completion_tokens : Z;
  total_tokens : Z
}.

Record ChatCompletionsResponse : Type := {
  response_id : string;
  response_created : Z;
  response_model : string;
  choices : list Choice;
  usage : Usage
}.

Record DeltaFunction : Type := {
  df_name : option string;
  df_arguments : option string
}.

Record DeltaToolCall : Type := {
  dtc_index : Z;
  dtc_id : option string;
  dtc_function : option DeltaFunction
}.

Record DeltaMessage : Type := {
  delta_content : option string;
  delta_tool_calls : option (list DeltaToolCall)
}.

Record ChunkChoice : Type := {
  cc_index : Z;
  cc_delta : DeltaMessage;
  cc_finish_reason : option string
}.

Record ChatCompletionsChunk : Type := {
  chunk_id : string;
  chunk_created : Z;
  chunk_model : string;
  chunk_choices : list ChunkChoice
}.

(** ["none" | "auto" | "required" | {type: "function", function: {name}}] *)
Inductive ToolChoice : Type :=
| choice_none
| choice_auto
| choice_required
| choice_function (name : string).

Record ChatCompletionsRequest : Type := {
  req_model : string;
  req_messages : list ChatMessage;
  req_temperature : option spec_float;
  req_top_p : option spec_float;
  req_max_completion_tokens : option Z;
  req_stream : option bool;
  req_stop : option (list string);
  req_seed : option Z;
  req_tools : option (list Tool);
  req_tool_choice : option ToolChoice;
  req_parallel_tool_calls : option bool
}.

End Cerebras.

(* ================================================================== *)
(** ** [translators/request.ts] *)

Module Request.
Import Anthropic Cerebras.

(** Fields that Cerebras doesn't support in JSON Schema. *)
Definition UNSUPPORTED_SCHEMA_FIELDS : list string :=
  ["format"; "pattern"; "minLength"; "maxLength"; "minimum"; "maximum";
   "exclusiveMinimum"; "exclusiveMaximum"; "multipleOf"; "minItems";
   "maxItems"; "uniqueItems"; "minProperties"; "maxProperties"; "const";
   "contentEncoding"; "contentMediaType"; "$schema"; "$id"; "$ref";
   "$defs"; "definitions"; "title"; "examples"; "default"; "deprecated"].

(** [list.includes(key)] *)
Definition includes (l : list string) (key : string) : bool :=
  existsb (String.eqb key) l.

(** [cleanSchema], the closure of [translateTool]: copies [schema] into a
    fresh object entry by entry, then closes object types.  It is only
    ever called on objects and arrays. *)
Fixpoint cleanSchema (schema : Value) : Value :=
  let result :=
    forEntries (fun result key value =>
      if includes UNSUPPORTED_SCHEMA_FIELDS key then result
      else if String.eqb key "properties" && isObject value then
        set result key
          (forEntries (fun newProps propKey propValue =>
             if isObject propValue
             then set newProps propKey (cleanSchema propValue)
             else set newProps propKey propValue)
           value emptyObject)
      else if String.eqb key "items" && isObject value then
        set result key (cleanSchema value)
      else if String.eqb key "anyOf" && isArray value then
        set result key
          (arrayMap (fun item => if isObject item then cleanSchema item else item) value)
      else if String.eqb key "oneOf" && isArray value then
        set result key
          (arrayMap (fun item => if isObject item then cleanSchema item else item) value)
      else if String.eqb key "allOf" && isArray value then
        set result key
          (arrayMap (fun item => if isObject item then cleanSchema item else item) value)
      else if isObject value && negb (isArray value) then
        set result key (cleanSchema value)
      else set result key value)
    schema emptyObject in
  if isString "object" (get result "type") then
    let result := set result "additionalProperties" (VBool false) in
    if negb (truthy (get result "properties")) && negb (truthy (get result "anyOf"))
       && negb (truthy (get result "oneOf")) && negb (truthy (get result "allOf"))
    then set result "properties" emptyObject
    else result
  else result.

(** [translateTool]: a tool without parameters gets the closed empty
    object type, any other has its parameters sanitized. *)
Definition translateTool (tool : Anthropic.Tool) : Cerebras.Tool :=
  let inputSchema := input_schema tool in
  if negb (truthy inputSchema)
     || negb (truthy (get inputSchema "properties"))
     || (keyCount (get inputSchema "properties") =? 0)%nat
  then
    {| function_name := tool_name tool;
       function_description := tool_description tool;
       parameters :=
         VObject None
           [("type", VString "object");
            ("properties", emptyObject);
            ("additionalProperties", VBool false)] |}
  else
    {| function_name := tool_name tool;
       function_description := tool_description tool;
       parameters :=
         cleanSchema
           (VObject None
              [("type", VString "object");
               ("properties", get inputSchema "properties");
               ("required", get inputSchema "required")]) |}.

(** Block tests and projections used by [translateMessage]. *)
Definition isToolResult (block : ContentBlock) : bool :=
  match block with ToolResultBlock _ _ _ => true | _ => false end.

Definition isText (block : ContentBlock) : bool :=
  match block with TextBlock _ => true | _ => false end.

Definition isToolUse (block : ContentBlock) : bool :=
  match block with ToolUseBlock _ _ _ => true | _ => false end.

Definition blockText (block : ContentBlock) : string :=
  match block with TextBlock text => text | _ => "" end.

(** The [content] computed for one tool result (lines 145-150). *)
Definition toolResultText (content : string + list ContentBlock) : string :=
  match content with
  | inl s => s
  | inr blocks => join newline (map blockText (filter isText blocks))
  end.

(** The body of the loop over [toolResults] (lines 144-157). *)
Definition toolResultMessage (toolResult : ContentBlock) : list ChatMessage :=
  match toolResult with
  | ToolResultBlock tool_use_id content is_error =>
      let content := toolResultText content in
      [ToolMessage
         (match is_error with
          | Some true => "Error: " ++ content
          | _ => content
          end)
         tool_use_id]
  | _ => []
  end.

(** The body of the loop over [otherBlocks] (lines 163-187). *)
Definition userPart (block : ContentBlock) : list UserContentPart :=
  match block with
  | TextBlock text => [TextPart text]
  | ImageBlock source =>
      match src_type source, src_data source, src_media_type source, src_url source with
      | base64, Some data, Some media_type, _ =>
          if nonEmpty data && nonEmpty media_type
          then [ImageUrlPart ("data:" ++ media_type ++ ";base64," ++ data)]
          else []
      | url, _, _, Some u =>
          if nonEmpty u then [ImageUrlPart u] else []
      | _, _, _, _ => []
      end
  | _ => []
  end.

Definition CEREBRAS_MODEL : string := "zai-glm-4.6".

Definition translateToolChoice (toolChoice : option Anthropic.ToolChoice)
    : Cerebras.ToolChoice :=
  match toolChoice with
  | None => choice_auto
  | Some (ChoiceAuto _) => choice_auto
  | Some (ChoiceAny _) => choice_required
  | Some (ChoiceTool name _) => choice_function name
  | Some ChoiceNone => choice_none
  end.

(** [tool_choice && "disable_parallel_tool_use" in tool_choice
    && tool_choice.disable_parallel_tool_use], as a boolean. *)
Definition disableParallel (toolChoice : option Anthropic.ToolChoice) : bool :=
  match toolChoice with
  | Some (ChoiceAuto (Some true))
  | Some (ChoiceAny (Some true))
  | Some (ChoiceTool _ (Some true)) => true
  | _ => false
  end.

(** "Add system message if present": a string counts when it is not
    empty, a list of blocks always. *)
Definition systemMessages (system : option (string + list string)) : list ChatMessage :=
  match system with
  | Some (inl text) => if nonEmpty text then [SystemMessage text] else []
  | Some (inr blocks) => [SystemMessage (join newline blocks)]
  | None => []
  end.

Section TranslateMessage.
(** [JSON.stringify], a builtin. *)
Variable JSON_stringify : Value -> string.

Definition toolCallOf (block : ContentBlock) : list ToolCall :=
  match block with
  | ToolUseBlock id name input =>
      [{| tc_id := id;
          tc_function := {| fn_name := name; fn_arguments := JSON_stringify input |} |}]
  | _ => []
  end.

Definition translateMessage (message : Message) : list ChatMessage :=
  match role message, content message with
  | user, inl text => [UserMessage (inl text)]
  | user, inr blocks =>
      let toolResults := filter isToolResult blocks in
      let otherBlocks := filter (fun block => negb (isToolResult block)) blocks in
      let results := flat_map toolResultMessage toolResults in
      match otherBlocks with
      | [] => results
      | _ :: _ =>
          let parts := flat_map userPart otherBlocks in
          match parts with
          | [TextPart text] => results ++ [UserMessage (inl text)]
          | [] => results
          | _ => results ++ [UserMessage (inr parts)]
          end
      end
  | assistant, inl text => [AssistantMessage (Some text) None]
  | assistant, inr blocks =>
      let textBlocks := filter isText blocks in
      let toolUseBlocks := filter isToolUse blocks in
      [AssistantMessage
         (match textBlocks with
          | [] => None
          | _ :: _ => Some (join newline (map blockText textBlocks))
          end)
         (match toolUseBlocks with
          | [] => None
          | _ :: _ => Some (flat_map toolCallOf toolUseBlocks)
          end)]
  end.

(** [translateRequest]; the counters it keeps serve the log only. *)
Definition translateRequest (anthropicRequest : MessagesRequest)
    : ChatCompletionsRequest :=
  let messages :=
    systemMessages (mr_system anthropicRequest)
    ++ flat_map translateMessage (mr_messages anthropicRequest) in
  let withTools :=
    match mr_tools anthropicRequest with
    | Some (_ :: _) => true
    | _ => false
    end in
  {| req_model := CEREBRAS_MODEL;
     req_messages := messages;
     req_temperature := mr_temperature anthropicRequest;
     req_top_p := mr_top_p anthropicRequest;
     req_max_completion_tokens := Some (mr_max_tokens anthropicRequest);
     req_stream :=
       Some (match mr_stream anthropicRequest with Some b => b | None => false end);
     req_stop := mr_stop_sequences anthropicRequest;
     req_seed := None;
     req_tools :=
       match mr_tools anthropicRequest with
       | Some (tool :: tools) => Some (map translateTool (tool :: tools))
       | _ => None
       end;
     req_tool_choice :=
       if withTools then Some (translateToolChoice (mr_tool_choice anthropicRequest))
       else None;
     req_parallel_tool_calls :=
       if withTools then Some (negb (disableParallel (mr_tool_choice anthropicRequest)))
       else None |}.
End TranslateMessage.

End Request.

(* ================================================================== *)
(** ** [translators/response.ts] *)

Module Response.
Import Anthropic Cerebras.

(** The [switch] compares [finishReason] with each label by [===]. *)
Definition translateStopReason (finishReason : option string)
    (toolCalls : option (list ToolCall)) : option StopReason :=
  match toolCalls with
  | Some (_ :: _) => Some tool_use
  | _ =>
      match finishReason with
      | Some reason =>
          if String.eqb reason "stop" then Some end_turn
          else if String.eqb reason "length" then Some max_tokens
          else if String.eqb reason "tool_calls" then Some tool_use
          else if String.eqb reason "content_filter" then Some end_turn
          else None
      | None => None
      end
  end.

(** ** Streaming state *)

Record ToolCallState : Type := {
  ts_id : string;
  ts_name : string;
  argumentsBuffer : string;
  startEventSent : bool
}.

(** [toolCallStates] is a [Map<number, ...>]: insertion-ordered. *)
Record StreamState : Type := {
  messageId : string;
  st_model : string;
  contentBlocks : list ContentBlock;
  currentBlockIndex : Z;
  toolCallStates : list (Z * ToolCallState);
  inputTokens : Z;
  outputTokens : Z;
  textBuffer : string;
  textBlockStarted : bool
}.

(** [generateId] draws 24 random characters; the drawn identifier is an
    argument here. *)
Definition createStreamState (generatedId originalModel : string) : StreamState :=
  {| messageId := "msg_" ++ generatedId;
     st_model := originalModel;
     contentBlocks := [];
     currentBlockIndex := -1;
     toolCallStates := [];
     inputTokens := 0;
     outputTokens := 0;
     textBuffer := "";
     textBlockStarted := false |}.

(** Field assignments [state.f = x]. *)
Definition setContentBlocks (x : list ContentBlock) (s : StreamState) : StreamState :=
  {| messageId := messageId s; st_model := st_model s; contentBlocks := x;
     currentBlockIndex := currentBlockIndex s; toolCallStates := toolCallStates s;
     inputTokens := inputTokens s; outputTokens := outputTokens s;
     textBuffer := textBuffer s; textBlockStarted := textBlockStarted s |}.

Definition setCurrentBlockIndex (x : Z) (s : StreamState) : StreamState :=
  {| messageId := messageId s; st_model := st_model s; contentBlocks := contentBlocks s;
     currentBlockIndex := x; toolCallStates := toolCallStates s;
     inputTokens := inputTokens s; outputTokens := outputTokens s;
     textBuffer := textBuffer s; textBlockStarted := textBlockStarted s |}.

Definition setToolCallStates (x : list (Z * ToolCallState)) (s : StreamState) : StreamState :=
  {| messageId := messageId s; st_model := st_model s; contentBlocks := contentBlocks s;
     currentBlockIndex := currentBlockIndex s; toolCallStates := x;
     inputTokens := inputTokens s; outputTokens := outputTokens s;
     textBuffer := textBuffer s; textBlockStarted := textBlockStarted s |}.

Definition setTextBuffer (x : string) (s : StreamState) : StreamState :=
  {| messageId := messageId s; st_model := st_model s; contentBlocks := contentBlocks s;
     currentBlockIndex := currentBlockIndex s; toolCallStates := toolCallStates s;
     inputTokens := inputTokens s; outputTokens := outputTokens s;
     textBuffer := x; textBlockStarted := textBlockStarted s |}.

Definition setTextBlockStarted (x : bool) (s : StreamState) : StreamState :=
  {| messageId := messageId s; st_model := st_model s; contentBlocks := contentBlocks s;
     currentBlockIndex := currentBlockIndex s; toolCallStates := toolCallStates s;
     inputTokens := inputTokens s; outputTokens := outputTokens s;
     textBuffer := textBuffer s; textBlockStarted := x |}.

(** [state.currentBlockIndex++] *)
Definition incrementBlockIndex (s : StreamState) : StreamState :=
  setCurrentBlockIndex (currentBlockIndex s + 1) s.

(** [state.contentBlocks.push(block)] *)
Definition pushContentBlock (block : ContentBlock) (s : StreamState) : StreamState :=
  setContentBlocks (contentBlocks s ++ [block]) s.

Definition createMessageStartEvent (state : StreamState) : StreamEvent :=
  MessageStart
    {| resp_id := messageId state;
       resp_model := st_model state;
       resp_content := [];
       resp_stop_reason := None;
       resp_stop_sequence := None;
       resp_usage := {| input_tokens := inputTokens state; output_tokens := 0 |} |}.

(** *** [translateStreamChunk], part by part *)

(** "Handle text content", for a truthy [delta.content]. *)
Definition handleText (content : string) (state : StreamState)
    : list StreamEvent * StreamState :=
  let '(events, state) :=
    if negb (textBlockStarted state) then
      let state := incrementBlockIndex (setTextBlockStarted true state) in
      ([ContentBlockStart (currentBlockIndex state) (TextBlock "")], state)
    else ([], state) in
  let state := setTextBuffer (textBuffer state ++ content) state in
  (events ++ [ContentBlockDelta (currentBlockIndex state) (TextDelta content)], state).

(** "Close text block if needed", the first step for tool calls. *)
Definition closeTextBlock (state : StreamState) : list StreamEvent * StreamState :=
  if textBlockStarted state && nonEmpty (textBuffer state) then
    ([ContentBlockStop (currentBlockIndex state)],
     setTextBuffer ""
       (setTextBlockStarted false
          (pushContentBlock (TextBlock (textBuffer state)) state)))
  else ([], state).

(** [toolCall.function?.name] and [toolCall.function?.arguments] *)
Definition deltaName (toolCall : DeltaToolCall) : option string :=
  match dtc_function toolCall with Some f => df_name f | None => None end.

Definition deltaArguments (toolCall : DeltaToolCall) : option string :=
  match dtc_function toolCall with Some f => df_arguments f | None => None end.

(** The tool state is an object shared with the map: every change made
    through [toolState] is a change of the map entry. *)
Definition updateToolState (index : Z) (toolState : ToolCallState)
    (state : StreamState) : StreamState :=
  setToolCallStates (assoc_set Z.eqb index toolState (toolCallStates state)) state.

(** The body of the loop [for (const toolCall of delta.tool_calls)]. *)
Definition handleToolCall (toolCall : DeltaToolCall) (state : StreamState)
    : list StreamEvent * StreamState :=
  let index := dtc_index toolCall in
  let '(toolState, state) :=
    match assoc_get Z.eqb index (toolCallStates state), dtc_id toolCall with
    | Some toolState, _ => (Some toolState, state)
    | None, Some id =>
        if nonEmpty id then
          let state := incrementBlockIndex state in
          let toolState :=
            {| ts_id := id;
               ts_name := match deltaName toolCall with Some n => n | None => "" end;
               argumentsBuffer := "";
               startEventSent := false |} in
          (Some toolState, updateToolState index toolState state)
        else (None, state)
    | None, None => (None, state)
    end in
  match toolState with
  | None => ([], state)
  | Some toolState =>
      let toolState :=
        if truthyStr (deltaName toolCall) then
          {| ts_id := ts_id toolState;
             ts_name := match deltaName toolCall with Some n => n | None => "" end;
             argumentsBuffer := argumentsBuffer toolState;
             startEventSent := startEventSent toolState |}
        else toolState in
      let '(startEvents, toolState) :=
        if negb (startEventSent toolState) && nonEmpty (ts_id toolState)
           && nonEmpty (ts_name toolState) then
          ([ContentBlockStart (currentBlockIndex state)
              (ToolUseBlock (ts_id toolState) (ts_name toolState) emptyObject)],
           {| ts_id := ts_id toolState; ts_name := ts_name toolState;
              argumentsBuffer := argumentsBuffer toolState;
              startEventSent := true |})
        else ([], toolState) in
      let '(deltaEvents, toolState) :=
        match deltaArguments toolCall with
        | Some arguments =>
            if nonEmpty arguments then
              ([ContentBlockDelta (currentBlockIndex state) (InputJsonDelta arguments)],
               {| ts_id := ts_id toolState; ts_name := ts_name toolState;
                  argumentsBuffer := argumentsBuffer toolState ++ arguments;
                  startEventSent := startEventSent toolState |})
            else ([], toolState)
        | None => ([], toolState)
        end in
      (startEvents ++ deltaEvents, updateToolState index toolState state)
  end.

Fixpoint handleToolCalls (toolCalls : list DeltaToolCall) (state : StreamState)
    : list StreamEvent * StreamState :=
  match toolCalls with
  | [] => ([], state)
  | toolCall :: rest =>
      let '(events, state) := handleToolCall toolCall state in
      let '(events', state) := handleToolCalls rest state in
      (events ++ events', state)
  end.

(** [if (delta.content) { ... }] *)
Definition textPart (delta : DeltaMessage) (state : StreamState)
    : list StreamEvent * StreamState :=
  match delta_content delta with
  | Some content =>
      if nonEmpty content then handleText content state else ([], state)
  | None => ([], state)
  end.

(** [if (delta.tool_calls) { ... }]; an array, even empty, is truthy. *)
Definition toolCallsPart (delta : DeltaMessage) (state : StreamState)
    : list StreamEvent * StreamState :=
  match delta_tool_calls delta with
  | Some toolCalls =>
      let '(closeEvents, state) := closeTextBlock state in
      let '(callEvents, state) := handleToolCalls toolCalls state in
      (closeEvents ++ callEvents, state)
  | None => ([], state)
  end.

(** The argument handed to [translateStopReason] when a tool call was
    registered. *)
Definition placeholderToolCalls : list ToolCall :=
  [{| tc_id := ""; tc_function := {| fn_name := ""; fn_arguments := "" |} |}].

Section WithParser.
(** [JSON.parse], a builtin: [None] when it throws a [SyntaxError]. *)
Variable JSON_parse : string -> option Value.

(** "Close any open tool call blocks", over the map
    entries still to visit. *)
Fixpoint closeToolBlocks (entries : list (Z * ToolCallState)) (state : StreamState)
    : Result (list StreamEvent) * StreamState :=
  match entries with
  | [] => (Ok [], state)
  | (index, toolState) :: rest =>
      if startEventSent toolState then
        let stop :=
          ContentBlockStop
            (currentBlockIndex state
             - (Z.of_nat (List.length (toolCallStates state)) - 1 - index)) in
        let input :=
          if nonEmpty (argumentsBuffer toolState)
          then JSON_parse (argumentsBuffer toolState)
          else Some emptyObject in
        match input with
        | None => (Throw SyntaxError, state)
        | Some input =>
            let state :=
              pushContentBlock
                (ToolUseBlock (ts_id toolState) (ts_name toolState) input) state in
            match closeToolBlocks rest state with
            | (Ok events, state) => (Ok (stop :: events), state)
            | (Throw e, state) => (Throw e, state)
            end
        end
      else closeToolBlocks rest state
  end.

(** "Handle finish", for a truthy [finish_reason]. *)
Definition handleFinish (finish_reason : string) (state : StreamState)
    : Result (list StreamEvent) * StreamState :=
  let '(textEvents, state) :=
    if textBlockStarted state then
      ([ContentBlockStop (currentBlockIndex state)],
       pushContentBlock (TextBlock (textBuffer state)) state)
    else ([], state) in
  match closeToolBlocks (toolCallStates state) state with
  | (Throw e, state) => (Throw e, state)
  | (Ok toolEvents, state) =>
      let hasToolCalls := (0 <? Z.of_nat (List.length (toolCallStates state))) in
      let stopReason :=
        translateStopReason (Some finish_reason)
          (if hasToolCalls then Some placeholderToolCalls else None) in
      (Ok (textEvents ++ toolEvents
           ++ [MessageDelta
                 (match stopReason with Some r => r | None => end_turn end)
                 None (outputTokens state);
               MessageStop]),
       state)
  end.

(** [if (choice.finish_reason) { ... }] *)
Definition finishPart (choice : ChunkChoice) (state : StreamState)
    : Result (list StreamEvent) * StreamState :=
  match cc_finish_reason choice with
  | Some finish_reason =>
      if nonEmpty finish_reason then handleFinish finish_reason state
      else (Ok [], state)
  | None => (Ok [], state)
  end.

Definition translateStreamChunk (chunk : ChatCompletionsChunk) (state : StreamState)
    : Result (list StreamEvent) * StreamState :=
  match chunk_choices chunk with
  | [] => (Ok [], state)
  | choice :: _ =>
      let delta := cc_delta choice in
      let '(textEvents, state) := textPart delta state in
      let '(toolEvents, state) := toolCallsPart delta state in
      match finishPart choice state with
      | (Ok finishEvents, state) =>
          (Ok (textEvents ++ toolEvents ++ finishEvents), state)
      | (Throw e, state) => (Throw e, state)
      end
  end.

(** The loop of [handleStreamingResponse] ([server.ts]): the chunks are
    fed in arrival order to one state and the events of each are written
    out; a throw ends the loop. *)
Fixpoint feedChunks (chunks : list ChatCompletionsChunk) (state : StreamState)
    : list StreamEvent * option Exn * StreamState :=
  match chunks with
  | [] => ([], None, state)
  | chunk :: rest =>
      match translateStreamChunk chunk state with
      | (Ok events, state) =>
          let '(events', e, state) := feedChunks rest state in
          (events ++ events', e, state)
      | (Throw e, state) => ([], Some e, state)
      end
  end.

(** ** Non-streaming translation *)

(** "Add tool use blocks if present": the loop over the tool calls. *)
Fixpoint toolUseBlocks (toolCalls : list ToolCall) : Result (list ContentBlock) :=
  match toolCalls with
  | [] => Ok []
  | toolCall :: rest =>
      match JSON_parse (fn_arguments (tc_function toolCall)) with
      | None => Throw SyntaxError
      | Some input =>
          match toolUseBlocks rest with
          | Ok blocks =>
              Ok (ToolUseBlock (tc_id toolCall) (fn_name (tc_function toolCall)) input
                  :: blocks)
          | Throw e => Throw e
          end
      end
  end.

Definition translateResponse (cerebrasResponse : ChatCompletionsResponse)
    (originalModel : string) : Result MessagesResponse :=
  match choices cerebrasResponse with
  | [] => Throw (Error "No choices in Cerebras response")
  | choice :: _ =>
      let textContent :=
        match msg_content (message choice) with
        | Some text => if nonEmpty text then [TextBlock text] else []
        | None => []
        end in
      let toolContent :=
        match msg_tool_calls (message choice) with
        | Some toolCalls => toolUseBlocks toolCalls
        | None => Ok []
        end in
      match toolContent with
      | Throw e => Throw e
      | Ok toolContent =>
          let content := textContent ++ toolContent in
          let content :=
            match content with
            | [] => [TextBlock ""]
            | _ :: _ => content
            end in
          Ok {| resp_id := "msg_" ++ response_id cerebrasResponse;
                resp_model := originalModel;
                resp_content := content;
                resp_stop_reason :=
                  translateStopReason (finish_reason choice)
                    (msg_tool_calls (message choice));
                resp_stop_sequence := None;
                resp_usage :=
                  {| input_tokens := prompt_tokens (usage cerebrasResponse);
                     output_tokens := completion_tokens (usage cerebrasResponse) |} |}
      end
  end.

End WithParser.

End Response.

(* ================================================================== *)
(** ** [cerebras-client.ts] *)

Module Client.
Import Cerebras.

(** "Create a clean request object with only known fields": the object
    both methods serialize, [stream] being [false] for [createCompletion]
    and [true] for [createCompletionStream]. *)
Definition cleanRequest (stream : bool) (request : ChatCompletionsRequest)
    : ChatCompletionsRequest :=
  let withTools :=
    match req_tools request with
    | Some (_ :: _) => true
    | _ => false
    end in
  {| req_model := req_model request;
     req_messages := req_messages request;
     req_temperature := req_temperature request;
     req_top_p := req_top_p request;
     req_max_completion_tokens := req_max_completion_tokens request;
     req_stream := Some stream;
     req_stop := req_stop request;
     req_seed := req_seed request;
     req_tools := if withTools then req_tools request else None;
     req_tool_choice := if withTools then req_tool_choice request else None;
     req_parallel_tool_calls :=
       if withTools then req_parallel_tool_calls request else None |}.

Definition LF : ascii := ascii_of_nat 10.

(** [s.split("\n")]: the pieces between line feeds, never an empty list. *)
Fixpoint splitLines (s : string) : list string :=
  match s with
  | EmptyString => [EmptyString]
  | String c s' =>
      if Ascii.eqb c LF then EmptyString :: splitLines s'
      else
        match splitLines s' with
        | line :: lines => String c line :: lines
        | [] => [String c EmptyString]
        end
  end.

(** [s.slice(n)] *)
Definition sliceFrom (n : nat) (s : string) : string :=
  substring n (String.length s - n) s.

Section ReadStream.
(** [String.prototype.trim], a builtin. *)
Variable trim : string -> string.
(** [JSON.parse] of a payload, read as a chunk: [None] when it throws. *)
Variable parseChunk : string -> option ChatCompletionsChunk.

(** The loop [for (const line of lines)]: the chunks it yields, and
    whether it met [data: [DONE]] and returned. *)
Fixpoint readLines (lines : list string) : list ChatCompletionsChunk * bool :=
  match lines with
  | [] => ([], false)
  | line :: rest =>
      let trimmed := trim line in
      if negb (nonEmpty trimmed) || negb (String.prefix "data: " trimmed)
      then readLines rest
      else
        let data := sliceFrom 6 trimmed in
        if String.eqb data "[DONE]" then ([], true)
        else
          match parseChunk data with
          | Some chunk =>
              let '(chunks, returned) := readLines rest in
              (chunk :: chunks, returned)
          | None => readLines rest
          end
  end.

(** The loop [while (true)] of [createCompletionStream] over the texts
    the decoder gives for the successive reads, starting with [buffer]:
    the chunks the generator yields, and whether it ended on [DONE]
    rather than on the end of the body. *)
Fixpoint readStream (reads : list string) (buffer : string)
    : list ChatCompletionsChunk * bool :=
  match reads with
  | [] => ([], false)
  | value :: rest =>
      let buffer := (buffer ++ value)%string in
      let lines := splitLines buffer in
      let buffer := last lines EmptyString in
      let lines := removelast lines in
      let '(chunks, returned) := readLines lines in
      if returned then (chunks, true)
      else
        let '(chunks', returned') := readStream rest buffer in
        (chunks ++ chunks', returned')
  end.

End ReadStream.

End Client.

(* ================================================================== *)
(** ** [server.ts] *)

Module Server.
Import Anthropic Cerebras Response.





Section StreamingResponse.
Variable JSON_parse : string -> option Value.
(** [error.message] of the error [JSON.parse] throws. *)
Variable syntaxErrorMessage : string.

Definition errorMessage (e : Exn) : string :=
  match e with
  | Error message => message
  | SyntaxError => syntaxErrorMessage
  end.

(** The events [handleStreamingResponse] writes, in order, when the
    client yields [chunks] and then ends, normally or by throwing
    [upstream]: message start, ping, the events of the chunks, and an
    error event if anything was thrown. *)
Definition handleStreamingResponse (generatedId originalModel : string)
    (chunks : list ChatCompletionsChunk) (upstream : option Exn) : list StreamEvent :=
  let state := createStreamState generatedId originalModel in
  let '(events, thrown, _) := feedChunks JSON_parse chunks state in
  [createMessageStartEvent state; Ping]
  ++ events
  ++ match thrown, upstream with
     | Some e, _ => [ErrorEvent "api_error" (errorMessage e)]
     | None, Some e => [ErrorEvent "api_error" (errorMessage e)]
     | None, None => []
     end.

End StreamingResponse.

End Server.

(* ================================================================== *)
(** ** [logger.ts] *)

Module Logger.

Inductive LogLevel : Type := debug | info | warn | error.

Definition levelName (level : LogLevel) : string :=
  match level with
  | debug => "debug"
  | info => "info"
  | warn => "warn"
  | error => "error"
  end.

Definition LOG_LEVELS : list (string * Z) :=
  [("debug", 0); ("info", 1); ("warn", 2); ("error", 3)].

(** The property names an object literal inherits from
    [Object.prototype]. *)
Definition inheritedNames : list string :=
  ["constructor"; "hasOwnProperty"; "isPrototypeOf"; "propertyIsEnumerable";
   "toLocaleString"; "toString"; "valueOf"; "__proto__"; "__defineGetter__";
   "__defineSetter__"; "__lookupGetter__"; "__lookupSetter__"].

(** [key in LOG_LEVELS]: own or inherited. *)
Definition inLogLevels (key : string) : bool :=
  assoc_has String.eqb key LOG_LEVELS || existsb (String.eqb key) inheritedNames.

Section WithEnvironment.
(** [String.prototype.toLowerCase], a builtin. *)
Variable toLowerCase : string -> string.
(** [process.env.LOG_LEVEL] *)
Variable LOG_LEVEL : option string.

Definition getLogLevel : string :=
  match LOG_LEVEL with
  | Some value =>
      let env := toLowerCase value in
      if nonEmpty env && inLogLevels env then env else "info"
  | None => "info"
  end.

(** [LOG_LEVELS[level] >= LOG_LEVELS[getLogLevel()]]: under an inherited
    name the right-hand side is not a number and the comparison is
    false. *)
Definition shouldLog (level : LogLevel) : bool :=
  match assoc_get String.eqb (levelName level) LOG_LEVELS,
        assoc_get String.eqb getLogLevel LOG_LEVELS with
  | Some rank, Some threshold => (threshold <=? rank)
  | _, _ => false
  end.

End WithEnvironment.

End Logger.

(* ================================================================== *)
(** ** Vocabulary of the properties *)

Import Anthropic Cerebras Request Response.

(** *** The sanitizer, piece by piece

    The parts of the body of [cleanSchema], named so that its unfolding
    can be stated ([cleanSchema_unfold] below). *)

(** [typeof item === "object" && item !== null ? cleanSchema(item) : item] *)
Definition cleanItem (item : Value) : Value :=
  if isObject item then cleanSchema item else item.

(** The [newProps] object built for a [properties] value. *)
Definition cleanProperties (value : Value) : Value :=
  forEntries (fun newProps propKey propValue =>
    if isObject propValue
    then set newProps propKey (cleanSchema propValue)
    else set newProps propKey propValue)
  value emptyObject.

(** What is stored under [key] for a field that is kept. *)
Definition cleanValue (key : string) (value : Value) : Value :=
  if String.eqb key "properties" && isObject value then cleanProperties value
  else if String.eqb key "items" && isObject value then cleanSchema value
  else if String.eqb key "anyOf" && isArray value then arrayMap cleanItem value
  else if String.eqb key "oneOf" && isArray value then arrayMap cleanItem value
  else if String.eqb key "allOf" && isArray value then arrayMap cleanItem value
  else if isObject value && negb (isArray value) then cleanSchema value
  else value.

(** One turn of the loop over the entries of the schema. *)
Definition cleanEntry (result : Value) (key : string) (value : Value) : Value :=
  if includes UNSUPPORTED_SCHEMA_FIELDS key then result
  else set result key (cleanValue key value).

(** The closing of object types after the loop ("Add
    additionalProperties: false to object types and ensure they have
    properties"). *)
Definition closeObjectType (result : Value) : Value :=
  if isString "object" (get result "type") then
    let result := set result "additionalProperties" (VBool false) in
    if negb (truthy (get result "properties")) && negb (truthy (get result "anyOf"))
       && negb (truthy (get result "oneOf")) && negb (truthy (get result "allOf"))
    then set result "properties" emptyObject
    else result
  else result.

(** The loops and the closing step once more, on the bare list of own
    properties: what they come to when no key is [__proto__], so that
    every assignment is an update of that list ([cleanSchema_own]).

    [copyEntry drop f own (key, value)]: skip a dropped key, else assign
    [f key value] under [key]. *)
Definition copyEntry (drop : string -> bool) (f : string -> Value -> Value)
    (own : list (string * Value)) (entry : string * Value) : list (string * Value) :=
  if drop (fst entry) then own
  else assoc_set String.eqb (fst entry) (f (fst entry) (snd entry)) own.

(** A turn of the loop over the schema. *)
Definition keepEntry : list (string * Value) -> string * Value -> list (string * Value) :=
  copyEntry (includes UNSUPPORTED_SCHEMA_FIELDS) cleanValue.

(** A turn of the loop over the properties. *)
Definition keepProperty : list (string * Value) -> string * Value -> list (string * Value) :=
  copyEntry (fun _ => false) (fun _ => cleanItem).

(** [o.key] for an object with own properties [own] and nothing
    inherited. *)
Definition lookup (key : string) (own : list (string * Value)) : Value :=
  match assoc_get String.eqb key own with Some v => v | None => VUndefined end.

(** [closeObjectType] on the own properties. *)
Definition closeOwn (own : list (string * Value)) : list (string * Value) :=
  if isString "object" (lookup "type" own) then
    let own := assoc_set String.eqb "additionalProperties" (VBool false) own in
    if negb (truthy (lookup "properties" own)) && negb (truthy (lookup "anyOf" own))
       && negb (truthy (lookup "oneOf" own)) && negb (truthy (lookup "allOf" own))
    then assoc_set String.eqb "properties" emptyObject own
    else own
  else own.

(** None of the keys of a list of entries is [__proto__]. *)
Definition ordinaryKeys (es : list (string * Value)) : Prop :=
  Forall (fun kv => fst kv <> "__proto__") es.

(** No object anywhere in [v] has an own property named [__proto__]. *)
Fixpoint noProtoKey (v : Value) : bool :=
  match v with
  | VArray l => forallb noProtoKey l
  | VObject _ own =>
      forallb (fun kv => negb (String.eqb (fst kv) "__proto__") && noProtoKey (snd kv)) own
  | _ => true
  end.

(** Number of nodes of a value (prototypes aside). *)
Fixpoint size (v : Value) : nat :=
  match v with
  | VArray l => S (list_sum (map size l))
  | VObject _ own => S (list_sum (map (fun kv => size (snd kv)) own))
  | _ => 1%nat
  end.

(** [{"type": "object", "__proto__": {"anyOf": [{"type": "string"}]}}] as
    [JSON.parse] builds it: [__proto__] is an own property. *)
Definition protoSchema : Value :=
  VObject None
    [("type", VString "object");
     ("__proto__",
      VObject None [("anyOf", VArray [VObject None [("type", VString "string")]])])].

(** A tool one of whose parameters has that schema. *)
Definition protoTool : Anthropic.Tool :=
  {| tool_name := "lookup";
     tool_description := None;
     input_schema :=
       VObject None
         [("type", VString "object");
          ("properties", VObject None [("query", protoSchema)])] |}.

(** *** Chunks *)

(** A chunk with one choice. *)
Definition chunkOf (id : string) (created : Z) (model : string)
    (delta : DeltaMessage) (finish_reason : option string) : ChatCompletionsChunk :=
  {| chunk_id := id; chunk_created := created; chunk_model := model;
     chunk_choices :=
       [{| cc_index := 0; cc_delta := delta; cc_finish_reason := finish_reason |}] |}.

Definition textDelta (content : string) : DeltaMessage :=
  {| delta_content := Some content; delta_tool_calls := None |}.

Definition toolCallDelta (toolCall : DeltaToolCall) : DeltaMessage :=
  {| delta_content := None; delta_tool_calls := Some [toolCall] |}.

Definition emptyDelta : DeltaMessage :=
  {| delta_content := None; delta_tool_calls := None |}.

(** The least parser that agrees with [JSON.parse] on ["{}"]. *)
Definition emptyObjectParser (text : string) : option Value :=
  if String.eqb text "{}" then Some emptyObject else None.

(** *** Index assignment

    The states a chunk passes through, one after each part of
    [translateStreamChunk]: the text part, the closing of the text block
    before tool calls, each tool-call delta, the finish part. *)
Fixpoint toolCallTrace (toolCalls : list DeltaToolCall) (state : StreamState)
    : list StreamState :=
  match toolCalls with
  | [] => []
  | toolCall :: rest =>
      let state := snd (handleToolCall toolCall state) in
      state :: toolCallTrace rest state
  end.

Definition chunkTrace (JSON_parse : string -> option Value)
    (chunk : ChatCompletionsChunk) (state : StreamState) : list StreamState :=
  match chunk_choices chunk with
  | [] => []
  | choice :: _ =>
      let delta := cc_delta choice in
      let afterText := snd (textPart delta state) in
      let toolStates :=
        match delta_tool_calls delta with
        | Some toolCalls =>
            let closed := snd (closeTextBlock afterText) in
            closed :: toolCallTrace toolCalls closed
        | None => []
        end in
      let afterTools := last toolStates afterText in
      [afterText] ++ toolStates ++ [snd (finishPart JSON_parse choice afterTools)]
  end.

(** The states of a whole reply, chunk after chunk, up to a throw. *)
Fixpoint feedTrace (JSON_parse : string -> option Value)
    (chunks : list ChatCompletionsChunk) (state : StreamState) : list StreamState :=
  match chunks with
  | [] => []
  | chunk :: rest =>
      chunkTrace JSON_parse chunk state
      ++ match translateStreamChunk JSON_parse chunk state with
         | (Ok _, state) => feedTrace JSON_parse rest state
         | (Throw _, _) => []
         end
  end.

(** A content unit comes into being between two consecutive states: a
    text unit is opened, or a tool call is registered in the map. *)
Definition opensUnit (before after : StreamState) : bool :=
  (negb (textBlockStarted before) && textBlockStarted after)
  || (List.length (toolCallStates before) <? List.length (toolCallStates after))%nat.

(** The index each new unit receives: the running index right after. *)
Fixpoint assignedIndices (before : StreamState) (trace : list StreamState) : list Z :=
  match trace with
  | [] => []
  | after :: rest =>
      (if opensUnit before after then [currentBlockIndex after] else [])
      ++ assignedIndices after rest
  end.




(** *** Events and frames *)

Definition isMessageDelta (e : StreamEvent) : bool :=
  match e with MessageDelta _ _ _ => true | _ => false end.

(** The token counters of a state. *)
Definition tokenCounters (s : StreamState) : Z * Z := (inputTokens s, outputTokens s).

(** [s'] differs from [s] at most in its finalized blocks. *)
Definition onlyContentBlocks (s s' : StreamState) : Prop :=
  messageId s' = messageId s /\ st_model s' = st_model s
  /\ currentBlockIndex s' = currentBlockIndex s
  /\ toolCallStates s' = toolCallStates s
  /\ inputTokens s' = inputTokens s /\ outputTokens s' = outputTokens s
  /\ textBuffer s' = textBuffer s /\ textBlockStarted s' = textBlockStarted s.

(** The stop reason of the finish part, read off the state it leaves: the
    mapping applied to the finish reason, with a tool call present exactly
    when the map of tool calls is not empty, and end_turn for none. *)
Definition streamStopReason (finish_reason : string) (state : StreamState) : StopReason :=
  match
    translateStopReason (Some finish_reason)
      (match toolCallStates state with
       | [] => None
       | _ :: _ => Some placeholderToolCalls
       end)
  with
  | Some r => r
  | None => end_turn
  end.

(** *** Messages of the request mapper *)

Definition isToolMessage (m : ChatMessage) : bool :=
  match m with ToolMessage _ _ => true | _ => false end.

(** The texts of the text blocks of a list, in order. *)
Fixpoint textsOf (blocks : list ContentBlock) : list string :=
  match blocks with
  | [] => []
  | TextBlock text :: rest => text :: textsOf rest
  | _ :: rest => textsOf rest
  end.

(** What the mapper owes for one [tool_result] block. *)
Definition toolMessageFor (block : ContentBlock) (m : ChatMessage) : Prop :=
  exists tool_use_id content is_error,
    block = ToolResultBlock tool_use_id content is_error
    /\ let text :=
         match content with
         | inl s => s
         | inr blocks => join newline (textsOf blocks)
         end in
       m = ToolMessage
             (match is_error with Some true => "Error: " ++ text | _ => text end)
             tool_use_id.

(** *** Streams of chunks *)

(** A start, delta or stop of a content block. *)
Definition isBlockEvent (e : StreamEvent) : bool :=
  match e with
  | ContentBlockStart _ _ | ContentBlockDelta _ _ | ContentBlockStop _ => true
  | _ => false
  end.

Definition isBlockStart (e : StreamEvent) : bool :=
  match e with ContentBlockStart _ _ => true | _ => false end.

Definition isBlockStop (e : StreamEvent) : bool :=
  match e with ContentBlockStop _ => true | _ => false end.

(** What the translator may emit at all. *)
Definition isTranslatorEvent (e : StreamEvent) : bool :=
  match e with
  | ContentBlockStart _ _ | ContentBlockDelta _ _ | ContentBlockStop _
  | MessageDelta _ _ _ | MessageStop => true
  | _ => false
  end.

(** The chunk carries a finish signal: its first choice has a truthy
    [finish_reason]. *)
Definition finishes (chunk : ChatCompletionsChunk) : bool :=
  match chunk_choices chunk with
  | choice :: _ => truthyStr (cc_finish_reason choice)
  | [] => false
  end.

(** The text the chunk carries: the [delta.content] of its first choice
    when truthy. *)
Definition chunkText (chunk : ChatCompletionsChunk) : string :=
  match chunk_choices chunk with
  | choice :: _ =>
      match delta_content (cc_delta choice) with
      | Some content => content
      | None => ""
      end
  | [] => ""
  end.

(** The tool-call deltas the chunk carries. *)
Definition chunkToolCalls (chunk : ChatCompletionsChunk) : option (list DeltaToolCall) :=
  match chunk_choices chunk with
  | choice :: _ => delta_tool_calls (cc_delta choice)
  | [] => None
  end.

(** Strings put end to end. *)
Definition concatStrings (l : list string) : string :=
  fold_right String.append "" l.

(** The texts of the text deltas among some events, in order. *)
Fixpoint deltaTexts (events : list StreamEvent) : list string :=
  match events with
  | [] => []
  | ContentBlockDelta _ (TextDelta text) :: rest => text :: deltaTexts rest
  | _ :: rest => deltaTexts rest
  end.

(** The flag of the open text block and its buffer agree. *)
Definition textInvariant (s : StreamState) : Prop :=
  textBlockStarted s = nonEmpty (textBuffer s).

(** The tool calls of a map marked as started. *)
Definition startedCalls (entries : list (Z * ToolCallState)) : nat :=
  List.length (filter (fun entry => startEventSent (snd entry)) entries).

(** The units whose start was emitted and whose stop is still due: the
    open text block and the tool calls marked as started. *)
Definition openUnits (s : StreamState) : nat :=
  ((if textBlockStarted s then 1 else 0) + startedCalls (toolCallStates s))%nat.

(** The units that came into being: text blocks closed, the text block
    open, tool calls registered. *)
Definition unitCount (s : StreamState) : nat :=
  (List.length (filter isText (contentBlocks s))
   + (if textBlockStarted s then 1 else 0)
   + List.length (toolCallStates s))%nat.

Definition countIf (f : StreamEvent -> bool) (events : list StreamEvent) : nat :=
  List.length (filter f events).

(** What the parts before the finish part do to a state, as far as the
    properties below need it:  [events] are emitted on the way from [s]
    to [s']. *)
Record blockStep (s : StreamState) (events : list StreamEvent) (s' : StreamState)
    : Prop := {
  step_events : Forall (fun e => isBlockEvent e = true) events;
  step_invariant : textInvariant s -> textInvariant s';
  step_blocks : exists added, contentBlocks s' = contentBlocks s ++ added;
  step_text :
    (concatStrings (textsOf (contentBlocks s')) ++ textBuffer s')%string
    = ((concatStrings (textsOf (contentBlocks s)) ++ textBuffer s)
       ++ concatStrings (deltaTexts events))%string;
  step_balance :
    (countIf isBlockStart events + openUnits s
     = countIf isBlockStop events + openUnits s')%nat;
  step_units :
    currentBlockIndex s' - Z.of_nat (unitCount s')
    = currentBlockIndex s - Z.of_nat (unitCount s);
  step_counters : tokenCounters s' = tokenCounters s
}.

(** A reply that is text only, as the non-streaming endpoint gives it
    and as the streaming endpoint gives it, piece by piece. *)
Definition textReply (id : string) (created : Z) (model : string) (usage : Cerebras.Usage)
    (text reason : string) : ChatCompletionsResponse :=
  {| response_id := id; response_created := created; response_model := model;
     choices :=
       [{| choice_index := 0;
           message := {| msg_content := Some text; msg_reasoning := None;
                         msg_tool_calls := None |};
           finish_reason := Some reason |}];
     usage := usage |}.

Definition textReplyChunks (id : string) (created : Z) (model : string)
    (pieces : list string) (reason : string) : list ChatCompletionsChunk :=
  map (fun piece => chunkOf id created model (textDelta piece) None) pieces
  ++ [chunkOf id created model emptyDelta (Some reason)].

(** The stop reason a client sees, [end_turn] standing in for none. *)
Definition orEndTurn (stop_reason : option StopReason) : StopReason :=
  match stop_reason with Some r => r | None => end_turn end.

(** *** Replies given whole *)

(** The tool calls of a choice, none when the field is absent. *)
Definition toolCallsOf (choice : Choice) : list ToolCall :=
  match msg_tool_calls (message choice) with
  | Some toolCalls => toolCalls
  | None => []
  end.

(** Identifier and name of each tool call, in order. *)
Definition toolCallHeads (toolCalls : list ToolCall) : list (string * string) :=
  map (fun toolCall => (tc_id toolCall, fn_name (tc_function toolCall))) toolCalls.

(** Identifier and name of each [tool_use] block, in order. *)
Fixpoint toolUseHeads (blocks : list ContentBlock) : list (string * string) :=
  match blocks with
  | [] => []
  | ToolUseBlock id name _ :: rest => (id, name) :: toolUseHeads rest
  | _ :: rest => toolUseHeads rest
  end.

(** Identifier and name of the tool calls of a map that are marked as
    started, in the order of the map. *)
Definition startedHeads (entries : list (Z * ToolCallState)) : list (string * string) :=
  map (fun entry => (ts_id (snd entry), ts_name (snd entry)))
    (filter (fun entry => startEventSent (snd entry)) entries).

(** A reply that is one tool call. *)
Definition toolCallReply (id : string) (created : Z) (model : string)
    (usage : Cerebras.Usage) (toolCall : ToolCall) (reason : string)
    : ChatCompletionsResponse :=
  {| response_id := id; response_created := created; response_model := model;
     choices :=
       [{| choice_index := 0;
           message := {| msg_content := None; msg_reasoning := None;
                         msg_tool_calls := Some [toolCall] |};
           finish_reason := Some reason |}];
     usage := usage |}.

(** *** Requests *)

(** The [tool_use_id] of a block that is a tool result. *)
Definition toolResultId (block : ContentBlock) : list string :=
  match block with ToolResultBlock tool_use_id _ _ => [tool_use_id] | _ => [] end.

(** The [id] of a block that is a tool use. *)
Definition toolUseId (block : ContentBlock) : list string :=
  match block with ToolUseBlock id _ _ => [id] | _ => [] end.

(** The tool results a user message answers with, by identifier. *)
Definition toolResultIds (message : Message) : list string :=
  match role message, content message with
  | user, inr blocks => flat_map toolResultId blocks
  | _, _ => []
  end.

(** The tool uses an assistant message asks for, by identifier. *)
Definition toolUseIds (message : Message) : list string :=
  match role message, content message with
  | assistant, inr blocks => flat_map toolUseId blocks
  | _, _ => []
  end.

(** The texts a user message says: its string, or the texts of its
    text blocks. *)
Definition messageTexts (message : Message) : list string :=
  match role message, content message with
  | user, inl text => [text]
  | user, inr blocks => textsOf blocks
  | _, _ => []
  end.

Definition isAssistant (message : Message) : bool :=
  match role message with assistant => true | user => false end.

(** The same on the provider side. *)
Definition toolMessageId (m : ChatMessage) : list string :=
  match m with ToolMessage _ tool_call_id => [tool_call_id] | _ => [] end.

Definition toolCallIds (m : ChatMessage) : list string :=
  match m with
  | AssistantMessage _ (Some toolCalls) => map tc_id toolCalls
  | _ => []
  end.

Definition partText (part : UserContentPart) : list string :=
  match part with TextPart text => [text] | _ => [] end.

Definition userTexts (m : ChatMessage) : list string :=
  match m with
  | UserMessage (inl text) => [text]
  | UserMessage (inr parts) => flat_map partText parts
  | _ => []
  end.

Definition isSystemMessage (m : ChatMessage) : bool :=
  match m with SystemMessage _ => true | _ => false end.

Definition isAssistantMessage (m : ChatMessage) : bool :=
  match m with AssistantMessage _ _ => true | _ => false end.

(** *** Text of the provider's stream *)

(** The string holds a line feed. *)
Fixpoint hasLF (s : string) : bool :=
  match s with
  | EmptyString => false
  | String c s' => Ascii.eqb c Client.LF || hasLF s'
  end.

(** A reader whose payloads all parse, each to a chunk without content
    named after its payload. *)
Definition namedChunk (data : string) : option ChatCompletionsChunk :=
  Some (chunkOf data 0 "m" emptyDelta None).

(** *** Server and logger *)

(** The message start of a stream: no content, no stop reason, counters
    at zero. *)
Definition firstEvent (generatedId originalModel : string) : StreamEvent :=
  MessageStart
    {| resp_id := "msg_" ++ generatedId;
       resp_model := originalModel;
       resp_content := [];
       resp_stop_reason := None;
       resp_stop_sequence := None;
       resp_usage := {| input_tokens := 0; output_tokens := 0 |} |}.

(** The rank of a level in [LOG_LEVELS]. *)
Definition rank (level : Logger.LogLevel) : Z :=
  match level with
  | Logger.debug => 0
  | Logger.info => 1
  | Logger.warn => 2
  | Logger.error => 3
  end.

(** *** Proof automation *)

(** Case analysis on the innermost scrutinee of the goal. *)
Ltac break_inner :=
  match goal with
  | |- context [match ?x with _ => _ end] =>
      lazymatch x with
      | context [match _ with _ => _ end] => fail
      | _ => destruct x eqn:?
      end
  end.

(* ================================================================== *)
(** ** The streaming translator on given chunk sequences *)

Section StreamExamples.
Variable JSON_parse : string -> option Value.
Variables (generatedId originalModel : string).
Variables (id : string) (created : Z) (model : string).

(** Claim C1.  The chunks [text "Hel"], [text "lo"], [finish "stop"], fed
    in order to a fresh state, produce exactly: start of text block 0
    with empty text, delta "Hel", delta "lo", stop of block 0, message
    delta with stop reason end_turn, message stop; nothing is thrown.
    Each delta event carries the increment of its chunk, never the
    accumulated text (the buffer holds "Hello" when "lo" is sent). *)
Theorem text_stream_events :
  feedChunks JSON_parse
    [chunkOf id created model (textDelta "Hel") None;
     chunkOf id created model (textDelta "lo") None;
     chunkOf id created model emptyDelta (Some "stop")]
    (createStreamState generatedId originalModel)
  = ([ContentBlockStart 0 (TextBlock "");
      ContentBlockDelta 0 (TextDelta "Hel");
      ContentBlockDelta 0 (TextDelta "lo");
      ContentBlockStop 0;
      MessageDelta end_turn None 0;
      MessageStop],
     None,
     {| messageId := "msg_" ++ generatedId;
        st_model := originalModel;
        contentBlocks := [TextBlock "Hello"];
        currentBlockIndex := 0;
        toolCallStates := [];
        inputTokens := 0;
        outputTokens := 0;
        textBuffer := "Hello";
        textBlockStarted := true |}).
Proof. reflexivity. Qed.

(** Claim C2.  For a non-empty id [X] and a parser that reads ["{}"] as
    the empty object, the chunks [tool call 0: id X, name "f", arguments
    ""], [tool call 0: arguments "{}"], [finish "tool_calls"], fed in
    order to a fresh state, produce exactly: start of tool_use block 0
    (id X, name "f", empty input), input_json_delta "{}" at 0, stop of
    block 0, message delta with stop reason tool_use, message stop;
    nothing is thrown, and the one finalized block in the state is that
    tool use with the empty object as input. *)
Theorem tool_call_stream_events (X : string) :
  X <> "" ->
  JSON_parse "{}" = Some emptyObject ->
  feedChunks JSON_parse
    [chunkOf id created model
       (toolCallDelta
          {| dtc_index := 0; dtc_id := Some X;
             dtc_function := Some {| df_name := Some "f"; df_arguments := Some "" |} |})
       None;
     chunkOf id created model
       (toolCallDelta
          {| dtc_index := 0; dtc_id := None;
             dtc_function := Some {| df_name := None; df_arguments := Some "{}" |} |})
       None;
     chunkOf id created model emptyDelta (Some "tool_calls")]
    (createStreamState generatedId originalModel)
  = ([ContentBlockStart 0 (ToolUseBlock X "f" emptyObject);
      ContentBlockDelta 0 (InputJsonDelta "{}");
      ContentBlockStop 0;
      MessageDelta tool_use None 0;
      MessageStop],
     None,
     {| messageId := "msg_" ++ generatedId;
        st_model := originalModel;
        contentBlocks := [ToolUseBlock X "f" emptyObject];
        currentBlockIndex := 0;
        toolCallStates :=
          [(0, {| ts_id := X; ts_name := "f"; argumentsBuffer := "{}";
                  startEventSent := true |})];
        inputTokens := 0;
        outputTokens := 0;
        textBuffer := "";
        textBlockStarted := false |}).
Proof.
  intros HX Hparse.
  destruct X as [|c X']; [congruence|].
  cbn. rewrite Hparse. reflexivity.
Qed.

(** Claim C10.  Whatever the state, a chunk with an empty [choices] list
    yields no event and leaves the state as it is. *)
Theorem empty_choices_no_effect (state : StreamState) :
  translateStreamChunk JSON_parse
    {| chunk_id := id; chunk_created := created; chunk_model := model;
       chunk_choices := [] |} state
  = (Ok [], state).
Proof. reflexivity. Qed.

End StreamExamples.

Lemma tool_call_stream_events_witness :
  "call_1" <> ""
  /\ emptyObjectParser "{}" = Some emptyObject
  /\ fst (fst (feedChunks emptyObjectParser
       [chunkOf "c1" 0 "zai-glm-4.6"
          (toolCallDelta
             {| dtc_index := 0; dtc_id := Some "call_1";
                dtc_function :=
                  Some {| df_name := Some "f"; df_arguments := Some "" |} |})
          None;
        chunkOf "c1" 0 "zai-glm-4.6"
          (toolCallDelta
             {| dtc_index := 0; dtc_id := None;
                dtc_function :=
                  Some {| df_name := None; df_arguments := Some "{}" |} |})
          None;
        chunkOf "c1" 0 "zai-glm-4.6" emptyDelta (Some "tool_calls")]
       (createStreamState "abc" "claude")))
     = [ContentBlockStart 0 (ToolUseBlock "call_1" "f" emptyObject);
        ContentBlockDelta 0 (InputJsonDelta "{}");
        ContentBlockStop 0;
        MessageDelta tool_use None 0;
        MessageStop].
Proof.
  split; [discriminate|].
  split; [reflexivity|].
  rewrite (@tool_call_stream_events emptyObjectParser "abc" "claude" "c1" 0
             "zai-glm-4.6" "call_1");
    [reflexivity | discriminate | reflexivity].
Defined.

(** *** Cases of the test suite and around it *)

(** "should handle finish reason in stream": a state with an open text
    block holding "Hello" receives the finish chunk. *)
Example finish_reason_in_stream (JSON_parse : string -> option Value) :
  fst (translateStreamChunk JSON_parse
         (chunkOf "chatcmpl-123" 1677652288 "zai-glm-4.6" emptyDelta (Some "stop"))
         (setCurrentBlockIndex 0
            (setTextBuffer "Hello"
               (setTextBlockStarted true
                  (createStreamState "abc" "claude-3-sonnet-20240229")))))
  = Ok [ContentBlockStop 0; MessageDelta end_turn None 0; MessageStop].
Proof. reflexivity. Qed.

(** "should translate tool call chunks": the start comes with the first
    chunk, the arguments fragment with the second. *)
Example tool_call_chunks (JSON_parse : string -> option Value) :
  let first :=
    translateStreamChunk JSON_parse
      (chunkOf "chatcmpl-123" 1677652288 "zai-glm-4.6"
         (toolCallDelta
            {| dtc_index := 0; dtc_id := Some "call_123";
               dtc_function :=
                 Some {| df_name := Some "get_weather"; df_arguments := Some "" |} |})
         None)
      (createStreamState "abc" "claude-3-sonnet-20240229") in
  let second :=
    translateStreamChunk JSON_parse
      (chunkOf "chatcmpl-123" 1677652288 "zai-glm-4.6"
         (toolCallDelta
            {| dtc_index := 0; dtc_id := None;
               dtc_function :=
                 Some {| df_name := None; df_arguments := Some "{location:" |} |})
         None)
      (snd first) in
  fst first = Ok [ContentBlockStart 0 (ToolUseBlock "call_123" "get_weather" emptyObject)]
  /\ fst second = Ok [ContentBlockDelta 0 (InputJsonDelta "{location:")].
Proof. split; reflexivity. Qed.

(** Text, then two tool calls in one chunk, the first of them named only
    in a later chunk: the units receive 0, 1, 2 when they come into
    being, while the events of a tool unit carry the running index of the
    moment they are emitted. *)
Example late_name_running_index :
  let chunks :=
    [chunkOf "c1" 0 "zai-glm-4.6" (textDelta "Let me check.") None;
     chunkOf "c1" 0 "zai-glm-4.6"
       {| delta_content := None;
          delta_tool_calls :=
            Some [{| dtc_index := 0; dtc_id := Some "call_a"; dtc_function := None |};
                  {| dtc_index := 1; dtc_id := Some "call_b";
                     dtc_function :=
                       Some {| df_name := Some "g"; df_arguments := None |} |}] |}
       None;
     chunkOf "c1" 0 "zai-glm-4.6"
       (toolCallDelta
          {| dtc_index := 0; dtc_id := None;
             dtc_function :=
               Some {| df_name := Some "f"; df_arguments := Some "{}" |} |})
       None] in
  let fresh := createStreamState "abc" "claude" in
  assignedIndices fresh (feedTrace emptyObjectParser chunks fresh) = [0; 1; 2]
  /\ fst (fst (feedChunks emptyObjectParser chunks fresh))
     = [ContentBlockStart 0 (TextBlock "");
        ContentBlockDelta 0 (TextDelta "Let me check.");
        ContentBlockStop 0;
        ContentBlockStart 2 (ToolUseBlock "call_b" "g" emptyObject);
        ContentBlockStart 2 (ToolUseBlock "call_a" "f" emptyObject);
        ContentBlockDelta 2 (InputJsonDelta "{}")].
Proof. split; reflexivity. Qed.

(* ================================================================== *)
(** ** Facts about insertion-ordered maps *)

Section AssocFacts.
Context {K V : Type} (eqb : K -> K -> bool).
Hypothesis eqb_spec : forall a b, reflect (a = b) (eqb a b).

Lemma assoc_get_set_same (k : K) (v : V) es :
  assoc_get eqb k (assoc_set eqb k v es) = Some v.
Proof.
  induction es as [|[k' v'] es IH]; simpl.
  - destruct (eqb_spec k k); congruence.
  - destruct (eqb_spec k' k) as [E|E]; simpl.
    + destruct (eqb_spec k' k); congruence.
    + destruct (eqb_spec k' k); congruence.
Qed.

Lemma assoc_get_set_other (k k0 : K) (v : V) es :
  k <> k0 -> assoc_get eqb k0 (assoc_set eqb k v es) = assoc_get eqb k0 es.
Proof.
  intros Hne. induction es as [|[k' v'] es IH]; simpl.
  - destruct (eqb_spec k k0); congruence.
  - destruct (eqb_spec k' k) as [E|E]; simpl.
    + subst k'. destruct (eqb_spec k k0); congruence.
    + destruct (eqb_spec k' k0); congruence.
Qed.

Lemma assoc_set_present (k : K) (v w : V) es :
  assoc_get eqb k es = Some w ->
  List.length (assoc_set eqb k v es) = List.length es.
Proof.
  induction es as [|[k' v'] es IH]; simpl; [discriminate|].
  destruct (eqb_spec k' k); simpl; [reflexivity|].
  intros H. rewrite IH; auto.
Qed.

Lemma assoc_set_absent (k : K) (v : V) es :
  assoc_get eqb k es = None -> assoc_set eqb k v es = es ++ [(k, v)].
Proof.
  induction es as [|[k' v'] es IH]; simpl; [reflexivity|].
  destruct (eqb_spec k' k); [discriminate|].
  intros H. rewrite IH; auto.
Qed.

Lemma assoc_set_unchanged (k : K) (v : V) es :
  assoc_get eqb k es = Some v -> assoc_set eqb k v es = es.
Proof.
  induction es as [|[k' v'] es IH]; simpl; [discriminate|].
  destruct (eqb_spec k' k).
  - intros [= ->]. reflexivity.
  - intros H. rewrite IH; auto.
Qed.

Lemma assoc_get_absent_iff (k : K) (es : list (K * V)) :
  assoc_get eqb k es = None <-> ~ In k (map fst es).
Proof.
  induction es as [|[k' v'] es IH]; simpl.
  - tauto.
  - destruct (eqb_spec k' k) as [E|E].
    + split; [discriminate | intros H; exfalso; apply H; auto].
    + rewrite IH. tauto.
Qed.

Lemma assoc_set_keys (k : K) (v : V) es :
  map fst (assoc_set eqb k v es)
  = if assoc_has eqb k es then map fst es else map fst es ++ [k].
Proof.
  unfold assoc_has. induction es as [|[k' v'] es IH]; simpl; [reflexivity|].
  destruct (eqb_spec k' k); simpl; [reflexivity|].
  rewrite IH. destruct (assoc_get eqb k es); reflexivity.
Qed.

Lemma assoc_set_NoDup (k : K) (v : V) es :
  NoDup (map fst es) -> NoDup (map fst (assoc_set eqb k v es)).
Proof.
  intros Hnd. rewrite assoc_set_keys. unfold assoc_has.
  destruct (assoc_get eqb k es) eqn:E; [assumption|].
  apply assoc_get_absent_iff in E.
  apply NoDup_app; [assumption | repeat constructor; simpl; tauto |].
  intros x Hx [<-|[]]. contradiction.
Qed.

Lemma assoc_set_In (k k0 : K) (v w : V) es :
  In (k0, w) (assoc_set eqb k v es) -> (k0 = k /\ w = v) \/ In (k0, w) es.
Proof.
  induction es as [|[k' v'] es IH]; simpl.
  - intros [[= <- <-]|[]]. auto.
  - destruct (eqb_spec k' k); simpl.
    + intros [[= <- <-]|H]; auto.
    + intros [H|H]; auto. destruct (IH H); auto.
Qed.

Lemma assoc_get_In (k : K) (v : V) es :
  assoc_get eqb k es = Some v -> exists k0, k0 = k /\ In (k0, v) es.
Proof.
  induction es as [|[k' v'] es IH]; simpl; [discriminate|].
  destruct (eqb_spec k' k).
  - intros [= ->]. eauto.
  - intros H. destruct (IH H) as (k0 & ? & ?). eauto.
Qed.

End AssocFacts.

(* ================================================================== *)
(** ** What each part of [translateStreamChunk] changes *)

Lemma onlyContentBlocks_refl s : onlyContentBlocks s s.
Proof. repeat split. Qed.

Lemma onlyContentBlocks_trans s1 s2 s3 :
  onlyContentBlocks s1 s2 -> onlyContentBlocks s2 s3 -> onlyContentBlocks s1 s3.
Proof.
  unfold onlyContentBlocks. intros H1 H2.
  repeat match goal with H : _ /\ _ |- _ => destruct H end.
  repeat split; congruence.
Qed.

Lemma pushContentBlock_frame block s : onlyContentBlocks s (pushContentBlock block s).
Proof. repeat split. Qed.

Lemma handleText_effect content s :
  let '(events, s') := handleText content s in
  tokenCounters s' = tokenCounters s
  /\ toolCallStates s' = toolCallStates s
  /\ textBlockStarted s' = true
  /\ currentBlockIndex s'
     = (if textBlockStarted s then currentBlockIndex s else currentBlockIndex s + 1)
  /\ Forall (fun e => isMessageDelta e = false) events.
Proof.
  unfold handleText. destruct (textBlockStarted s) eqn:E; simpl;
    repeat split; auto.
Qed.

Lemma closeTextBlock_effect s :
  let '(events, s') := closeTextBlock s in
  tokenCounters s' = tokenCounters s
  /\ toolCallStates s' = toolCallStates s
  /\ currentBlockIndex s' = currentBlockIndex s
  /\ (textBlockStarted s' = false \/ textBlockStarted s' = textBlockStarted s)
  /\ Forall (fun e => isMessageDelta e = false) events.
Proof.
  unfold closeTextBlock.
  destruct (textBlockStarted s && nonEmpty (textBuffer s)); simpl;
    repeat split; auto.
Qed.

Lemma handleToolCall_effect toolCall s :
  let '(events, s') := handleToolCall toolCall s in
  tokenCounters s' = tokenCounters s
  /\ textBlockStarted s' = textBlockStarted s
  /\ ((List.length (toolCallStates s') = List.length (toolCallStates s)
       /\ currentBlockIndex s' = currentBlockIndex s)
      \/ (List.length (toolCallStates s') = S (List.length (toolCallStates s))
          /\ currentBlockIndex s' = currentBlockIndex s + 1))
  /\ Forall (fun e => isMessageDelta e = false) events.
Proof.
  unfold handleToolCall, updateToolState.
  destruct (assoc_get Z.eqb (dtc_index toolCall) (toolCallStates s)) as [ts|] eqn:G.
  - repeat (break_inner; simpl).
    all: repeat split; auto.
    all: left; split; auto; eapply assoc_set_present; eauto using Z.eqb_spec.
  - destruct (dtc_id toolCall) as [id|]; [destruct (nonEmpty id)|];
      try (simpl; repeat split; auto; fail).
    repeat (break_inner; simpl).
    all: repeat split; auto.
    all: right; split; auto.
    all: erewrite assoc_set_present;
       [ rewrite (assoc_set_absent Z.eqb Z.eqb_spec _ _ _ G), length_app; simpl; lia
       | exact Z.eqb_spec
       | apply (assoc_get_set_same Z.eqb Z.eqb_spec) ].
Qed.

Lemma handleToolCalls_effect toolCalls : forall s,
  let '(events, s') := handleToolCalls toolCalls s in
  tokenCounters s' = tokenCounters s
  /\ textBlockStarted s' = textBlockStarted s
  /\ Forall (fun e => isMessageDelta e = false) events.
Proof.
  induction toolCalls as [|toolCall rest IH]; intros s; simpl.
  - repeat split; auto.
  - pose proof (handleToolCall_effect toolCall s) as H1.
    destruct (handleToolCall toolCall s) as [events s1].
    specialize (IH s1). destruct (handleToolCalls rest s1) as [events' s2].
    destruct H1 as (? & ? & _ & ?), IH as (? & ? & ?).
    repeat split; try congruence. apply Forall_app; auto.
Qed.

Lemma textPart_effect delta s :
  let '(events, s') := textPart delta s in
  tokenCounters s' = tokenCounters s
  /\ Forall (fun e => isMessageDelta e = false) events.
Proof.
  unfold textPart.
  destruct (delta_content delta) as [content|]; [destruct (nonEmpty content)|];
    try (split; auto; fail).
  pose proof (handleText_effect content s) as H.
  destruct (handleText content s). tauto.
Qed.

Lemma toolCallsPart_effect delta s :
  let '(events, s') := toolCallsPart delta s in
  tokenCounters s' = tokenCounters s
  /\ Forall (fun e => isMessageDelta e = false) events.
Proof.
  unfold toolCallsPart.
  destruct (delta_tool_calls delta) as [toolCalls|]; [|split; auto].
  pose proof (closeTextBlock_effect s) as H1.
  destruct (closeTextBlock s) as [closeEvents s1].
  pose proof (handleToolCalls_effect toolCalls s1) as H2.
  destruct (handleToolCalls toolCalls s1) as [callEvents s2].
  destruct H1 as (? & _ & _ & _ & ?), H2 as (? & _ & ?).
  split; [congruence | apply Forall_app; auto].
Qed.

(** The closing of tool blocks touches only the finalized blocks, emits
    only stop events, and throws only when the parser does. *)
Lemma closeToolBlocks_effect JSON_parse entries : forall s,
  let '(result, s') := closeToolBlocks JSON_parse entries s in
  onlyContentBlocks s s'
  /\ match result with
     | Ok events => Forall (fun e => isMessageDelta e = false) events
     | Throw e => e = SyntaxError /\ exists text, JSON_parse text = None
     end.
Proof.
  induction entries as [|[index toolState] rest IH]; intros s; simpl.
  - split; [apply onlyContentBlocks_refl | constructor].
  - destruct (startEventSent toolState); [|apply IH].
    destruct (if nonEmpty (argumentsBuffer toolState)
              then JSON_parse (argumentsBuffer toolState)
              else Some emptyObject) as [input|] eqn:E.
    + match goal with |- context [closeToolBlocks _ rest ?s1] =>
        specialize (IH s1); destruct (closeToolBlocks JSON_parse rest s1) as [[events|e] s2]
      end.
      * destruct IH as [F A]. split; [|constructor; auto].
        eapply onlyContentBlocks_trans; [apply pushContentBlock_frame | exact F].
      * destruct IH as [F A]. split; [|exact A].
        eapply onlyContentBlocks_trans; [apply pushContentBlock_frame | exact F].
    + split; [apply onlyContentBlocks_refl|]. split; [reflexivity|].
      destruct (nonEmpty (argumentsBuffer toolState)); [eauto | discriminate].
Qed.

(** The finish part: what it emits ends with the message delta carrying
    the mapped stop reason and the output-token counter, then the message
    stop. *)
Lemma handleFinish_effect JSON_parse finish_reason s :
  let '(result, s') := handleFinish JSON_parse finish_reason s in
  onlyContentBlocks s s'
  /\ match result with
     | Ok events =>
         exists closing,
           Forall (fun e => isMessageDelta e = false) closing
           /\ events
              = closing
                ++ [MessageDelta (streamStopReason finish_reason s') None
                      (outputTokens s');
                    MessageStop]
     | Throw e => e = SyntaxError /\ exists text, JSON_parse text = None
     end.
Proof.
  unfold handleFinish.
  set (s1 := if textBlockStarted s
             then pushContentBlock (TextBlock (textBuffer s)) s else s).
  assert (F1 : onlyContentBlocks s s1).
  { unfold s1. destruct (textBlockStarted s);
      [apply pushContentBlock_frame | apply onlyContentBlocks_refl]. }
  assert (E : (if textBlockStarted s
               then ([ContentBlockStop (currentBlockIndex s)],
                     pushContentBlock (TextBlock (textBuffer s)) s)
               else ([], s))
              = ((if textBlockStarted s
                  then [ContentBlockStop (currentBlockIndex s)] else []), s1)).
  { unfold s1. destruct (textBlockStarted s); reflexivity. }
  rewrite E. clear E.
  pose proof (closeToolBlocks_effect JSON_parse (toolCallStates s1) s1) as H.
  destruct (closeToolBlocks JSON_parse (toolCallStates s1) s1) as [[toolEvents|e] s2].
  - destruct H as [F2 A]. split; [eapply onlyContentBlocks_trans; eauto|].
    exists ((if textBlockStarted s
             then [ContentBlockStop (currentBlockIndex s)] else []) ++ toolEvents).
    split.
    + apply Forall_app. split; [destruct (textBlockStarted s); repeat constructor | exact A].
    + rewrite <- List.app_assoc. do 2 f_equal. unfold streamStopReason.
      destruct (toolCallStates s2); reflexivity.
  - destruct H as [F2 A]. split; [eapply onlyContentBlocks_trans; eauto | exact A].
Qed.

Lemma nonEmpty_true_iff s : nonEmpty s = true <-> s <> "".
Proof.
  unfold nonEmpty. destruct (String.eqb_spec s ""); simpl; split; congruence.
Qed.

Lemma tokenCounters_eq s s' :
  tokenCounters s' = tokenCounters s ->
  inputTokens s' = inputTokens s /\ outputTokens s' = outputTokens s.
Proof. unfold tokenCounters. intros [= -> ->]. auto. Qed.

Lemma onlyContentBlocks_counters s s' :
  onlyContentBlocks s s' -> tokenCounters s' = tokenCounters s.
Proof.
  unfold onlyContentBlocks, tokenCounters. intros H.
  repeat match goal with H : _ /\ _ |- _ => destruct H end. congruence.
Qed.

Lemma finishPart_effect JSON_parse choice s :
  let '(result, s') := finishPart JSON_parse choice s in
  onlyContentBlocks s s'
  /\ match result with
     | Ok events =>
         forall sr ss n, In (MessageDelta sr ss n) events -> n = outputTokens s
     | Throw e => e = SyntaxError /\ exists text, JSON_parse text = None
     end.
Proof.
  unfold finishPart.
  destruct (cc_finish_reason choice) as [reason|];
    [destruct (nonEmpty reason)|];
    try (split; [apply onlyContentBlocks_refl | intros ? ? ? []]).
  pose proof (handleFinish_effect JSON_parse reason s) as H.
  destruct (handleFinish JSON_parse reason s) as [[events|e] s'];
    destruct H as [F A]; split; auto.
  destruct A as (closing & Hc & ->). intros sr ss n Hin.
  apply in_app_or in Hin. destruct Hin as [Hin|[Hin|[Hin|[]]]].
  - rewrite Forall_forall in Hc. apply Hc in Hin. discriminate.
  - injection Hin as _ _ <-.
    apply onlyContentBlocks_counters, tokenCounters_eq in F. tauto.
  - discriminate.
Qed.

(** One chunk: the counters stay, and every message delta it emits
    carries the output-token counter of the state. *)
Lemma translateStreamChunk_effect JSON_parse chunk s :
  let '(result, s') := translateStreamChunk JSON_parse chunk s in
  tokenCounters s' = tokenCounters s
  /\ match result with
     | Ok events =>
         forall sr ss n, In (MessageDelta sr ss n) events -> n = outputTokens s
     | Throw e => e = SyntaxError /\ exists text, JSON_parse text = None
     end.
Proof.
  unfold translateStreamChunk.
  destruct (chunk_choices chunk) as [|choice rest].
  { split; [reflexivity | intros ? ? ? []]. }
  pose proof (textPart_effect (cc_delta choice) s) as H1.
  destruct (textPart (cc_delta choice) s) as [textEvents s1].
  pose proof (toolCallsPart_effect (cc_delta choice) s1) as H2.
  destruct (toolCallsPart (cc_delta choice) s1) as [toolEvents s2].
  pose proof (finishPart_effect JSON_parse choice s2) as H3.
  destruct (finishPart JSON_parse choice s2) as [[finishEvents|e] s3].
  - destruct H1 as [C1 N1], H2 as [C2 N2], H3 as [F3 A].
    apply onlyContentBlocks_counters in F3.
    split; [congruence|]. intros sr ss n Hin.
    rewrite Forall_forall in N1, N2.
    apply in_app_or in Hin. destruct Hin as [Hin|Hin]; [apply N1 in Hin; discriminate|].
    apply in_app_or in Hin. destruct Hin as [Hin|Hin]; [apply N2 in Hin; discriminate|].
    apply A in Hin. apply tokenCounters_eq in C1, C2. destruct C1, C2. congruence.
  - destruct H1 as [C1 N1], H2 as [C2 N2], H3 as [F3 A].
    apply onlyContentBlocks_counters in F3. split; [congruence | exact A].
Qed.

Lemma feedChunks_message_delta JSON_parse chunks : forall s sr ss n,
  In (MessageDelta sr ss n) (fst (fst (feedChunks JSON_parse chunks s))) ->
  n = outputTokens s.
Proof.
  induction chunks as [|chunk rest IH]; intros s sr ss n; simpl; [intros []|].
  pose proof (translateStreamChunk_effect JSON_parse chunk s) as H.
  destruct (translateStreamChunk JSON_parse chunk s) as [[events|e] s1];
    [|intros []].
  destruct H as [C A]. specialize (IH s1 sr ss n).
  destruct (feedChunks JSON_parse rest s1) as [[events' e'] s2]. simpl in *.
  intros Hin. apply in_app_or in Hin. destruct Hin as [Hin|Hin].
  - eapply A; eauto.
  - apply tokenCounters_eq in C. destruct C as [_ <-]. auto.
Qed.

(* ================================================================== *)
(** ** Token counters and stop reasons *)

(** Claim C9.  The counters of a fresh state are zero; no chunk changes
    them, whatever the state; and so every message delta emitted while a
    chunk sequence is fed to a fresh state reports zero output tokens. *)
Theorem output_tokens_always_zero :
  (forall generatedId originalModel,
      inputTokens (createStreamState generatedId originalModel) = 0
      /\ outputTokens (createStreamState generatedId originalModel) = 0)
  /\ (forall JSON_parse chunk state,
         inputTokens (snd (translateStreamChunk JSON_parse chunk state))
         = inputTokens state
         /\ outputTokens (snd (translateStreamChunk JSON_parse chunk state))
            = outputTokens state)
  /\ (forall JSON_parse chunks generatedId originalModel sr ss n,
         In (MessageDelta sr ss n)
            (fst (fst (feedChunks JSON_parse chunks
                         (createStreamState generatedId originalModel)))) ->
         n = 0).
Proof.
  split; [intros; split; reflexivity|]. split.
  - intros JSON_parse chunk state.
    pose proof (translateStreamChunk_effect JSON_parse chunk state) as H.
    destruct (translateStreamChunk JSON_parse chunk state) as [result s'].
    destruct H as [C _]. apply tokenCounters_eq in C. exact C.
  - intros JSON_parse chunks generatedId originalModel sr ss n Hin.
    apply feedChunks_message_delta in Hin. exact Hin.
Qed.

Lemma output_tokens_always_zero_witness :
  In (MessageDelta end_turn None 0)
     (fst (fst (feedChunks emptyObjectParser
                  [chunkOf "c1" 0 "zai-glm-4.6" (textDelta "Hi") None;
                   chunkOf "c1" 0 "zai-glm-4.6" emptyDelta (Some "stop")]
                  (createStreamState "abc" "claude"))))
  /\ (0 = 0)%Z.
Proof.
  assert (H : In (MessageDelta end_turn None 0)
     (fst (fst (feedChunks emptyObjectParser
                  [chunkOf "c1" 0 "zai-glm-4.6" (textDelta "Hi") None;
                   chunkOf "c1" 0 "zai-glm-4.6" emptyDelta (Some "stop")]
                  (createStreamState "abc" "claude"))))).
  { simpl. tauto. }
  split; [exact H|].
  exact (proj2 (proj2 output_tokens_always_zero) _ _ _ _ _ _ _ H).
Defined.

(** Claim C4.  The stop-reason mapping: with at least one tool call the
    result is tool_use whatever the finish reason; without tool calls
    (absent or empty list) stop gives end_turn, length gives max_tokens,
    tool_calls gives tool_use, content_filter gives end_turn, and every
    other reason, absent included, gives none.  The finish part of the
    streaming translator ends its events with a message delta whose stop
    reason is this mapping applied to the chunk's finish reason (with a
    tool call present exactly when one was registered) and end_turn in
    place of none, followed by the message stop; it throws only when
    [JSON.parse] does. *)
Theorem stop_reason_mapping :
  (forall finishReason toolCall toolCalls,
      translateStopReason finishReason (Some (toolCall :: toolCalls)) = Some tool_use)
  /\ (forall toolCalls,
         toolCalls = None \/ toolCalls = Some [] ->
         translateStopReason (Some "stop") toolCalls = Some end_turn
         /\ translateStopReason (Some "length") toolCalls = Some max_tokens
         /\ translateStopReason (Some "tool_calls") toolCalls = Some tool_use
         /\ translateStopReason (Some "content_filter") toolCalls = Some end_turn
         /\ (forall finishReason,
                finishReason <> Some "stop" -> finishReason <> Some "length" ->
                finishReason <> Some "tool_calls" ->
                finishReason <> Some "content_filter" ->
                translateStopReason finishReason toolCalls = None))
  /\ (forall JSON_parse chunk choice rest finish_reason state,
         chunk_choices chunk = choice :: rest ->
         cc_finish_reason choice = Some finish_reason ->
         finish_reason <> "" ->
         match translateStreamChunk JSON_parse chunk state with
         | (Ok events, state') =>
             exists before,
               Forall (fun e => isMessageDelta e = false) before
               /\ events
                  = before
                    ++ [MessageDelta
                          (match
                             translateStopReason (Some finish_reason)
                               (match toolCallStates state' with
                                | [] => None
                                | _ :: _ => Some placeholderToolCalls
                                end)
                           with
                           | Some r => r
                           | None => end_turn
                           end)
                          None (outputTokens state');
                        MessageStop]
               /\ (toolCallStates state' <> [] ->
                   In (MessageDelta tool_use None (outputTokens state')) events)
         | (Throw e, _) => e = SyntaxError /\ exists text, JSON_parse text = None
         end).
Proof.
  split; [reflexivity|]. split.
  - intros toolCalls [->| ->]; repeat split; try reflexivity;
      intros [r|] H1 H2 H3 H4; try reflexivity; simpl;
      repeat match goal with
             | |- context [String.eqb r ?l] =>
                 destruct (String.eqb_spec r l); [congruence|]
             end; reflexivity.
  - intros JSON_parse chunk choice rest finish_reason state Hc Hf Hne.
    unfold translateStreamChunk. rewrite Hc.
    pose proof (textPart_effect (cc_delta choice) state) as H1.
    destruct (textPart (cc_delta choice) state) as [textEvents s1].
    pose proof (toolCallsPart_effect (cc_delta choice) s1) as H2.
    destruct (toolCallsPart (cc_delta choice) s1) as [toolEvents s2].
    unfold finishPart. rewrite Hf.
    apply nonEmpty_true_iff in Hne. rewrite Hne.
    pose proof (handleFinish_effect JSON_parse finish_reason s2) as H3.
    destruct (handleFinish JSON_parse finish_reason s2) as [[events|e] s3];
      destruct H3 as [F A]; [|exact A].
    destruct A as (closing & Hcl & ->).
    exists (textEvents ++ toolEvents ++ closing). split; [|split].
    + destruct H1 as [_ N1], H2 as [_ N2]. repeat (apply Forall_app; split); auto.
    + rewrite !List.app_assoc. reflexivity.
    + intros Hreg. apply in_or_app. right. apply in_or_app. right.
      apply in_or_app. right. left. unfold streamStopReason.
      destruct (toolCallStates s3); [congruence | reflexivity].
Qed.

Lemma stop_reason_mapping_witness :
  translateStopReason (Some "eos") (Some []) = None
  /\ translateStopReason None None = None
  /\ match
       translateStreamChunk emptyObjectParser
         (chunkOf "c1" 0 "zai-glm-4.6" emptyDelta (Some "length"))
         (createStreamState "abc" "claude")
     with
     | (Ok events, _) => In (MessageDelta max_tokens None 0) events
     | (Throw _, _) => False
     end.
Proof.
  destruct stop_reason_mapping as (_ & Htable & Hstream).
  split; [|split].
  - destruct (Htable (Some []) (or_intror eq_refl)) as (_ & _ & _ & _ & H).
    apply H; discriminate.
  - destruct (Htable None (or_introl eq_refl)) as (_ & _ & _ & _ & H).
    apply H; discriminate.
  - pose proof (Hstream emptyObjectParser
                  (chunkOf "c1" 0 "zai-glm-4.6" emptyDelta (Some "length"))
                  _ _ "length" (createStreamState "abc" "claude")
                  eq_refl eq_refl) as H.
    simpl in H. destruct H as (before & _ & E & _); [discriminate|].
    change (In (MessageDelta max_tokens None 0)
              [MessageDelta max_tokens None 0; MessageStop]).
    rewrite E. apply in_or_app. right. left. reflexivity.
Defined.

(* ================================================================== *)
(** ** Non-streaming translation *)

Section NonStreaming.
Variable JSON_parse : string -> option Value.

(** Claim C5.  When the first choice of the reply has no non-empty text
    (absent or the empty string) and no tool call (absent or an empty
    list), [translateResponse] returns a reply whose content is exactly
    one text block with empty text. *)
Theorem no_content_gives_one_empty_text
    (cerebrasResponse : ChatCompletionsResponse) (originalModel : string)
    (choice : Choice) (rest : list Choice) :
  choices cerebrasResponse = choice :: rest ->
  truthyStr (msg_content (message choice)) = false ->
  msg_tool_calls (message choice) = None
  \/ msg_tool_calls (message choice) = Some [] ->
  exists reply,
    translateResponse JSON_parse cerebrasResponse originalModel = Ok reply
    /\ resp_content reply = [TextBlock ""].
Proof.
  intros Hc Htext Htools. unfold translateResponse. rewrite Hc.
  assert (E : match msg_content (message choice) with
              | Some text => if nonEmpty text then [TextBlock text] else []
              | None => []
              end = []).
  { unfold truthyStr in Htext. destruct (msg_content (message choice)); [|reflexivity].
    rewrite Htext. reflexivity. }
  rewrite E. destruct Htools as [-> | ->]; simpl; eexists; split; reflexivity.
Qed.

(** Claim C6.  A reply whose [choices] list is empty makes
    [translateResponse] throw the error "No choices in Cerebras
    response": no reply comes back.  The function changes nothing: it
    only reads its arguments. *)
Theorem empty_choices_is_an_error
    (id : string) (created : Z) (model : string) (usage : Cerebras.Usage)
    (originalModel : string) :
  let cerebrasResponse :=
    {| response_id := id; response_created := created; response_model := model;
       choices := []; usage := usage |} in
  translateResponse JSON_parse cerebrasResponse originalModel
  = Throw (Error "No choices in Cerebras response")
  /\ forall reply,
       translateResponse JSON_parse cerebrasResponse originalModel <> Ok reply.
Proof. simpl. split; [reflexivity | discriminate]. Qed.

End NonStreaming.

Lemma no_content_gives_one_empty_text_witness :
  let choice :=
    {| choice_index := 0;
       message := {| msg_content := Some ""; msg_reasoning := None;
                     msg_tool_calls := Some [] |};
       finish_reason := Some "stop" |} in
  let cerebrasResponse :=
    {| response_id := "chatcmpl-123"; response_created := 1677652288;
       response_model := "zai-glm-4.6"; choices := [choice];
       usage := {| prompt_tokens := 10; completion_tokens := 0; total_tokens := 10 |} |} in
  choices cerebrasResponse = [choice]
  /\ truthyStr (msg_content (message choice)) = false
  /\ exists reply,
       translateResponse emptyObjectParser cerebrasResponse "claude-3-sonnet-20240229"
       = Ok reply
       /\ resp_content reply = [TextBlock ""].
Proof.
  intros choice cerebrasResponse.
  split; [reflexivity|]. split; [reflexivity|].
  apply (@no_content_gives_one_empty_text emptyObjectParser cerebrasResponse
           "claude-3-sonnet-20240229" choice []);
    [reflexivity | reflexivity | right; reflexivity].
Defined.

(* ================================================================== *)
(** ** Tool results in the request mapper *)

Lemma texts_of_text_blocks blocks :
  map blockText (filter isText blocks) = textsOf blocks.
Proof.
  induction blocks as [|block rest IH]; simpl; [reflexivity|].
  destruct block; simpl; congruence.
Qed.

Lemma toolResultMessage_spec blocks :
  Forall2 toolMessageFor (filter isToolResult blocks)
    (flat_map toolResultMessage (filter isToolResult blocks)).
Proof.
  induction blocks as [|block rest IH]; simpl; [constructor|].
  destruct block as [ | | |tool_use_id content is_error]; simpl; auto.
  constructor; [|exact IH].
  exists tool_use_id, content, is_error. split; [reflexivity|].
  unfold toolResultText. destruct content; simpl.
  - reflexivity.
  - rewrite texts_of_text_blocks. reflexivity.
Qed.

(** Two cases of the test suite ("should translate tool result with
    error flag", and a result given as blocks next to a text block). *)
Example tool_result_with_error_flag (JSON_stringify : Value -> string) :
  translateMessage JSON_stringify
    {| role := user;
       content :=
         inr [ToolResultBlock "toolu_123" (inl "API rate limit exceeded") (Some true)] |}
  = [ToolMessage "Error: API rate limit exceeded" "toolu_123"].
Proof. reflexivity. Qed.

Example tool_result_blocks_and_text (JSON_stringify : Value -> string) :
  translateMessage JSON_stringify
    {| role := user;
       content :=
         inr [TextBlock "and then?";
              ToolResultBlock "toolu_1"
                (inr [TextBlock "line 1";
                      ImageBlock {| src_type := url; src_media_type := None;
                                    src_data := None; src_url := Some "u" |};
                      TextBlock "line 2"])
                None] |}
  = [ToolMessage ("line 1" ++ newline ++ "line 2") "toolu_1";
     UserMessage (inl "and then?")].
Proof. reflexivity. Qed.

(** Claim C8.  For a user message with block content, the messages the
    mapper returns start with one tool-role message per [tool_result]
    block, in order; each has the block's [tool_use_id] as its
    [tool_call_id]; its content is the block's string content, or the
    newline-join of the texts of its text blocks, with "Error: " put in
    front exactly when [is_error] is true.  No other message of the
    result has the tool role. *)
Theorem tool_results_become_tool_messages
    (JSON_stringify : Value -> string) (blocks : list ContentBlock) :
  exists toolMessages others,
    translateMessage JSON_stringify {| role := user; content := inr blocks |}
    = toolMessages ++ others
    /\ Forall2 toolMessageFor (filter isToolResult blocks) toolMessages
    /\ Forall (fun m => isToolMessage m = false) others.
Proof.
  exists (flat_map toolResultMessage (filter isToolResult blocks)).
  unfold translateMessage. simpl.
  destruct (filter (fun block => negb (isToolResult block)) blocks) as [|b bs].
  - exists []. rewrite List.app_nil_r. repeat split; auto using toolResultMessage_spec.
  - destruct (flat_map userPart (b :: bs)) as [|[text|u] [|part parts]];
      eexists; (split; [|split; [apply toolResultMessage_spec|]]);
      try reflexivity; try (repeat constructor; fail).
    rewrite List.app_nil_r. reflexivity.
Qed.

(* ================================================================== *)
(** ** Assignment of content-unit indices *)















(* ================================================================== *)
(** ** The schema sanitizer *)

(** *** Unfolding [cleanSchema] *)

Lemma forOwn_ext {A} (f g : A -> string -> Value -> A) es :
  (forall acc k v, f acc k v = g acc k v) ->
  forall acc, forOwn f es acc = forOwn g es acc.
Proof.
  intros H. induction es as [|[k v] es IH]; intros acc; simpl; [reflexivity|].
  rewrite H. apply IH.
Qed.

Lemma forIndexed_forOwn {A} (f : A -> string -> Value -> A) l :
  forall i acc, forIndexed f i l acc = forOwn f (indexed i l) acc.
Proof.
  induction l as [|v l IH]; intros i acc; simpl; [reflexivity|]. apply IH.
Qed.

Lemma forEntries_forOwn {A} (f : A -> string -> Value -> A) o acc :
  forEntries f o acc = forOwn f (entries o) acc.
Proof.
  destruct o; try reflexivity. simpl. apply forIndexed_forOwn.
Qed.

Lemma forEntries_ext {A} (f g : A -> string -> Value -> A) o acc :
  (forall acc k v, f acc k v = g acc k v) ->
  forEntries f o acc = forEntries g o acc.
Proof.
  intros H. rewrite !forEntries_forOwn. apply forOwn_ext. exact H.
Qed.

(** [cleanSchema] is the loop over the entries followed by the closing
    of object types. *)
Lemma cleanSchema_unfold schema :
  cleanSchema schema
  = closeObjectType (forEntries cleanEntry schema emptyObject).
Proof.
  destruct schema; try reflexivity; cbn [cleanSchema];
    match goal with
    | |- context [forEntries ?F ?o emptyObject] =>
        assert (E : forall acc k v, F acc k v = cleanEntry acc k v);
        [ intros acc k v; unfold cleanEntry, cleanValue, cleanProperties, cleanItem;
          repeat break_inner; reflexivity
        | rewrite (forEntries_ext F cleanEntry o emptyObject E); reflexivity ]
    end.
Qed.

(** *** Objects whose keys are ordinary

    As long as no key is [__proto__], assignment only ever updates the
    list of own properties and the prototype stays what it was. *)

Lemma set_ordinary proto own k v :
  k <> "__proto__" ->
  set (VObject proto own) k v = VObject proto (assoc_set String.eqb k v own).
Proof.
  intros H. unfold set.
  destruct (assoc_has String.eqb k own); [reflexivity|].
  destruct (String.eqb_spec k "__proto__"); [contradiction | reflexivity].
Qed.

Lemma get_own own k : get (VObject None own) k = lookup k own.
Proof. reflexivity. Qed.

Lemma closeObjectType_own own :
  closeObjectType (VObject None own) = VObject None (closeOwn own).
Proof.
  unfold closeObjectType, closeOwn. rewrite get_own.
  destruct (isString "object" (lookup "type" own)); [|reflexivity].
  rewrite set_ordinary by discriminate. rewrite !get_own.
  match goal with |- context [if ?c then _ else _] => destruct c end;
    [rewrite set_ordinary by discriminate|]; reflexivity.
Qed.

Lemma cleanEntry_ordinary proto own k v :
  k <> "__proto__" ->
  cleanEntry (VObject proto own) k v = VObject proto (keepEntry own (k, v)).
Proof.
  intros Hk. unfold cleanEntry, keepEntry, copyEntry. cbn [fst snd].
  destruct (includes UNSUPPORTED_SCHEMA_FIELDS k); [reflexivity|].
  apply set_ordinary. exact Hk.
Qed.

Lemma forOwn_cleanEntry es : forall proto own,
  ordinaryKeys es ->
  forOwn cleanEntry es (VObject proto own)
  = VObject proto (fold_left keepEntry es own).
Proof.
  induction es as [|[k v] es IH]; intros proto own H; [reflexivity|].
  inversion H as [|? ? Hk Hes]; subst. cbn [fst] in Hk.
  cbn [forOwn fold_left]. rewrite cleanEntry_ordinary by exact Hk.
  apply IH. exact Hes.
Qed.

Lemma forOwn_properties es : forall proto own,
  ordinaryKeys es ->
  forOwn (fun newProps propKey propValue =>
            if isObject propValue
            then set newProps propKey (cleanSchema propValue)
            else set newProps propKey propValue)
    es (VObject proto own)
  = VObject proto (fold_left keepProperty es own).
Proof.
  induction es as [|[k v] es IH]; intros proto own H; [reflexivity|].
  inversion H as [|? ? Hk Hes]; subst. cbn [fst] in Hk.
  cbn [forOwn fold_left].
  replace (if isObject v
           then set (VObject proto own) k (cleanSchema v)
           else set (VObject proto own) k v)
    with (VObject proto (keepProperty own (k, v))).
  - apply IH. exact Hes.
  - unfold keepProperty, copyEntry, cleanItem. cbn [fst snd].
    destruct (isObject v); rewrite set_ordinary by exact Hk; reflexivity.
Qed.

Lemma indexKey_digits i :
  NilEmpty.uint_of_string (indexKey i) = Some (Nat.to_uint i).
Proof. apply NilEmpty.usu. Qed.

Lemma indexKey_not_proto i : indexKey i <> "__proto__".
Proof.
  intros E. pose proof (indexKey_digits i) as H. rewrite E in H. discriminate.
Qed.

Lemma indexed_ordinaryKeys l : forall i, ordinaryKeys (indexed i l).
Proof.
  induction l as [|v l IH]; intros i; simpl; constructor.
  - apply indexKey_not_proto.
  - apply IH.
Qed.

Lemma indexed_In l : forall i k v, In (k, v) (indexed i l) -> In v l.
Proof.
  induction l as [|x l IH]; intros i k v; simpl; [tauto|].
  intros [[= _ <-]|H]; [auto | right; eapply IH; eauto].
Qed.

Lemma size_In_list (l : list Value) v :
  In v l -> (size v <= list_sum (map size l))%nat.
Proof.
  induction l as [|x l IH]; simpl; [tauto|].
  intros [<-|H]; [lia | apply IH in H; lia].
Qed.

Lemma size_In_own (own : list (string * Value)) k v :
  In (k, v) own -> (size v <= list_sum (map (fun kv => size (snd kv)) own))%nat.
Proof.
  induction own as [|[k' x] own IH]; simpl; [tauto|].
  intros [[= _ <-]|H]; [lia | apply IH in H; lia].
Qed.

(** The entries of a value without [__proto__] keys: ordinary keys,
    smaller values, themselves without [__proto__] keys. *)
Lemma entries_child o k v :
  noProtoKey o = true -> In (k, v) (entries o) ->
  k <> "__proto__" /\ noProtoKey v = true /\ (size v < size o)%nat.
Proof.
  destruct o as [ | | | | |l|proto own]; simpl; try tauto.
  - intros H Hin. split; [|split].
    + pose proof (indexed_ordinaryKeys l 0) as Hk. unfold ordinaryKeys in Hk.
      rewrite Forall_forall in Hk. apply (Hk _ Hin).
    + rewrite forallb_forall in H. apply H. eapply indexed_In; eauto.
    + apply indexed_In in Hin. apply size_In_list in Hin. lia.
  - intros H Hin. rewrite forallb_forall in H. specialize (H _ Hin).
    simpl in H. apply andb_true_iff in H. destruct H as [Hk Hv].
    split; [|split].
    + destruct (String.eqb_spec k "__proto__"); [discriminate | assumption].
    + exact Hv.
    + apply size_In_own in Hin. lia.
Qed.

Lemma entries_ordinaryKeys o : noProtoKey o = true -> ordinaryKeys (entries o).
Proof.
  intros H. apply Forall_forall. intros [k v] Hin.
  apply (entries_child o k v H Hin).
Qed.

Lemma cleanSchema_own schema :
  isObject schema = true -> ordinaryKeys (entries schema) ->
  cleanSchema schema
  = VObject None (closeOwn (fold_left keepEntry (entries schema) [])).
Proof.
  intros Ho Hk. rewrite cleanSchema_unfold, forEntries_forOwn.
  unfold emptyObject. rewrite forOwn_cleanEntry by exact Hk.
  apply closeObjectType_own.
Qed.

Lemma cleanProperties_own value :
  ordinaryKeys (entries value) ->
  cleanProperties value = VObject None (fold_left keepProperty (entries value) []).
Proof.
  intros Hk. unfold cleanProperties. rewrite forEntries_forOwn.
  unfold emptyObject. apply forOwn_properties. exact Hk.
Qed.

(** *** Lists built by copying entries *)

Section CopyEntry.
Variable drop : string -> bool.
Variable f : string -> Value -> Value.

Lemma copyEntry_built es : forall own,
  (NoDup (map fst own) -> NoDup (map fst (fold_left (copyEntry drop f) es own)))
  /\ (forall k w,
         In (k, w) (fold_left (copyEntry drop f) es own) ->
         In (k, w) own
         \/ (drop k = false /\ exists v, In (k, v) es /\ w = f k v)).
Proof.
  induction es as [|[k v] es IH]; intros own; cbn [fold_left]; [auto|].
  destruct (IH (copyEntry drop f own (k, v))) as [IH1 IH2]. split.
  - intros Hnd. apply IH1. unfold copyEntry. cbn [fst snd].
    destruct (drop k); [exact Hnd|].
    apply assoc_set_NoDup; [exact String.eqb_spec | exact Hnd].
  - intros k0 w Hin. apply IH2 in Hin. destruct Hin as [Hin|Hin].
    + unfold copyEntry in Hin. cbn [fst snd] in Hin.
      destruct (drop k) eqn:Hd; [auto|].
      apply (assoc_set_In String.eqb String.eqb_spec) in Hin.
      destruct Hin as [[-> ->]|Hin]; [|auto].
      right. split; [exact Hd|]. exists v. split; [left; reflexivity | reflexivity].
    + right. destruct Hin as (Hd & v0 & Hv0 & Hw).
      split; [exact Hd|]. exists v0. split; [right; exact Hv0 | exact Hw].
Qed.

Lemma copyEntry_fixed F : forall own,
  NoDup (map fst F) ->
  (forall k w, In (k, w) F -> drop k = false /\ f k w = w) ->
  (forall k, In k (map fst F) -> ~ In k (map fst own)) ->
  fold_left (copyEntry drop f) F own = own ++ F.
Proof.
  induction F as [|[k w] F IH]; intros own Hnd Hfix Hdis; cbn [fold_left].
  - rewrite List.app_nil_r. reflexivity.
  - destruct (Hfix k w (or_introl eq_refl)) as [Hd Hw].
    unfold copyEntry at 2. cbn [fst snd]. rewrite Hd, Hw.
    rewrite (assoc_set_absent String.eqb String.eqb_spec).
    + inversion Hnd as [|? ? Hk HF]; subst.
      rewrite IH; [rewrite <- List.app_assoc; reflexivity | exact HF | |].
      * intros k0 w0 Hin. apply Hfix. right. exact Hin.
      * intros k0 Hin. rewrite map_app, in_app_iff. simpl.
        intros [H|[<-|[]]]; [|contradiction].
        apply (Hdis k0); [right; exact Hin | exact H].
    + apply (assoc_get_absent_iff String.eqb String.eqb_spec).
      apply Hdis. left. reflexivity.
Qed.

End CopyEntry.

(** *** Closing an object type *)

Lemma lookup_set_same k v own :
  lookup k (assoc_set String.eqb k v own) = v.
Proof.
  unfold lookup. rewrite (assoc_get_set_same String.eqb String.eqb_spec).
  reflexivity.
Qed.

Lemma lookup_set_other k k0 v own :
  k <> k0 -> lookup k0 (assoc_set String.eqb k v own) = lookup k0 own.
Proof.
  intros H. unfold lookup.
  rewrite (assoc_get_set_other String.eqb String.eqb_spec) by exact H.
  reflexivity.
Qed.

Lemma closeOwn_NoDup own : NoDup (map fst own) -> NoDup (map fst (closeOwn own)).
Proof.
  intros H. unfold closeOwn.
  repeat break_inner; auto;
    repeat (apply assoc_set_NoDup; [exact String.eqb_spec|]); exact H.
Qed.

Lemma closeOwn_In own k w :
  In (k, w) (closeOwn own) ->
  In (k, w) own
  \/ (k = "additionalProperties" /\ w = VBool false)
  \/ (k = "properties" /\ w = emptyObject).
Proof.
  unfold closeOwn. repeat break_inner; auto; intros Hin;
    repeat match goal with
           | H : In _ (assoc_set _ _ _ _) |- _ =>
               apply (assoc_set_In String.eqb String.eqb_spec) in H;
               destruct H as [[-> ->]|H]
           end; auto.
Qed.

Lemma closeOwn_idempotent own : closeOwn (closeOwn own) = closeOwn own.
Proof.
  unfold closeOwn at 2 3.
  destruct (isString "object" (lookup "type" own)) eqn:Ht.
  - set (own1 := assoc_set String.eqb "additionalProperties" (VBool false) own).
    assert (Ht1 : isString "object" (lookup "type" own1) = true).
    { unfold own1. rewrite lookup_set_other by discriminate. exact Ht. }
    assert (Ha1 : assoc_set String.eqb "additionalProperties" (VBool false) own1 = own1).
    { apply (assoc_set_unchanged String.eqb String.eqb_spec). unfold own1.
      apply (assoc_get_set_same String.eqb String.eqb_spec). }
    destruct (negb (truthy (lookup "properties" own1))
              && negb (truthy (lookup "anyOf" own1))
              && negb (truthy (lookup "oneOf" own1))
              && negb (truthy (lookup "allOf" own1))) eqn:Hc.
    + set (own2 := assoc_set String.eqb "properties" emptyObject own1).
      unfold closeOwn.
      replace (lookup "type" own2) with (lookup "type" own1)
        by (unfold own2; rewrite lookup_set_other by discriminate; reflexivity).
      rewrite Ht1.
      assert (Ha2 : assoc_set String.eqb "additionalProperties" (VBool false) own2
                    = own2).
      { apply (assoc_set_unchanged String.eqb String.eqb_spec). unfold own2.
        rewrite (assoc_get_set_other String.eqb String.eqb_spec) by discriminate.
        unfold own1. apply (assoc_get_set_same String.eqb String.eqb_spec). }
      rewrite Ha2. unfold own2 at 1. rewrite lookup_set_same. reflexivity.
    + unfold closeOwn. rewrite Ht1, Ha1, Hc. reflexivity.
  - unfold closeOwn. rewrite Ht. reflexivity.
Qed.

(** *** Idempotence on schemas without [__proto__] keys *)

Lemma cleanSchema_shape schema :
  isObject schema = true -> ordinaryKeys (entries schema) ->
  isObject (cleanSchema schema) = true /\ isArray (cleanSchema schema) = false.
Proof.
  intros Ho Hk. rewrite cleanSchema_own by assumption. split; reflexivity.
Qed.

Section BelowSize.
Variable n : nat.
Hypothesis smaller_idempotent :
  forall v, (size v < n)%nat -> isObject v = true -> noProtoKey v = true ->
            cleanSchema (cleanSchema v) = cleanSchema v.

Lemma cleanItem_idempotent v :
  (size v < n)%nat -> noProtoKey v = true -> cleanItem (cleanItem v) = cleanItem v.
Proof.
  intros Hs Hp. unfold cleanItem at 2 3. destruct (isObject v) eqn:Ho.
  - unfold cleanItem.
    destruct (cleanSchema_shape v Ho (entries_ordinaryKeys v Hp)) as [-> _].
    apply smaller_idempotent; assumption.
  - unfold cleanItem. rewrite Ho. reflexivity.
Qed.

Lemma cleanProperties_idempotent value :
  (size value <= n)%nat -> noProtoKey value = true ->
  cleanProperties (cleanProperties value) = cleanProperties value.
Proof.
  intros Hs Hp.
  rewrite (cleanProperties_own value) by (apply entries_ordinaryKeys; exact Hp).
  set (P := fold_left keepProperty (entries value) []).
  destruct (copyEntry_built (fun _ => false) (fun _ => cleanItem) (entries value) [])
    as [Hnd Hin].
  fold keepProperty in Hnd, Hin. fold P in Hnd, Hin.
  assert (Hfrom : forall k w, In (k, w) P ->
            exists v, In (k, v) (entries value) /\ w = cleanItem v).
  { intros k w H. destruct (Hin k w H) as [[]|(_ & v & Hv & ->)]. eauto. }
  rewrite cleanProperties_own; cbn [entries].
  - f_equal. unfold keepProperty.
    rewrite copyEntry_fixed; [reflexivity | apply Hnd; constructor | | intros ? ? []].
    intros k w H. split; [reflexivity|].
    destruct (Hfrom k w H) as (v & Hv & ->).
    destruct (entries_child value k v Hp Hv) as (_ & Hpv & Hsv).
    apply cleanItem_idempotent; [lia | exact Hpv].
  - apply Forall_forall. intros [k w] H. cbn [fst].
    destruct (Hfrom k w H) as (v & Hv & _).
    apply (entries_child value k v Hp Hv).
Qed.

Lemma arrayMap_cleanItem_idempotent l :
  (size (VArray l) <= n)%nat -> noProtoKey (VArray l) = true ->
  arrayMap cleanItem (arrayMap cleanItem (VArray l)) = arrayMap cleanItem (VArray l).
Proof.
  intros Hs Hp. cbn [arrayMap]. f_equal. rewrite map_map.
  apply map_ext_in. intros v Hv.
  apply cleanItem_idempotent.
  - pose proof (size_In_list l v Hv). simpl in Hs. lia.
  - simpl in Hp. rewrite forallb_forall in Hp. apply Hp. exact Hv.
Qed.

Lemma cleanValue_idempotent k v :
  (size v < n)%nat -> noProtoKey v = true ->
  cleanValue k (cleanValue k v) = cleanValue k v.
Proof.
  intros Hs Hp.
  assert (Hprops : isObject v = true ->
            isObject (cleanProperties v) = true
            /\ cleanProperties (cleanProperties v) = cleanProperties v).
  { intros Ho. split.
    - rewrite cleanProperties_own by (apply entries_ordinaryKeys; exact Hp).
      reflexivity.
    - apply cleanProperties_idempotent; [lia | exact Hp]. }
  assert (Hclean : isObject v = true ->
            isObject (cleanSchema v) = true /\ isArray (cleanSchema v) = false
            /\ cleanSchema (cleanSchema v) = cleanSchema v).
  { intros Ho.
    destruct (cleanSchema_shape v Ho (entries_ordinaryKeys v Hp)) as [H1 H2].
    repeat split; auto. }
  unfold cleanValue at 2 3.
  destruct v as [ | | | | |l|proto own];
    try (cbn [isObject isArray]; rewrite ?andb_false_r; cbn [andb negb];
         unfold cleanValue; cbn [isObject isArray]; rewrite ?andb_false_r;
         reflexivity).
  - (* an array *)
    cbn [isObject isArray negb]. rewrite ?andb_true_r, ?andb_false_r.
    destruct (Hprops eq_refl) as [P1 P2]. destruct (Hclean eq_refl) as (C1 & C2 & C3).
    destruct (String.eqb k "properties") eqn:E1.
    { unfold cleanValue. rewrite E1, P1. exact P2. }
    destruct (String.eqb k "items") eqn:E2.
    { unfold cleanValue. rewrite E1, E2, C1. exact C3. }
    assert (A : cleanValue k (arrayMap cleanItem (VArray l))
                = if String.eqb k "anyOf" || String.eqb k "oneOf"
                     || String.eqb k "allOf"
                  then arrayMap cleanItem (arrayMap cleanItem (VArray l))
                  else arrayMap cleanItem (VArray l)).
    { unfold cleanValue. rewrite E1, E2. cbn [arrayMap isObject isArray negb].
      rewrite ?andb_true_r, ?andb_false_r. cbn [andb].
      destruct (String.eqb k "anyOf"), (String.eqb k "oneOf"),
        (String.eqb k "allOf"); reflexivity. }
    destruct (String.eqb k "anyOf") eqn:E3.
    { rewrite A. apply arrayMap_cleanItem_idempotent; [lia | exact Hp]. }
    destruct (String.eqb k "oneOf") eqn:E4.
    { rewrite A. apply arrayMap_cleanItem_idempotent; [lia | exact Hp]. }
    destruct (String.eqb k "allOf") eqn:E5.
    { rewrite A. apply arrayMap_cleanItem_idempotent; [lia | exact Hp]. }
    unfold cleanValue. rewrite E1, E2, E3, E4, E5. reflexivity.
  - (* an object *)
    cbn [isObject isArray negb]. rewrite ?andb_true_r, ?andb_false_r.
    destruct (Hprops eq_refl) as [P1 P2]. destruct (Hclean eq_refl) as (C1 & C2 & C3).
    destruct (String.eqb k "properties") eqn:E1.
    { unfold cleanValue. rewrite E1, P1. exact P2. }
    destruct (String.eqb k "items") eqn:E2.
    { unfold cleanValue. rewrite E1, E2, C1. exact C3. }
    cbn [andb]. unfold cleanValue. rewrite E1, E2, C1, C2.
    rewrite ?andb_false_r. cbn [andb negb]. exact C3.
Qed.

Lemma cleanSchema_idempotent_upto schema :
  (size schema <= n)%nat -> isObject schema = true -> noProtoKey schema = true ->
  cleanSchema (cleanSchema schema) = cleanSchema schema.
Proof.
  intros Hs Ho Hp.
  rewrite (cleanSchema_own schema Ho (entries_ordinaryKeys schema Hp)).
  set (G := fold_left keepEntry (entries schema) []).
  destruct (copyEntry_built (includes UNSUPPORTED_SCHEMA_FIELDS) cleanValue
              (entries schema) []) as [Hnd Hin].
  fold keepEntry in Hnd, Hin. fold G in Hnd, Hin.
  assert (Hfixed : forall k w, In (k, w) (closeOwn G) ->
            k <> "__proto__"
            /\ includes UNSUPPORTED_SCHEMA_FIELDS k = false
            /\ cleanValue k w = w).
  { intros k w H. apply closeOwn_In in H.
    destruct H as [H|[[-> ->]|[-> ->]]].
    - destruct (Hin k w H) as [[]|(Hd & v & Hv & ->)].
      destruct (entries_child schema k v Hp Hv) as (Hk & Hpv & Hsv).
      repeat split; auto. apply cleanValue_idempotent; [lia | exact Hpv].
    - split; [discriminate | split; reflexivity].
    - split; [discriminate | split; reflexivity]. }
  rewrite cleanSchema_own; cbn [entries]; [|reflexivity|].
  - f_equal. unfold keepEntry.
    rewrite copyEntry_fixed.
    + cbn [app]. apply closeOwn_idempotent.
    + apply closeOwn_NoDup, Hnd. constructor.
    + intros k w H. apply Hfixed in H. tauto.
    + intros ? ? [].
  - apply Forall_forall. intros [k w] H. cbn [fst]. apply (Hfixed k w H).
Qed.

End BelowSize.

(** On every schema (object or array) in which no object has an own
    property named [__proto__], sanitizing twice is sanitizing once. *)
Theorem cleanSchema_idempotent schema :
  isObject schema = true -> noProtoKey schema = true ->
  cleanSchema (cleanSchema schema) = cleanSchema schema.
Proof.
  assert (H : forall n v, (size v < n)%nat -> isObject v = true ->
                          noProtoKey v = true ->
                          cleanSchema (cleanSchema v) = cleanSchema v).
  { induction n as [|n IH]; intros v Hs Ho Hp; [lia|].
    apply (cleanSchema_idempotent_upto IH); [lia | exact Ho | exact Hp]. }
  intros Ho Hp. apply (H (S (size schema))); [lia | exact Ho | exact Hp].
Qed.

(** *** The sanitizer on given schemas *)

(** The weather tool of the test suite ("should translate tool
    definitions"): nothing is dropped, and the object is closed with
    [additionalProperties: false]. *)
Example translateTool_weather :
  translateTool
    {| tool_name := "get_weather";
       tool_description := Some "Get the current weather for a location";
       input_schema :=
         VObject None
           [("type", VString "object");
            ("properties",
             VObject None
               [("location",
                 VObject None
                   [("type", VString "string");
                    ("description", VString "The city and state")]);
                ("unit",
                 VObject None
                   [("type", VString "string");
                    ("enum", VArray [VString "celsius"; VString "fahrenheit"])])]);
            ("required", VArray [VString "location"])] |}
  = {| function_name := "get_weather";
       function_description := Some "Get the current weather for a location";
       parameters :=
         VObject None
           [("type", VString "object");
            ("properties",
             VObject None
               [("location",
                 VObject None
                   [("type", VString "string");
                    ("description", VString "The city and state")]);
                ("unit",
                 VObject None
                   [("type", VString "string");
                    ("enum", VArray [VString "celsius"; VString "fahrenheit"])])]);
            ("required", VArray [VString "location"]);
            ("additionalProperties", VBool false)] |}.
Proof. reflexivity. Qed.

(** Unsupported keywords go, at every depth the walk reaches; an array
    under [items] comes back as an object keyed by position. *)
Example cleanSchema_drops_and_closes :
  cleanSchema
    (VObject None
       [("type", VString "object");
        ("title", VString "Query");
        ("properties",
         VObject None
           [("title", VObject None [("type", VString "string"); ("maxLength", integer 80)]);
            ("pair",
             VObject None
               [("type", VString "array");
                ("items", VArray [VObject None [("type", VString "object")];
                                  VObject None [("format", VString "date")]])])])])
  = VObject None
      [("type", VString "object");
       ("properties",
        VObject None
          [("title", VObject None [("type", VString "string")]);
           ("pair",
            VObject None
              [("type", VString "array");
               ("items",
                VObject None
                  [("0", VObject None
                           [("type", VString "object");
                            ("additionalProperties", VBool false);
                            ("properties", emptyObject)]);
                   ("1", emptyObject)])])]);
       ("additionalProperties", VBool false)].
Proof. reflexivity. Qed.

(** Claim C7 (it fails on the code).  The claim: sanitizing twice equals
    sanitizing once, for every schema tree.  On the parsed schema
    [{"type": "object", "__proto__": {"anyOf": [{"type": "string"}]}}]
    the assignment [result["__proto__"] = ...] of the loop does not copy
    the field but makes the cleaned value the prototype of [result]; the
    closing step then reads [anyOf] through that prototype and injects no
    [properties].  The first pass returns an object whose own properties
    are [type] and [additionalProperties] only; the second pass, which no
    longer sees [anyOf], adds [properties: {}].  The two results differ
    in their own data, which is what is serialized for the provider.  The
    same happens to the parameters [translateTool] computes for a tool
    that has a parameter with this schema. *)
Theorem cleanSchema_not_idempotent_on_proto_key :
  cleanSchema protoSchema
  = VObject
      (Some (VObject None [("anyOf", VArray [VObject None [("type", VString "string")]])]))
      [("type", VString "object"); ("additionalProperties", VBool false)]
  /\ cleanSchema (cleanSchema protoSchema)
     = VObject None
         [("type", VString "object"); ("additionalProperties", VBool false);
          ("properties", emptyObject)]
  /\ ownData (cleanSchema (cleanSchema protoSchema))
     <> ownData (cleanSchema protoSchema)
  /\ ownData (cleanSchema (parameters (translateTool protoTool)))
     <> ownData (parameters (translateTool protoTool)).
Proof.
  split; [reflexivity|]. split; [reflexivity|].
  split; intros H; vm_compute in H; discriminate H.
Qed.

Lemma cleanSchema_idempotent_witness :
  let schema :=
    VObject None
      [("type", VString "object");
       ("title", VString "Query");
       ("properties",
        VObject None
          [("filters",
            VObject None [("type", VString "object"); ("minProperties", integer 1)]);
           ("tags",
            VObject None
              [("type", VString "array");
               ("items", VObject None [("type", VString "string");
                                       ("pattern", VString "^[a-z]+$")])])])] in
  isObject schema = true
  /\ noProtoKey schema = true
  /\ cleanSchema (cleanSchema schema) = cleanSchema schema.
Proof.
  intros schema. split; [reflexivity|]. split; [reflexivity|].
  apply cleanSchema_idempotent; reflexivity.
Defined.

(* ================================================================== *)
(** ** More on the streaming translator *)

(** *** Strings and counts *)

Lemma string_app_nil_r (s : string) : (s ++ "")%string = s.
Proof. induction s; simpl; congruence. Qed.

Lemma string_app_assoc (a b c : string) :
  ((a ++ b) ++ c)%string = (a ++ b ++ c)%string.
Proof. induction a; simpl; congruence. Qed.

Lemma concatStrings_app l1 l2 :
  concatStrings (l1 ++ l2) = (concatStrings l1 ++ concatStrings l2)%string.
Proof.
  induction l1 as [|x l1 IH]; simpl; [reflexivity|].
  rewrite IH, string_app_assoc. reflexivity.
Qed.

Lemma textsOf_app l1 l2 : textsOf (l1 ++ l2) = textsOf l1 ++ textsOf l2.
Proof.
  induction l1 as [|[] l1 IH]; simpl; congruence.
Qed.

Lemma deltaTexts_app l1 l2 : deltaTexts (l1 ++ l2) = deltaTexts l1 ++ deltaTexts l2.
Proof.
  induction l1 as [|e l1 IH]; simpl; [reflexivity|].
  destruct e as [| | ? []| | | | |]; simpl; congruence.
Qed.

Lemma countIf_app f l1 l2 : countIf f (l1 ++ l2) = (countIf f l1 + countIf f l2)%nat.
Proof. unfold countIf. rewrite filter_app, length_app. reflexivity. Qed.

Lemma nonEmpty_append a b : nonEmpty b = true -> nonEmpty (a ++ b) = true.
Proof.
  intros H. destruct a; [exact H | reflexivity].
Qed.

Lemma nonEmpty_false s : nonEmpty s = false -> s = "".
Proof.
  unfold nonEmpty. destruct (String.eqb_spec s ""); [auto | discriminate].
Qed.

Lemma startedCalls_set_present k old new entries :
  assoc_get Z.eqb k entries = Some old ->
  (startedCalls (assoc_set Z.eqb k new entries)
   + (if startEventSent old then 1 else 0)
   = startedCalls entries + (if startEventSent new then 1 else 0))%nat.
Proof.
  unfold startedCalls.
  induction entries as [|[k' v'] entries IH]; simpl; [discriminate|].
  destruct (Z.eqb_spec k' k).
  - intros [= ->]. simpl.
    destruct (startEventSent old), (startEventSent new); simpl; lia.
  - intros H. specialize (IH H). simpl.
    destruct (startEventSent v'); simpl; lia.
Qed.

Lemma startedCalls_set_absent k new entries :
  assoc_get Z.eqb k entries = None ->
  startedCalls (assoc_set Z.eqb k new entries)
  = (startedCalls entries + (if startEventSent new then 1 else 0))%nat.
Proof.
  intros H. rewrite (assoc_set_absent Z.eqb Z.eqb_spec _ _ _ H).
  unfold startedCalls. rewrite filter_app, length_app. simpl.
  destruct (startEventSent new); reflexivity.
Qed.

(** *** The parts before the finish part *)

Lemma blockStep_refl s : blockStep s [] s.
Proof.
  constructor; auto.
  - exists []. rewrite List.app_nil_r. reflexivity.
  - simpl. rewrite string_app_nil_r. reflexivity.
Qed.

Lemma blockStep_trans s1 e1 s2 e2 s3 :
  blockStep s1 e1 s2 -> blockStep s2 e2 s3 -> blockStep s1 (e1 ++ e2) s3.
Proof.
  intros [A1 A2 [a1 A3] A4 A5 A6 A7] [B1 B2 [a2 B3] B4 B5 B6 B7]. constructor.
  - apply Forall_app; auto.
  - auto.
  - exists (a1 ++ a2). rewrite B3, A3, List.app_assoc. reflexivity.
  - rewrite B4, A4, deltaTexts_app, concatStrings_app, !string_app_assoc. reflexivity.
  - rewrite !countIf_app. lia.
  - lia.
  - congruence.
Qed.

Lemma handleText_step content s :
  nonEmpty content = true ->
  blockStep s (fst (handleText content s)) (snd (handleText content s)).
Proof.
  intros Hc. unfold handleText.
  destruct (textBlockStarted s) eqn:E; simpl; constructor; simpl; auto.
  all: try (intros _; unfold textInvariant; simpl; rewrite E || idtac;
            rewrite (nonEmpty_append _ _ Hc); auto; fail).
  all: try (exists []; rewrite List.app_nil_r; reflexivity).
  all: try (rewrite string_app_nil_r, string_app_assoc; reflexivity).
  all: try (unfold openUnits, countIf; simpl; rewrite ?E; simpl; lia).
  all: try (unfold unitCount; simpl; rewrite ?E; lia).
Qed.

Lemma closeTextBlock_step s :
  blockStep s (fst (closeTextBlock s)) (snd (closeTextBlock s)).
Proof.
  unfold closeTextBlock.
  destruct (textBlockStarted s) eqn:E1; destruct (nonEmpty (textBuffer s)) eqn:E2;
    simpl; try apply blockStep_refl.
  constructor; simpl; auto.
  - intros _. reflexivity.
  - eauto.
  - rewrite textsOf_app, concatStrings_app. simpl.
    rewrite !string_app_nil_r. reflexivity.
  - unfold openUnits, countIf; simpl. rewrite E1. lia.
  - unfold unitCount; simpl. rewrite E1, filter_app, length_app. simpl. lia.
Qed.

Lemma handleToolCall_cases toolCall s :
  handleToolCall toolCall s = ([], s)
  \/ exists s0 old new starts deltas,
       handleToolCall toolCall s
       = (starts ++ deltas, updateToolState (dtc_index toolCall) new s0)
       /\ assoc_get Z.eqb (dtc_index toolCall) (toolCallStates s0) = Some old
       /\ (s0 = s
           \/ (assoc_get Z.eqb (dtc_index toolCall) (toolCallStates s) = None
               /\ s0 = updateToolState (dtc_index toolCall) old (incrementBlockIndex s)
               /\ startEventSent old = false))
       /\ ((starts = [] /\ startEventSent new = startEventSent old)
           \/ (exists block,
                 starts = [ContentBlockStart (currentBlockIndex s0) block]
                 /\ startEventSent old = false /\ startEventSent new = true))
       /\ (deltas = []
           \/ exists arguments,
                deltas = [ContentBlockDelta (currentBlockIndex s0)
                            (InputJsonDelta arguments)]).
Proof.
  unfold handleToolCall.
  destruct (assoc_get Z.eqb (dtc_index toolCall) (toolCallStates s)) as [ts|] eqn:G.
  - right. exists s, ts.
    repeat (break_inner; cbv beta iota).
    all: do 3 eexists; split; [reflexivity|]; split; [exact G|]; split; [left; reflexivity|].
    all: cbn [startEventSent ts_id ts_name argumentsBuffer] in *.
    all: split;
      [ first [ left; split; reflexivity
              | right; eexists; split; [reflexivity|]; split; [|reflexivity];
                destruct (startEventSent ts); simpl in *; congruence ]
      | first [ left; reflexivity | right; eexists; reflexivity ] ].
  - destruct (dtc_id toolCall) as [id|]; [destruct (nonEmpty id)|];
      try (left; reflexivity).
    right.
    exists (updateToolState (dtc_index toolCall)
              {| ts_id := id;
                 ts_name := match deltaName toolCall with Some n => n | None => "" end;
                 argumentsBuffer := "";
                 startEventSent := false |}
              (incrementBlockIndex s)).
    exists {| ts_id := id;
              ts_name := match deltaName toolCall with Some n => n | None => "" end;
              argumentsBuffer := "";
              startEventSent := false |}.
    repeat (break_inner; cbv beta iota).
    all: do 3 eexists; split; [reflexivity|];
      split; [apply (assoc_get_set_same Z.eqb Z.eqb_spec)|];
      split; [right; split; [first [exact G | reflexivity] | split; reflexivity]|].
    all: cbn [startEventSent ts_id ts_name argumentsBuffer] in *.
    all: split;
      [ first [ left; split; reflexivity
              | right; eexists; split; [reflexivity|]; split; reflexivity ]
      | first [ left; reflexivity | right; eexists; reflexivity ] ].
Qed.

Lemma handleToolCall_step toolCall s :
  blockStep s (fst (handleToolCall toolCall s)) (snd (handleToolCall toolCall s)).
Proof.
  destruct (handleToolCall_cases toolCall s)
    as [E|(s0 & old & new & starts & deltas & E & G & Hs0 & Hstarts & Hdeltas)];
    rewrite E; simpl; [apply blockStep_refl|].
  assert (B0 : blockStep s [] s0
               /\ (startedCalls (toolCallStates s0) = startedCalls (toolCallStates s))
               /\ textBlockStarted s0 = textBlockStarted s).
  { destruct Hs0 as [->|(G0 & -> & Hold)]; [split; [apply blockStep_refl|auto]|].
    split; [|split; [|reflexivity]].
    - constructor; simpl; auto.
      + exists []. rewrite List.app_nil_r. reflexivity.
      + rewrite string_app_nil_r. reflexivity.
      + unfold openUnits, countIf. simpl.
        rewrite (startedCalls_set_absent _ _ _ G0), Hold. lia.
      + unfold unitCount. simpl.
        rewrite (assoc_set_absent Z.eqb Z.eqb_spec _ _ _ G0), length_app. simpl. lia.
    - simpl. rewrite (startedCalls_set_absent _ _ _ G0), Hold. lia. }
  destruct B0 as (B0 & _ & _).
  change (starts ++ deltas) with ([] ++ (starts ++ deltas)).
  eapply blockStep_trans; [exact B0|]. clear B0 Hs0 E.
  pose proof (startedCalls_set_present _ new _ G) as Hc.
  pose proof (assoc_set_present Z.eqb Z.eqb_spec _ new _ G) as Hl.
  constructor; simpl.
  - apply Forall_app. split.
    + destruct Hstarts as [[-> _]|(b & -> & _)]; repeat constructor.
    + destruct Hdeltas as [->|(a & ->)]; repeat constructor.
  - auto.
  - exists []. rewrite List.app_nil_r. reflexivity.
  - rewrite deltaTexts_app.
    replace (deltaTexts starts) with (@nil string)
      by (destruct Hstarts as [[-> _]|(b & -> & _)]; reflexivity).
    replace (deltaTexts deltas) with (@nil string)
      by (destruct Hdeltas as [->|(a & ->)]; reflexivity).
    simpl. rewrite string_app_nil_r. reflexivity.
  - rewrite !countIf_app. unfold openUnits. simpl.
    replace (countIf isBlockStop starts) with 0%nat
      by (destruct Hstarts as [[-> _]|(b & -> & _)]; reflexivity).
    replace (countIf isBlockStop deltas) with 0%nat
      by (destruct Hdeltas as [->|(a & ->)]; reflexivity).
    replace (countIf isBlockStart deltas) with 0%nat
      by (destruct Hdeltas as [->|(a & ->)]; reflexivity).
    destruct Hstarts as [[-> Hn]|(b & -> & Ho & Hn)]; unfold countIf; simpl.
    + rewrite Hn in Hc. lia.
    + rewrite Ho, Hn in Hc. lia.
  - unfold unitCount. simpl. rewrite Hl. reflexivity.
  - reflexivity.
Qed.

Lemma handleToolCalls_step toolCalls : forall s,
  blockStep s (fst (handleToolCalls toolCalls s)) (snd (handleToolCalls toolCalls s)).
Proof.
  induction toolCalls as [|toolCall rest IH]; intros s; simpl.
  - apply blockStep_refl.
  - pose proof (handleToolCall_step toolCall s) as H1.
    destruct (handleToolCall toolCall s) as [events s1].
    specialize (IH s1). destruct (handleToolCalls rest s1) as [events' s2].
    simpl in *. eapply blockStep_trans; eauto.
Qed.

Lemma textPart_step delta s :
  blockStep s (fst (textPart delta s)) (snd (textPart delta s)).
Proof.
  unfold textPart.
  destruct (delta_content delta) as [content|]; [destruct (nonEmpty content) eqn:E|];
    try apply blockStep_refl.
  apply handleText_step, E.
Qed.

Lemma toolCallsPart_step delta s :
  blockStep s (fst (toolCallsPart delta s)) (snd (toolCallsPart delta s)).
Proof.
  unfold toolCallsPart.
  destruct (delta_tool_calls delta) as [toolCalls|]; [|apply blockStep_refl].
  pose proof (closeTextBlock_step s) as H1.
  destruct (closeTextBlock s) as [closeEvents s1].
  pose proof (handleToolCalls_step toolCalls s1) as H2.
  destruct (handleToolCalls toolCalls s1) as [callEvents s2].
  simpl in *. eapply blockStep_trans; eauto.
Qed.

(** *** The finish part *)

Lemma closeToolBlocks_more JSON_parse entries : forall s,
  exists added,
    contentBlocks (snd (closeToolBlocks JSON_parse entries s)) = contentBlocks s ++ added
    /\ textsOf added = []
    /\ match fst (closeToolBlocks JSON_parse entries s) with
       | Ok events =>
           Forall (fun e => isBlockStop e = true) events
           /\ List.length events = startedCalls entries
       | Throw _ => True
       end.
Proof.
  unfold startedCalls.
  induction entries as [|[index toolState] rest IH]; intros s; simpl.
  - exists []. rewrite List.app_nil_r. auto.
  - destruct (startEventSent toolState); simpl; [|apply IH].
    destruct (if nonEmpty (argumentsBuffer toolState)
              then JSON_parse (argumentsBuffer toolState)
              else Some emptyObject) as [input|].
    + match goal with |- context [closeToolBlocks _ rest ?s1] =>
        destruct (IH s1) as (added & E & T & A);
        destruct (closeToolBlocks JSON_parse rest s1) as [[events|e] s2]
      end; simpl in *.
      * eexists. rewrite E, <- List.app_assoc. split; [reflexivity|].
        split; [exact T|]. destruct A as [A1 A2]. split; [constructor; auto | congruence].
      * eexists. rewrite E, <- List.app_assoc. split; [reflexivity|]. auto.
    + exists []. rewrite List.app_nil_r. simpl. auto.
Qed.

Lemma isBlockStop_counts events :
  Forall (fun e => isBlockStop e = true) events ->
  Forall (fun e => isBlockEvent e = true) events
  /\ countIf isBlockStart events = 0%nat
  /\ countIf isBlockStop events = List.length events
  /\ deltaTexts events = [].
Proof.
  unfold countIf. induction 1 as [|e events He _ IH]; simpl; [auto|].
  destruct IH as (I1 & I2 & I3 & I4).
  destruct e; try discriminate. simpl. rewrite I3. auto.
Qed.

Lemma handleFinish_more JSON_parse finish_reason s :
  exists added,
    contentBlocks (snd (handleFinish JSON_parse finish_reason s))
    = contentBlocks s ++ added
    /\ concatStrings (textsOf added)
       = (if textBlockStarted s then textBuffer s else "")
    /\ match fst (handleFinish JSON_parse finish_reason s) with
       | Ok events =>
           exists closing,
             events
             = closing
               ++ [MessageDelta
                     (streamStopReason finish_reason
                        (snd (handleFinish JSON_parse finish_reason s)))
                     None (outputTokens s);
                   MessageStop]
             /\ Forall (fun e => isBlockStop e = true) closing
             /\ List.length closing = openUnits s
       | Throw e => e = SyntaxError /\ exists text, JSON_parse text = None
       end.
Proof.
  pose proof (handleFinish_effect JSON_parse finish_reason s) as Heff.
  unfold handleFinish in *.
  set (s1 := if textBlockStarted s
             then pushContentBlock (TextBlock (textBuffer s)) s else s) in *.
  assert (E : (if textBlockStarted s
               then ([ContentBlockStop (currentBlockIndex s)],
                     pushContentBlock (TextBlock (textBuffer s)) s)
               else ([], s))
              = ((if textBlockStarted s
                  then [ContentBlockStop (currentBlockIndex s)] else []), s1)).
  { unfold s1. destruct (textBlockStarted s); reflexivity. }
  rewrite E in *. clear E.
  assert (T1 : toolCallStates s1 = toolCallStates s)
    by (unfold s1; destruct (textBlockStarted s); reflexivity).
  assert (O1 : outputTokens s1 = outputTokens s)
    by (unfold s1; destruct (textBlockStarted s); reflexivity).
  destruct (closeToolBlocks_more JSON_parse (toolCallStates s1) s1) as (added & B & T & A).
  destruct (closeToolBlocks JSON_parse (toolCallStates s1) s1) as [[toolEvents|e] s2];
    simpl in *.
  - destruct Heff as [F (closing & _ & Hev)].
    exists ((if textBlockStarted s then [TextBlock (textBuffer s)] else []) ++ added).
    split; [|split].
    + rewrite B. unfold s1. destruct (textBlockStarted s); simpl;
        rewrite <- ?List.app_assoc; reflexivity.
    + rewrite textsOf_app, T, List.app_nil_r.
      destruct (textBlockStarted s); simpl; [apply string_app_nil_r | reflexivity].
    + exists ((if textBlockStarted s
               then [ContentBlockStop (currentBlockIndex s)] else []) ++ toolEvents).
      destruct A as [A1 A2]. split; [|split].
      * rewrite <- List.app_assoc. do 2 f_equal. unfold streamStopReason.
        destruct F as (_ & _ & _ & -> & _ & -> & _).
        destruct (toolCallStates s); reflexivity.
      * apply Forall_app. split; [destruct (textBlockStarted s); repeat constructor | exact A1].
      * rewrite length_app, A2, T1. unfold openUnits.
        destruct (textBlockStarted s); reflexivity.
  - destruct Heff as [F Hthrow].
    exists ((if textBlockStarted s then [TextBlock (textBuffer s)] else []) ++ added).
    split; [|split; [|exact Hthrow]].
    + rewrite B. unfold s1. destruct (textBlockStarted s); simpl;
        rewrite <- ?List.app_assoc; reflexivity.
    + rewrite textsOf_app, T, List.app_nil_r.
      destruct (textBlockStarted s); simpl; [apply string_app_nil_r | reflexivity].
Qed.

(** *** One chunk, then many *)

Lemma chunk_parts JSON_parse chunk s :
  match chunk_choices chunk with
  | [] => translateStreamChunk JSON_parse chunk s = (Ok [], s)
  | choice :: _ =>
      exists events1 s1,
        blockStep s events1 s1
        /\ (delta_tool_calls (cc_delta choice) <> None -> textInvariant s ->
            textBlockStarted s1 = false)
        /\ translateStreamChunk JSON_parse chunk s
           = match finishPart JSON_parse choice s1 with
             | (Ok finishEvents, s') => (Ok (events1 ++ finishEvents), s')
             | (Throw e, s') => (Throw e, s')
             end
  end.
Proof.
  unfold translateStreamChunk.
  destruct (chunk_choices chunk) as [|choice rest]; [reflexivity|].
  pose proof (textPart_step (cc_delta choice) s) as H1.
  destruct (textPart (cc_delta choice) s) as [textEvents s1].
  pose proof (toolCallsPart_step (cc_delta choice) s1) as H2.
  assert (Hclosed : delta_tool_calls (cc_delta choice) <> None -> textInvariant s1 ->
                    textBlockStarted (snd (toolCallsPart (cc_delta choice) s1)) = false).
  { unfold toolCallsPart.
    destruct (delta_tool_calls (cc_delta choice)) as [toolCalls|]; [|congruence].
    intros _ Hinv.
    pose proof (handleToolCalls_effect toolCalls (snd (closeTextBlock s1))) as Hk.
    unfold closeTextBlock in *. unfold textInvariant in Hinv.
    destruct (textBlockStarted s1) eqn:E1; rewrite <- Hinv in *; simpl in *.
    - match type of Hk with context [handleToolCalls ?a ?b] =>
        destruct (handleToolCalls a b) as [ce s2] end.
      simpl. destruct Hk as (_ & -> & _). reflexivity.
    - destruct (handleToolCalls toolCalls s1) as [ce s2].
      simpl. destruct Hk as (_ & -> & _). exact E1. }
  destruct (toolCallsPart (cc_delta choice) s1) as [toolEvents s2].
  simpl in *. exists (textEvents ++ toolEvents), s2.
  split; [eapply blockStep_trans; eauto|]. split.
  - intros Hn Hi. apply Hclosed; [exact Hn | apply H1, Hi].
  - destruct (finishPart JSON_parse choice s2) as [[finishEvents|e] s3];
      rewrite <- ?List.app_assoc; reflexivity.
Qed.

Lemma finishPart_unfinished JSON_parse choice s :
  truthyStr (cc_finish_reason choice) = false ->
  finishPart JSON_parse choice s = (Ok [], s).
Proof.
  unfold finishPart, truthyStr.
  destruct (cc_finish_reason choice) as [reason|]; [|reflexivity].
  intros ->. reflexivity.
Qed.

Lemma chunk_without_finish_step JSON_parse chunk s :
  finishes chunk = false ->
  exists events s',
    translateStreamChunk JSON_parse chunk s = (Ok events, s')
    /\ blockStep s events s'
    /\ forall JSON_parse', translateStreamChunk JSON_parse' chunk s = (Ok events, s').
Proof.
  unfold finishes. intros Hf.
  pose proof (chunk_parts JSON_parse chunk s) as H.
  destruct (chunk_choices chunk) as [|choice rest] eqn:Ec.
  - exists [], s. split; [exact H|]. split; [apply blockStep_refl|].
    intros p. unfold translateStreamChunk. rewrite Ec. reflexivity.
  - destruct H as (events1 & s1 & B & _ & E).
    rewrite (finishPart_unfinished _ _ _ Hf), List.app_nil_r in E.
    exists events1, s1. split; [exact E|]. split; [exact B|].
    intros p. unfold translateStreamChunk in *. rewrite Ec in *.
    destruct (textPart (cc_delta choice) s) as [te t1].
    destruct (toolCallsPart (cc_delta choice) t1) as [ce t2].
    rewrite (finishPart_unfinished JSON_parse _ _ Hf) in E.
    rewrite (finishPart_unfinished p _ _ Hf). exact E.
Qed.

Lemma body_step JSON_parse body : forall s,
  (forall chunk, In chunk body -> finishes chunk = false) ->
  exists events s',
    feedChunks JSON_parse body s = (events, None, s') /\ blockStep s events s'.
Proof.
  induction body as [|chunk rest IH]; intros s Hb; simpl.
  - exists [], s. split; [reflexivity | apply blockStep_refl].
  - destruct (chunk_without_finish_step JSON_parse chunk s) as (e1 & s1 & E1 & B1 & _);
      [apply Hb; left; reflexivity|].
    destruct (IH s1) as (e2 & s2 & E2 & B2); [intros c Hc; apply Hb; right; exact Hc|].
    rewrite E1, E2. exists (e1 ++ e2), s2. split; [reflexivity|].
    eapply blockStep_trans; eauto.
Qed.

Lemma feedChunks_after_body JSON_parse body rest : forall s events s',
  feedChunks JSON_parse body s = (events, None, s') ->
  feedChunks JSON_parse (body ++ rest) s
  = (let '(events', e, s'') := feedChunks JSON_parse rest s' in
     (events ++ events', e, s'')).
Proof.
  induction body as [|chunk body IH]; intros s events s'; simpl.
  - intros [= <- <-]. destruct (feedChunks JSON_parse rest s) as [[? ?] ?]. reflexivity.
  - destruct (translateStreamChunk JSON_parse chunk s) as [[e1|x] s1]; [|discriminate].
    destruct (feedChunks JSON_parse body s1) as [[e2 o] s2] eqn:E2.
    intros [= <- -> <-]. rewrite (IH _ _ _ E2).
    destruct (feedChunks JSON_parse rest s2) as [[e3 o3] s3].
    rewrite List.app_assoc. reflexivity.
Qed.

Lemma fresh_state generatedId originalModel :
  let s := createStreamState generatedId originalModel in
  textInvariant s /\ openUnits s = 0%nat /\ unitCount s = 0%nat
  /\ contentBlocks s = [] /\ textBuffer s = "" /\ currentBlockIndex s = -1.
Proof. repeat split. Qed.

Lemma handleFinish_frame JSON_parse finish_reason s :
  onlyContentBlocks s (snd (handleFinish JSON_parse finish_reason s)).
Proof.
  pose proof (handleFinish_effect JSON_parse finish_reason s) as H.
  destruct (handleFinish JSON_parse finish_reason s). apply H.
Qed.

Lemma finishPart_cases JSON_parse choice s :
  (truthyStr (cc_finish_reason choice) = false
   /\ finishPart JSON_parse choice s = (Ok [], s))
  \/ (exists finish_reason,
        cc_finish_reason choice = Some finish_reason
        /\ truthyStr (cc_finish_reason choice) = true
        /\ finishPart JSON_parse choice s = handleFinish JSON_parse finish_reason s).
Proof.
  unfold finishPart, truthyStr.
  destruct (cc_finish_reason choice) as [reason|]; [destruct (nonEmpty reason) eqn:E|];
    eauto.
Qed.

(** Property X1.  What one chunk gives: without a finish signal the call
    returns, whatever [JSON.parse] does, and emits only starts, deltas and
    stops of content blocks; with a finish signal it either returns events
    that end with one message delta (carrying no stop sequence and the
    output-token counter of the state) followed by the message stop, all
    events before them being block events, or it throws the
    [SyntaxError] of a failing [JSON.parse].  No message start, ping or
    error event is ever emitted. *)
Theorem chunk_output_shape JSON_parse chunk s :
  match translateStreamChunk JSON_parse chunk s with
  | (Ok events, s') =>
      if finishes chunk
      then exists body stop_reason,
             events = body ++ [MessageDelta stop_reason None (outputTokens s); MessageStop]
             /\ Forall (fun e => isBlockEvent e = true) body
      else Forall (fun e => isBlockEvent e = true) events
           /\ forall JSON_parse',
                translateStreamChunk JSON_parse' chunk s = (Ok events, s')
  | (Throw e, _) =>
      e = SyntaxError /\ finishes chunk = true /\ exists text, JSON_parse text = None
  end.
Proof.
  destruct (finishes chunk) eqn:F.
  - pose proof (chunk_parts JSON_parse chunk s) as H. unfold finishes in F.
    destruct (chunk_choices chunk) as [|choice rest]; [discriminate|].
    destruct H as (events1 & s1 & B & _ & ->).
    destruct (finishPart_cases JSON_parse choice s1)
      as [[F' _]|(reason & _ & _ & ->)]; [congruence|].
    destruct (handleFinish_more JSON_parse reason s1) as (added & _ & _ & A).
    destruct (handleFinish JSON_parse reason s1) as [[finishEvents|e] s2]; simpl in A.
    + destruct A as (closing & -> & Hc & _).
      exists (events1 ++ closing). eexists. split.
      * rewrite <- List.app_assoc. do 3 f_equal.
        pose proof (step_counters B) as C. apply tokenCounters_eq in C.
        destruct C as [_ ->]. reflexivity.
      * apply Forall_app. split; [apply B | apply isBlockStop_counts, Hc].
    + destruct A as [-> A]. auto.
  - destruct (chunk_without_finish_step JSON_parse chunk s F) as (events & s' & -> & B & I).
    split; [apply B | exact I].
Qed.

Lemma translateStreamChunk_invariant JSON_parse chunk s :
  textInvariant s -> textInvariant (snd (translateStreamChunk JSON_parse chunk s)).
Proof.
  intros Hi. pose proof (chunk_parts JSON_parse chunk s) as H.
  destruct (chunk_choices chunk) as [|choice rest]; [rewrite H; exact Hi|].
  destruct H as (events1 & s1 & B & _ & ->).
  assert (H1 : textInvariant s1) by (apply B, Hi).
  assert (F : onlyContentBlocks s1 (snd (finishPart JSON_parse choice s1))).
  { pose proof (finishPart_effect JSON_parse choice s1) as H.
    destruct (finishPart JSON_parse choice s1). apply H. }
  destruct (finishPart JSON_parse choice s1) as [[finishEvents|e] s2]; simpl in *.
  all: unfold textInvariant in *;
    destruct F as (_ & _ & _ & _ & _ & _ & -> & ->); exact H1.
Qed.

Lemma feedChunks_invariant JSON_parse chunks : forall s,
  textInvariant s -> textInvariant (snd (feedChunks JSON_parse chunks s)).
Proof.
  induction chunks as [|chunk rest IH]; intros s Hi; simpl; [exact Hi|].
  pose proof (translateStreamChunk_invariant JSON_parse chunk Hi) as H1.
  destruct (translateStreamChunk JSON_parse chunk s) as [[events|e] s1]; simpl in *.
  - specialize (IH s1 H1) || specialize (IH _ H1). destruct (feedChunks JSON_parse rest s1) as [[? ?] ?].
    exact IH.
  - exact H1.
Qed.

(** Property X2.  In every state reached from a fresh one, whatever the
    chunks were and whether or not the run ended in a throw, a text block
    is open exactly when the text buffer is not empty.  So the test on the
    buffer in "Close text block if needed" never keeps an open text block
    from being closed: after a chunk that carries tool calls no text block
    is open. *)
Theorem open_text_block_has_text JSON_parse chunks generatedId originalModel
    events e s :
  feedChunks JSON_parse chunks (createStreamState generatedId originalModel)
  = (events, e, s) ->
  textBlockStarted s = nonEmpty (textBuffer s)
  /\ forall chunk,
       chunkToolCalls chunk <> None ->
       textBlockStarted (snd (translateStreamChunk JSON_parse chunk s)) = false.
Proof.
  intros E.
  assert (Hi : textInvariant s).
  { pose proof (@feedChunks_invariant JSON_parse chunks
                  (createStreamState generatedId originalModel)) as H.
    rewrite E in H. apply H. reflexivity. }
  split; [exact Hi|]. intros chunk Hc. unfold chunkToolCalls in Hc.
  pose proof (chunk_parts JSON_parse chunk s) as H.
  destruct (chunk_choices chunk) as [|choice rest]; [congruence|].
  destruct H as (events1 & s1 & B & Hclosed & ->).
  specialize (Hclosed Hc Hi).
  assert (F : onlyContentBlocks s1 (snd (finishPart JSON_parse choice s1))).
  { pose proof (finishPart_effect JSON_parse choice s1) as H.
    destruct (finishPart JSON_parse choice s1). apply H. }
  destruct (finishPart JSON_parse choice s1) as [[finishEvents|x] s2]; simpl in *.
  all: destruct F as (_ & _ & _ & _ & _ & _ & _ & ->); exact Hclosed.
Qed.

Lemma open_text_block_has_text_witness :
  textBlockStarted
    (snd (translateStreamChunk emptyObjectParser
            (chunkOf "c" 0 "m"
               (toolCallDelta {| dtc_index := 0; dtc_id := Some "call";
                                 dtc_function := None |})
               None)
            (snd (feedChunks emptyObjectParser
                    [chunkOf "c" 0 "m" (textDelta "Hi") None]
                    (createStreamState "a" "m")))))
  = false.
Proof.
  refine (proj2 (open_text_block_has_text emptyObjectParser
                   [chunkOf "c" 0 "m" (textDelta "Hi") None] "a" "m" _) _ _).
  - reflexivity.
  - discriminate.
Defined.

(** *** Text deltas of a chunk *)

Lemma handleText_deltaTexts content s :
  deltaTexts (fst (handleText content s)) = [content].
Proof. unfold handleText. destruct (textBlockStarted s); reflexivity. Qed.

Lemma closeTextBlock_deltaTexts s : deltaTexts (fst (closeTextBlock s)) = [].
Proof.
  unfold closeTextBlock.
  destruct (textBlockStarted s && nonEmpty (textBuffer s)); reflexivity.
Qed.

Lemma handleToolCalls_deltaTexts toolCalls : forall s,
  deltaTexts (fst (handleToolCalls toolCalls s)) = [].
Proof.
  induction toolCalls as [|toolCall rest IH]; intros s; simpl; [reflexivity|].
  destruct (handleToolCall_cases toolCall s)
    as [E|(s0 & old & new & starts & deltas & E & _ & _ & Hstarts & Hdeltas)];
    rewrite E; specialize (IH (snd (handleToolCall toolCall s))); rewrite E in IH;
    simpl in IH; destruct (handleToolCalls rest _) as [events' s2]; simpl in *.
  - exact IH.
  - rewrite !deltaTexts_app, IH.
    destruct Hstarts as [[-> _]|(b & -> & _)];
      destruct Hdeltas as [->|(a & ->)]; reflexivity.
Qed.

Lemma chunk_deltaTexts JSON_parse chunk s events s' :
  translateStreamChunk JSON_parse chunk s = (Ok events, s') ->
  concatStrings (deltaTexts events) = chunkText chunk.
Proof.
  unfold translateStreamChunk, chunkText.
  destruct (chunk_choices chunk) as [|choice rest]; [intros [= <- _]; reflexivity|].
  assert (H1 : concatStrings (deltaTexts (fst (textPart (cc_delta choice) s)))
               = match delta_content (cc_delta choice) with
                 | Some content => content
                 | None => ""
                 end).
  { unfold textPart.
    destruct (delta_content (cc_delta choice)) as [content|]; [|reflexivity].
    destruct (nonEmpty content) eqn:Ec.
    - rewrite handleText_deltaTexts. simpl. apply string_app_nil_r.
    - apply nonEmpty_false in Ec. subst content. reflexivity. }
  destruct (textPart (cc_delta choice) s) as [textEvents s1].
  assert (H2 : deltaTexts (fst (toolCallsPart (cc_delta choice) s1)) = []).
  { unfold toolCallsPart.
    destruct (delta_tool_calls (cc_delta choice)) as [toolCalls|]; [|reflexivity].
    pose proof (closeTextBlock_deltaTexts s1) as Hc.
    destruct (closeTextBlock s1) as [closeEvents s1'].
    pose proof (handleToolCalls_deltaTexts toolCalls s1') as Hk.
    destruct (handleToolCalls toolCalls s1') as [callEvents s2]. simpl in *.
    rewrite deltaTexts_app, Hk, Hc. reflexivity. }
  destruct (toolCallsPart (cc_delta choice) s1) as [toolEvents s2].
  simpl in H1, H2.
  destruct (finishPart_cases JSON_parse choice s2) as [[_ ->]|(reason & _ & _ & ->)].
  - intros [= <- _]. rewrite !deltaTexts_app, H2, !List.app_nil_r. exact H1.
  - destruct (handleFinish_more JSON_parse reason s2) as (added & _ & _ & A).
    destruct (handleFinish JSON_parse reason s2) as [[finishEvents|e] s3];
      [|discriminate].
    simpl in A. destruct A as (closing & -> & Hc & _).
    intros [= <- _]. apply isBlockStop_counts in Hc. destruct Hc as (_ & _ & _ & Hc).
    rewrite !deltaTexts_app, H2, Hc. simpl. rewrite List.app_nil_r. exact H1.
Qed.

Lemma feedChunks_deltaTexts JSON_parse chunks : forall s events s',
  feedChunks JSON_parse chunks s = (events, None, s') ->
  concatStrings (deltaTexts events) = concatStrings (map chunkText chunks).
Proof.
  induction chunks as [|chunk rest IH]; intros s events s'; simpl.
  - intros [= <- _]. reflexivity.
  - destruct (translateStreamChunk JSON_parse chunk s) as [[e1|x] s1] eqn:E1;
      [|discriminate].
    destruct (feedChunks JSON_parse rest s1) as [[e2 o] s2] eqn:E2.
    intros [= <- -> <-].
    rewrite deltaTexts_app, concatStrings_app, (IH _ _ _ E2),
      (chunk_deltaTexts _ _ _ E1).
    reflexivity.
Qed.

(** *** Replies that finish once, at their end *)

Lemma finished_run JSON_parse body final s events s' :
  (forall chunk, In chunk body -> finishes chunk = false) ->
  finishes final = true ->
  feedChunks JSON_parse (body ++ [final]) s = (events, None, s') ->
  exists before s1 closing stop_reason added,
    blockStep s before s1
    /\ events
       = before ++ closing ++ [MessageDelta stop_reason None (outputTokens s); MessageStop]
    /\ Forall (fun e => isBlockStop e = true) closing
    /\ List.length closing = openUnits s1
    /\ contentBlocks s' = contentBlocks s1 ++ added
    /\ concatStrings (textsOf added)
       = (if textBlockStarted s1 then textBuffer s1 else "").
Proof.
  intros Hb Hf E.
  destruct (body_step JSON_parse body s Hb) as (eb & sb & Eb & Bb).
  rewrite (feedChunks_after_body _ _ [final] _ Eb) in E. simpl in E.
  pose proof (chunk_parts JSON_parse final sb) as H. unfold finishes in Hf.
  destruct (chunk_choices final) as [|choice rest]; [discriminate|].
  destruct H as (events1 & s1 & B1 & _ & E1). rewrite E1 in E. clear E1.
  destruct (finishPart_cases JSON_parse choice s1)
    as [[F' _]|(reason & _ & _ & Ef)]; [congruence|].
  rewrite Ef in E. clear Ef.
  destruct (handleFinish_more JSON_parse reason s1) as (added & Hadd & Htext & A).
  destruct (handleFinish JSON_parse reason s1) as [[finishEvents|x] s2];
    [|discriminate].
  simpl in *. destruct A as (closing & -> & Hc & Hl).
  injection E as <- <-.
  pose proof (blockStep_trans Bb B1) as B.
  exists (eb ++ events1), s1, closing. eexists. exists added.
  split; [exact B|]. split; [|auto].
  rewrite List.app_nil_r, <- !List.app_assoc. do 4 f_equal.
  pose proof (step_counters B) as C. apply tokenCounters_eq in C.
  destruct C as [_ ->]. reflexivity.
Qed.

(** Property X3.  No text is lost, doubled or reordered on the way through
    the stream: when a reply whose only finish signal comes with its last
    chunk has been translated without a throw, the texts of the finalized
    text blocks, put end to end, are the [delta.content] strings of the
    chunks put end to end, and so are the texts of the emitted text
    deltas. *)
Theorem streamed_text_is_conserved JSON_parse body final generatedId originalModel
    events s :
  (forall chunk, In chunk body -> finishes chunk = false) ->
  finishes final = true ->
  feedChunks JSON_parse (body ++ [final]) (createStreamState generatedId originalModel)
  = (events, None, s) ->
  concatStrings (textsOf (contentBlocks s))
  = concatStrings (map chunkText (body ++ [final]))
  /\ concatStrings (deltaTexts events)
     = concatStrings (map chunkText (body ++ [final])).
Proof.
  intros Hb Hf E.
  pose proof (feedChunks_deltaTexts _ _ _ E) as Hd.
  split; [|exact Hd]. rewrite <- Hd.
  destruct (finished_run _ _ _ _ Hb Hf E)
    as (before & s1 & closing & sr & added & B & -> & Hc & _ & -> & Ht).
  pose proof (step_text B) as T. simpl in T.
  assert (Hi : textInvariant s1) by (apply B; reflexivity).
  assert (Hbuf : (if textBlockStarted s1 then textBuffer s1 else "") = textBuffer s1).
  { unfold textInvariant in Hi. destruct (textBlockStarted s1); [reflexivity|].
    symmetry. apply nonEmpty_false. auto. }
  rewrite textsOf_app, concatStrings_app, Ht, Hbuf, T.
  apply isBlockStop_counts in Hc. destruct Hc as (_ & _ & _ & Hc).
  rewrite !deltaTexts_app, Hc. simpl. rewrite List.app_nil_r. reflexivity.
Qed.

Lemma streamed_text_is_conserved_witness :
  concatStrings
    (textsOf
       (contentBlocks
          (snd (feedChunks emptyObjectParser
                  ([chunkOf "c" 0 "m" (textDelta "Hel") None;
                    chunkOf "c" 0 "m" (textDelta "lo") None]
                   ++ [chunkOf "c" 0 "m" emptyDelta (Some "stop")])
                  (createStreamState "a" "m")))))
  = "Hello".
Proof.
  refine (proj1 (streamed_text_is_conserved emptyObjectParser
                   [chunkOf "c" 0 "m" (textDelta "Hel") None;
                    chunkOf "c" 0 "m" (textDelta "lo") None]
                   (chunkOf "c" 0 "m" emptyDelta (Some "stop"))
                   "a" "m" _ _ _)).
  - intros chunk [<-|[<-|[]]]; reflexivity.
  - reflexivity.
  - reflexivity.
Defined.



(** *** Finalized blocks and tool-call positions *)

Lemma translateStreamChunk_blocks JSON_parse chunk s :
  exists added,
    contentBlocks (snd (translateStreamChunk JSON_parse chunk s))
    = contentBlocks s ++ added.
Proof.
  pose proof (chunk_parts JSON_parse chunk s) as H.
  destruct (chunk_choices chunk) as [|choice rest].
  { rewrite H. exists []. rewrite List.app_nil_r. reflexivity. }
  destruct H as (events1 & s1 & B & _ & ->).
  destruct (step_blocks B) as [added1 E1].
  assert (H2 : exists added2,
             contentBlocks (snd (finishPart JSON_parse choice s1))
             = contentBlocks s1 ++ added2).
  { destruct (finishPart_cases JSON_parse choice s1) as [[_ ->]|(reason & _ & _ & ->)].
    - exists []. rewrite List.app_nil_r. reflexivity.
    - destruct (handleFinish_more JSON_parse reason s1) as (added & Hadd & _).
      eauto. }
  destruct H2 as [added2 E2]. exists (added1 ++ added2).
  rewrite List.app_assoc, <- E1, <- E2.
  destruct (finishPart JSON_parse choice s1) as [[finishEvents|e] s2]; reflexivity.
Qed.

(** Property X5.  Finalized content blocks are only ever appended: after
    any chunks fed to any state, also when the run ends in a throw, the
    blocks the state held before are still there, unchanged and in front. *)
Theorem finalized_blocks_only_grow JSON_parse chunks : forall s,
  exists added,
    contentBlocks (snd (feedChunks JSON_parse chunks s)) = contentBlocks s ++ added.
Proof.
  induction chunks as [|chunk rest IH]; intros s; simpl.
  - exists []. rewrite List.app_nil_r. reflexivity.
  - destruct (translateStreamChunk_blocks JSON_parse chunk s) as [added1 E1].
    destruct (translateStreamChunk JSON_parse chunk s) as [[events|e] s1]; simpl in *.
    + destruct (IH s1) as [added2 E2].
      destruct (feedChunks JSON_parse rest s1) as [[events' e'] s2]. simpl in *.
      exists (added1 ++ added2). rewrite List.app_assoc, <- E1. exact E2.
    + eauto.
Qed.

Lemma handleToolCall_other toolCall s k :
  k <> dtc_index toolCall ->
  assoc_get Z.eqb k (toolCallStates (snd (handleToolCall toolCall s)))
  = assoc_get Z.eqb k (toolCallStates s).
Proof.
  intros Hk.
  destruct (handleToolCall_cases toolCall s)
    as [E|(s0 & old & new & starts & deltas & E & _ & Hs0 & _)];
    rewrite E; simpl; [reflexivity|].
  rewrite (assoc_get_set_other Z.eqb Z.eqb_spec); [|congruence].
  destruct Hs0 as [->|(_ & -> & _)]; [reflexivity|]. simpl.
  apply (assoc_get_set_other Z.eqb Z.eqb_spec). congruence.
Qed.

Lemma handleToolCalls_other toolCalls k : forall s,
  ~ In k (map dtc_index toolCalls) ->
  assoc_get Z.eqb k (toolCallStates (snd (handleToolCalls toolCalls s)))
  = assoc_get Z.eqb k (toolCallStates s).
Proof.
  induction toolCalls as [|toolCall rest IH]; intros s Hk; simpl; [reflexivity|].
  pose proof (@handleToolCall_other toolCall s k) as H1.
  destruct (handleToolCall toolCall s) as [events s1].
  specialize (IH s1). destruct (handleToolCalls rest s1) as [events' s2].
  simpl in *. rewrite IH, H1; [reflexivity | |]; intuition congruence.
Qed.

(** Property X6.  A chunk changes the tool-call state of no position but
    those its tool-call deltas name: at every other position the map of
    tool calls holds after the chunk what it held before, throw or not. *)
Theorem chunk_touches_named_positions_only JSON_parse chunk s position :
  (forall toolCalls,
     chunkToolCalls chunk = Some toolCalls ->
     ~ In position (map dtc_index toolCalls)) ->
  assoc_get Z.eqb position
    (toolCallStates (snd (translateStreamChunk JSON_parse chunk s)))
  = assoc_get Z.eqb position (toolCallStates s).
Proof.
  unfold chunkToolCalls, translateStreamChunk. intros Hk.
  destruct (chunk_choices chunk) as [|choice rest]; [reflexivity|].
  pose proof (textPart_effect (cc_delta choice) s) as H1.
  assert (T1 : toolCallStates (snd (textPart (cc_delta choice) s)) = toolCallStates s).
  { unfold textPart.
    destruct (delta_content (cc_delta choice)) as [content|]; [|reflexivity].
    destruct (nonEmpty content); [|reflexivity].
    pose proof (handleText_effect content s) as H.
    destruct (handleText content s). apply H. }
  destruct (textPart (cc_delta choice) s) as [textEvents s1]. simpl in T1.
  assert (T2 : assoc_get Z.eqb position
                 (toolCallStates (snd (toolCallsPart (cc_delta choice) s1)))
               = assoc_get Z.eqb position (toolCallStates s1)).
  { unfold toolCallsPart.
    destruct (delta_tool_calls (cc_delta choice)) as [toolCalls|]; [|reflexivity].
    pose proof (closeTextBlock_effect s1) as Hc.
    destruct (closeTextBlock s1) as [closeEvents s1'].
    pose proof (@handleToolCalls_other toolCalls position s1' (Hk _ eq_refl)) as Ho.
    destruct (handleToolCalls toolCalls s1') as [callEvents s2]. simpl in *.
    destruct Hc as (_ & <- & _). exact Ho. }
  destruct (toolCallsPart (cc_delta choice) s1) as [toolEvents s2]. simpl in T2.
  pose proof (finishPart_effect JSON_parse choice s2) as H3.
  destruct (finishPart JSON_parse choice s2) as [[finishEvents|e] s3]; simpl.
  all: destruct H3 as [(_ & _ & _ & -> & _) _]; congruence.
Qed.

Lemma chunk_touches_named_positions_only_witness :
  assoc_get Z.eqb 0
    (toolCallStates
       (snd (translateStreamChunk emptyObjectParser
               (chunkOf "c" 0 "m"
                  (toolCallDelta
                     {| dtc_index := 1; dtc_id := Some "second";
                        dtc_function := Some {| df_name := Some "g";
                                                df_arguments := None |} |})
                  None)
               (snd (translateStreamChunk emptyObjectParser
                       (chunkOf "c" 0 "m"
                          (toolCallDelta
                             {| dtc_index := 0; dtc_id := Some "first";
                                dtc_function := Some {| df_name := Some "f";
                                                        df_arguments := None |} |})
                          None)
                       (createStreamState "a" "m"))))))
  = Some {| ts_id := "first"; ts_name := "f"; argumentsBuffer := "";
            startEventSent := true |}.
Proof.
  rewrite chunk_touches_named_positions_only.
  - reflexivity.
  - intros toolCalls [= <-]. simpl. intros [H|[]]. discriminate.
Defined.

(** Property X7.  While no finish signal has come, the running block
    index counts the content units: in a state reached from a fresh one
    by chunks without finish signal, the index plus one is the number of
    text blocks closed so far, plus one for an open text block, plus the
    number of tool calls registered. *)
Theorem running_index_counts_units JSON_parse chunks generatedId originalModel
    events e s :
  (forall chunk, In chunk chunks -> finishes chunk = false) ->
  feedChunks JSON_parse chunks (createStreamState generatedId originalModel)
  = (events, e, s) ->
  e = None /\ currentBlockIndex s + 1 = Z.of_nat (unitCount s).
Proof.
  intros Hb E.
  destruct (body_step JSON_parse chunks (createStreamState generatedId originalModel) Hb)
    as (events' & s' & E' & B).
  rewrite E in E'. injection E' as -> -> ->. split; [reflexivity|].
  pose proof (step_units B) as U.
  change (unitCount (createStreamState generatedId originalModel)) with 0%nat in U.
  change (currentBlockIndex (createStreamState generatedId originalModel)) with (-1) in U.
  lia.
Qed.

Lemma running_index_counts_units_witness :
  let '(_, _, s) :=
    feedChunks emptyObjectParser
      [chunkOf "c" 0 "m" (textDelta "Hi") None;
       chunkOf "c" 0 "m"
         (toolCallDelta
            {| dtc_index := 0; dtc_id := Some "call"; dtc_function := None |})
         None]
      (createStreamState "a" "m") in
  currentBlockIndex s + 1 = Z.of_nat (unitCount s).
Proof.
  destruct (feedChunks _ _ _) as [[events e] s] eqn:E.
  revert E. apply running_index_counts_units.
  intros chunk [<-|[<-|[]]]; reflexivity.
Defined.

(** *** Text replies, streamed and not *)

Lemma text_chunk JSON_parse id created model piece s :
  nonEmpty piece = true ->
  translateStreamChunk JSON_parse (chunkOf id created model (textDelta piece) None) s
  = (Ok (fst (handleText piece s)), snd (handleText piece s)).
Proof.
  intros Hp. unfold translateStreamChunk, chunkOf, textPart. simpl. rewrite Hp.
  destruct (handleText piece s) as [events s1]. simpl.
  rewrite List.app_nil_r. reflexivity.
Qed.

Lemma text_chunks JSON_parse id created model pieces : forall s,
  (forall piece, In piece pieces -> piece <> "") ->
  exists events s',
    feedChunks JSON_parse
      (map (fun piece => chunkOf id created model (textDelta piece) None) pieces) s
    = (events, None, s')
    /\ Forall (fun e => isMessageDelta e = false) events
    /\ contentBlocks s' = contentBlocks s
    /\ toolCallStates s' = toolCallStates s
    /\ outputTokens s' = outputTokens s
    /\ textBuffer s' = (textBuffer s ++ concatStrings pieces)%string
    /\ textBlockStarted s'
       = match pieces with [] => textBlockStarted s | _ :: _ => true end.
Proof.
  induction pieces as [|piece rest IH]; intros s Hp; simpl.
  - exists [], s. rewrite string_app_nil_r. repeat split; auto.
  - assert (Hpiece : nonEmpty piece = true)
      by (apply nonEmpty_true_iff, Hp; left; reflexivity).
    rewrite (@text_chunk JSON_parse id created model piece s Hpiece).
    pose proof (handleText_effect piece s) as H1.
    pose proof (@handleText_step piece s Hpiece) as B1.
    assert (Hbuf : textBuffer (snd (handleText piece s))
                   = (textBuffer s ++ piece)%string
                   /\ contentBlocks (snd (handleText piece s)) = contentBlocks s).
    { unfold handleText. destruct (textBlockStarted s); split; reflexivity. }
    destruct (handleText piece s) as [e1 s1]. simpl in *.
    destruct H1 as (C1 & T1 & F1 & _ & N1), Hbuf as [Hbuf Hblocks].
    destruct (IH s1) as (e2 & s2 & E2 & N2 & I1 & I2 & I3 & I4 & I5);
      [intros q Hq; apply Hp; right; exact Hq|].
    rewrite E2. exists (e1 ++ e2), s2.
    apply tokenCounters_eq in C1. destruct C1 as [_ C1].
    repeat split; try congruence.
    + apply Forall_app; auto.
    + rewrite I4, Hbuf, string_app_assoc. reflexivity.
    + rewrite I5. destruct rest; auto.
Qed.

Lemma finish_chunk JSON_parse id created model reason s :
  nonEmpty reason = true ->
  toolCallStates s = [] ->
  translateStreamChunk JSON_parse (chunkOf id created model emptyDelta (Some reason)) s
  = (Ok ((if textBlockStarted s then [ContentBlockStop (currentBlockIndex s)] else [])
         ++ [MessageDelta (orEndTurn (translateStopReason (Some reason) None)) None
               (outputTokens s);
             MessageStop]),
     if textBlockStarted s then pushContentBlock (TextBlock (textBuffer s)) s else s).
Proof.
  intros Hr Ht.
  unfold translateStreamChunk, chunkOf, finishPart, handleFinish. simpl.
  rewrite Hr. destruct (textBlockStarted s); simpl; rewrite Ht; simpl; rewrite ?Ht;
    reflexivity.
Qed.

Lemma concatStrings_nonEmpty pieces :
  pieces <> [] -> (forall piece, In piece pieces -> piece <> "") ->
  nonEmpty (concatStrings pieces) = true.
Proof.
  destruct pieces as [|piece rest]; [congruence|]. intros _ Hp. simpl.
  assert (piece <> "") by (apply Hp; left; reflexivity).
  destruct piece; [congruence | reflexivity].
Qed.

(** Property X8.  A reply that is text only comes out of the two paths
    alike, but for the empty reply.  Given non-empty pieces of text and a
    non-empty finish reason: fed as chunks, the pieces then the finish
    signal, to a fresh state, the run does not throw and ends with one
    message delta and the message stop; the same reply given whole is
    translated to one text block holding the pieces put end to end.  The
    streaming state holds that same block when there is at least one
    piece, and no block at all when there is none, where the non-streaming
    path makes an empty text block.  The stop reason of the message delta
    is that of the non-streaming reply, with [end_turn] where that one is
    [null]. *)
Theorem streamed_text_reply_agrees JSON_parse id created model usage pieces reason
    generatedId originalModel :
  (forall piece, In piece pieces -> piece <> "") ->
  reason <> "" ->
  exists events s reply,
    feedChunks JSON_parse (textReplyChunks id created model pieces reason)
      (createStreamState generatedId originalModel)
    = (events, None, s)
    /\ translateResponse JSON_parse
         (textReply id created model usage (concatStrings pieces) reason) originalModel
       = Ok reply
    /\ resp_content reply = [TextBlock (concatStrings pieces)]
    /\ contentBlocks s
       = match pieces with [] => [] | _ :: _ => resp_content reply end
    /\ exists body,
         events = body ++ [MessageDelta (orEndTurn (resp_stop_reason reply)) None 0;
                           MessageStop]
         /\ Forall (fun e => isMessageDelta e = false) body.
Proof.
  intros Hp Hr. apply nonEmpty_true_iff in Hr.
  destruct (@text_chunks JSON_parse id created model pieces
              (createStreamState generatedId originalModel) Hp)
    as (e1 & s1 & E1 & N1 & I1 & I2 & I3 & I4 & I5).
  unfold textReplyChunks.
  rewrite (feedChunks_after_body _ _ _ _ E1). simpl.
  rewrite (@finish_chunk JSON_parse id created model reason s1 Hr I2).
  do 2 eexists.
  exists {| resp_id := "msg_" ++ id;
            resp_model := originalModel;
            resp_content := [TextBlock (concatStrings pieces)];
            resp_stop_reason := translateStopReason (Some reason) None;
            resp_stop_sequence := None;
            resp_usage :=
              {| input_tokens := prompt_tokens usage;
                 output_tokens := completion_tokens usage |} |}.
  split; [reflexivity|]. split; [|split; [reflexivity|split]].
  - unfold translateResponse, textReply. simpl.
    destruct pieces as [|piece rest].
    + reflexivity.
    + rewrite (@concatStrings_nonEmpty (piece :: rest)); [reflexivity | discriminate | exact Hp].
  - rewrite I5. destruct pieces as [|piece rest]; simpl.
    + exact I1.
    + rewrite I1, I4. reflexivity.
  - eexists. rewrite List.app_nil_r, List.app_assoc, I3. split; [reflexivity|].
    apply Forall_app. split; [exact N1|].
    destruct (textBlockStarted s1); repeat constructor.
Qed.

Lemma streamed_text_reply_agrees_witness :
  exists events s reply,
    feedChunks emptyObjectParser (textReplyChunks "c" 0 "m" ["Hel"; "lo"] "stop")
      (createStreamState "a" "claude")
    = (events, None, s)
    /\ translateResponse emptyObjectParser
         (textReply "c" 0 "m"
            {| prompt_tokens := 1; completion_tokens := 2; total_tokens := 3 |}
            (concatStrings ["Hel"; "lo"]) "stop") "claude"
       = Ok reply
    /\ resp_content reply = [TextBlock (concatStrings ["Hel"; "lo"])]
    /\ contentBlocks s = resp_content reply
    /\ exists body,
         events = body ++ [MessageDelta (orEndTurn (resp_stop_reason reply)) None 0;
                           MessageStop]
         /\ Forall (fun e => isMessageDelta e = false) body.
Proof.
  apply (@streamed_text_reply_agrees emptyObjectParser "c" 0 "m"
           {| prompt_tokens := 1; completion_tokens := 2; total_tokens := 3 |}
           ["Hel"; "lo"] "stop" "a" "claude").
  - intros piece [<-|[<-|[]]]; discriminate.
  - discriminate.
Defined.

(* ================================================================== *)
(** ** More on the non-streaming translation *)

Lemma toolUseBlocks_spec JSON_parse toolCalls :
  match toolUseBlocks JSON_parse toolCalls with
  | Ok blocks =>
      toolUseHeads blocks = toolCallHeads toolCalls
      /\ textsOf blocks = []
      /\ filter isToolUse blocks = blocks
      /\ (blocks = [] <-> toolCalls = [])
      /\ forall toolCall,
           In toolCall toolCalls ->
           JSON_parse (fn_arguments (tc_function toolCall)) <> None
  | Throw e =>
      e = SyntaxError
      /\ exists toolCall,
           In toolCall toolCalls
           /\ JSON_parse (fn_arguments (tc_function toolCall)) = None
  end.
Proof.
  induction toolCalls as [|toolCall rest IH]; simpl.
  - repeat split; auto; try (intros ? []).
  - destruct (JSON_parse (fn_arguments (tc_function toolCall))) as [input|] eqn:E.
    + destruct (toolUseBlocks JSON_parse rest) as [blocks|e].
      * destruct IH as (I1 & I2 & I3 & I4 & I5). simpl.
        repeat split; try congruence; try discriminate.
        intros tc [<-|Hin]; [congruence | auto].
      * destruct IH as (-> & tc & Hin & Hp). split; [reflexivity|].
        exists tc. auto.
    + split; [reflexivity|]. exists toolCall. auto.
Qed.

(** Property X9.  When the non-streaming translation throws, and only
    then: it throws the error "No choices in Cerebras response" exactly
    when the reply has no choice, and the [SyntaxError] of [JSON.parse]
    exactly when the arguments of some tool call of the first choice do
    not parse; otherwise it returns. *)
Theorem translateResponse_throws_exactly JSON_parse cerebrasResponse originalModel :
  match translateResponse JSON_parse cerebrasResponse originalModel with
  | Throw (Error message) =>
      choices cerebrasResponse = []
      /\ message = "No choices in Cerebras response"
  | Throw SyntaxError =>
      exists choice rest toolCall,
        choices cerebrasResponse = choice :: rest
        /\ In toolCall (toolCallsOf choice)
        /\ JSON_parse (fn_arguments (tc_function toolCall)) = None
  | Ok _ =>
      exists choice rest,
        choices cerebrasResponse = choice :: rest
        /\ forall toolCall,
             In toolCall (toolCallsOf choice) ->
             JSON_parse (fn_arguments (tc_function toolCall)) <> None
  end.
Proof.
  unfold translateResponse, toolCallsOf.
  destruct (choices cerebrasResponse) as [|choice rest]; [auto|].
  destruct (msg_tool_calls (message choice)) as [toolCalls|] eqn:Em.
  - pose proof (toolUseBlocks_spec JSON_parse toolCalls) as H.
    destruct (toolUseBlocks JSON_parse toolCalls) as [blocks|e].
    + destruct H as (_ & _ & _ & _ & H). simpl. exists choice, rest.
      rewrite Em. split; [reflexivity | exact H].
    + destruct H as (-> & tc & Hin & Hp). simpl. exists choice, rest, tc.
      rewrite Em. split; [reflexivity | split; assumption].
  - simpl. exists choice, rest. rewrite Em. split; [reflexivity | intros ? []].
Qed.

(** Property X10.  The content of a translated reply: its [tool_use]
    blocks carry, in order, the identifiers and names of the tool calls of
    the first choice; its text blocks are the text of the reply when that
    is not empty, one empty text when there is neither text nor tool call,
    and none otherwise; the text comes first and nothing else is in the
    content, which is never empty.  Identifier, model and usage are carried
    over and no stop sequence is reported. *)
Theorem response_content_layout JSON_parse cerebrasResponse originalModel
    choice rest reply :
  choices cerebrasResponse = choice :: rest ->
  translateResponse JSON_parse cerebrasResponse originalModel = Ok reply ->
  toolUseHeads (resp_content reply) = toolCallHeads (toolCallsOf choice)
  /\ textsOf (resp_content reply)
     = (if truthyStr (msg_content (message choice))
        then match msg_content (message choice) with
             | Some text => [text]
             | None => []
             end
        else match toolCallsOf choice with [] => [""] | _ :: _ => [] end)
  /\ resp_content reply
     = map TextBlock (textsOf (resp_content reply))
       ++ filter isToolUse (resp_content reply)
  /\ resp_content reply <> []
  /\ resp_id reply = ("msg_" ++ response_id cerebrasResponse)%string
  /\ resp_model reply = originalModel
  /\ resp_stop_sequence reply = None
  /\ resp_usage reply
     = {| input_tokens := prompt_tokens (usage cerebrasResponse);
          output_tokens := completion_tokens (usage cerebrasResponse) |}.
Proof.
  unfold translateResponse, toolCallsOf, truthyStr. intros ->.
  assert (H : match
                match msg_tool_calls (message choice) with
                | Some toolCalls => toolUseBlocks JSON_parse toolCalls
                | None => Ok []
                end
              with
              | Ok blocks =>
                  toolUseHeads blocks
                  = toolCallHeads
                      match msg_tool_calls (message choice) with
                      | Some toolCalls => toolCalls
                      | None => []
                      end
                  /\ textsOf blocks = []
                  /\ filter isToolUse blocks = blocks
                  /\ (blocks = [] <->
                      match msg_tool_calls (message choice) with
                      | Some toolCalls => toolCalls
                      | None => []
                      end = [])
              | Throw _ => True
              end).
  { destruct (msg_tool_calls (message choice)) as [toolCalls|].
    - pose proof (toolUseBlocks_spec JSON_parse toolCalls) as H.
      destruct (toolUseBlocks JSON_parse toolCalls); [tauto | exact I].
    - repeat split. }
  destruct (match msg_tool_calls (message choice) with
            | Some toolCalls => toolUseBlocks JSON_parse toolCalls
            | None => Ok []
            end) as [blocks|e]; [|discriminate].
  destruct H as (H1 & H2 & H3 & H4).
  intros [= <-]. simpl.
  destruct (msg_content (message choice)) as [text|];
    [destruct (nonEmpty text)|]; simpl.
  - rewrite H1, H2, H3. repeat split; auto. discriminate.
  - destruct blocks as [|block blocks'] eqn:Eb.
    + rewrite (proj1 H4 eq_refl). simpl. repeat split; auto. discriminate.
    + rewrite <- Eb in *. rewrite H1, H2, H3.
      destruct (match msg_tool_calls (message choice) with
                | Some toolCalls => toolCalls
                | None => []
                end) as [|tc tcs]; [rewrite (proj2 H4 eq_refl) in Eb; discriminate|].
      repeat split; auto. subst blocks. discriminate.
  - destruct blocks as [|block blocks'] eqn:Eb.
    + rewrite (proj1 H4 eq_refl). simpl. repeat split; auto. discriminate.
    + rewrite <- Eb in *. rewrite H1, H2, H3.
      destruct (match msg_tool_calls (message choice) with
                | Some toolCalls => toolCalls
                | None => []
                end) as [|tc tcs]; [rewrite (proj2 H4 eq_refl) in Eb; discriminate|].
      repeat split; auto. subst blocks. discriminate.
Qed.

Lemma response_content_layout_witness :
  toolUseHeads
    (resp_content
       {| resp_id := "msg_c"; resp_model := "claude";
          resp_content := [ToolUseBlock "call" "f" emptyObject];
          resp_stop_reason := Some tool_use; resp_stop_sequence := None;
          resp_usage := {| input_tokens := 1; output_tokens := 2 |} |})
  = [("call", "f")].
Proof.
  refine (proj1 (@response_content_layout emptyObjectParser
                   (toolCallReply "c" 0 "m"
                      {| prompt_tokens := 1; completion_tokens := 2; total_tokens := 3 |}
                      {| tc_id := "call";
                         tc_function := {| fn_name := "f"; fn_arguments := "{}" |} |}
                      "tool_calls")
                   "claude" _ _ _ eq_refl eq_refl)).
Defined.

(** Property X11.  Stop reason and content agree on tool use: whenever the
    content of a translated reply holds a [tool_use] block, the stop reason
    is [tool_use], whatever the finish reason of the provider was; and the
    stop reason is never [stop_sequence]. *)
Theorem tool_use_content_has_tool_use_stop JSON_parse cerebrasResponse originalModel
    reply :
  translateResponse JSON_parse cerebrasResponse originalModel = Ok reply ->
  (existsb isToolUse (resp_content reply) = true ->
   resp_stop_reason reply = Some tool_use)
  /\ resp_stop_reason reply <> Some stop_sequence.
Proof.
  unfold translateResponse.
  destruct (choices cerebrasResponse) as [|choice rest]; [discriminate|].
  assert (H : match
                match msg_tool_calls (message choice) with
                | Some toolCalls => toolUseBlocks JSON_parse toolCalls
                | None => Ok []
                end
              with
              | Ok blocks => blocks <> [] -> exists tc tcs,
                               msg_tool_calls (message choice) = Some (tc :: tcs)
              | Throw _ => True
              end).
  { destruct (msg_tool_calls (message choice)) as [toolCalls|]; [|congruence].
    pose proof (toolUseBlocks_spec JSON_parse toolCalls) as H.
    destruct (toolUseBlocks JSON_parse toolCalls) as [blocks|e]; [|exact I].
    destruct H as (_ & _ & _ & H4 & _). intros Hb.
    destruct toolCalls as [|tc tcs]; [exfalso; apply Hb, H4; reflexivity | eauto]. }
  destruct (match msg_tool_calls (message choice) with
            | Some toolCalls => toolUseBlocks JSON_parse toolCalls
            | None => Ok []
            end) as [blocks|e]; [|discriminate].
  intros [= <-]. simpl. split.
  - intros Hex.
    assert (Hb : blocks <> []).
    { intros ->. rewrite List.app_nil_r in Hex.
      destruct (msg_content (message choice)) as [text|];
        [destruct (nonEmpty text)|]; discriminate. }
    destruct (H Hb) as (tc & tcs & ->). reflexivity.
  - unfold translateStopReason.
    destruct (msg_tool_calls (message choice)) as [[|tc tcs]|]; try discriminate.
    all: destruct (finish_reason choice) as [reason|]; [|discriminate].
    all: repeat match goal with
           | |- context [String.eqb ?a ?b] => destruct (String.eqb a b)
           end; discriminate.
Qed.

Lemma tool_use_content_has_tool_use_stop_witness :
  resp_stop_reason
    {| resp_id := "msg_c"; resp_model := "claude";
       resp_content := [ToolUseBlock "call" "f" emptyObject];
       resp_stop_reason := Some tool_use; resp_stop_sequence := None;
       resp_usage := {| input_tokens := 1; output_tokens := 2 |} |}
  = Some tool_use.
Proof.
  refine (proj1 (@tool_use_content_has_tool_use_stop emptyObjectParser
                   (toolCallReply "c" 0 "m"
                      {| prompt_tokens := 1; completion_tokens := 2; total_tokens := 3 |}
                      {| tc_id := "call";
                         tc_function := {| fn_name := "f"; fn_arguments := "{}" |} |}
                      "stop")
                   "claude" _ eq_refl) eq_refl).
Defined.

(** Property X12.  A tool call without arguments fares differently on the
    two paths.  [JSON.parse] throws on the empty string; so a reply given
    whole whose tool call has the arguments [""] makes [translateResponse]
    throw, while the same tool call streamed (identifier and name in a
    delta whose arguments are [""], then the finish signal) is finalized
    without a throw as a [tool_use] block with the empty object as input. *)
Theorem empty_arguments_whole_and_streamed JSON_parse id created model usage
    callId name reason generatedId originalModel :
  JSON_parse "" = None ->
  callId <> "" -> name <> "" -> reason <> "" ->
  translateResponse JSON_parse
    (toolCallReply id created model usage
       {| tc_id := callId;
          tc_function := {| fn_name := name; fn_arguments := "" |} |}
       reason)
    originalModel
  = Throw SyntaxError
  /\ exists events s,
       feedChunks JSON_parse
         [chunkOf id created model
            (toolCallDelta
               {| dtc_index := 0; dtc_id := Some callId;
                  dtc_function := Some {| df_name := Some name;
                                          df_arguments := Some "" |} |})
            None;
          chunkOf id created model emptyDelta (Some reason)]
         (createStreamState generatedId originalModel)
       = (events, None, s)
       /\ contentBlocks s = [ToolUseBlock callId name emptyObject].
Proof.
  intros Hparse Hid Hname Hreason.
  apply nonEmpty_true_iff in Hid, Hname, Hreason.
  split.
  - unfold translateResponse, toolCallReply. simpl. rewrite Hparse. reflexivity.
  - unfold feedChunks, translateStreamChunk, chunkOf, toolCallDelta, emptyDelta,
      textPart, toolCallsPart, finishPart, closeTextBlock, handleToolCalls,
      handleToolCall, deltaName, deltaArguments, truthyStr.
    unfold handleFinish.
    repeat (simpl; rewrite ?Hid, ?Hname, ?Hreason).
    do 2 eexists. split; reflexivity.
Qed.

Lemma empty_arguments_whole_and_streamed_witness :
  translateResponse emptyObjectParser
    (toolCallReply "c" 0 "m"
       {| prompt_tokens := 1; completion_tokens := 2; total_tokens := 3 |}
       {| tc_id := "call";
          tc_function := {| fn_name := "f"; fn_arguments := "" |} |}
       "tool_calls")
    "claude"
  = Throw SyntaxError.
Proof.
  refine (proj1 (@empty_arguments_whole_and_streamed emptyObjectParser "c" 0 "m"
                   {| prompt_tokens := 1; completion_tokens := 2; total_tokens := 3 |}
                   "call" "f" "tool_calls" "a" "claude" eq_refl _ _ _));
    discriminate.
Defined.

(* ================================================================== *)
(** ** More on the request mapper *)

Section RequestMapper.
Variable JSON_stringify : Value -> string.

Lemma toolResultMessage_ids blocks :
  flat_map toolMessageId (flat_map toolResultMessage (filter isToolResult blocks))
  = flat_map toolResultId blocks.
Proof.
  induction blocks as [|[] blocks IH]; simpl; congruence.
Qed.

Lemma toolResultMessage_no_calls blocks :
  flat_map toolCallIds (flat_map toolResultMessage blocks) = []
  /\ flat_map userTexts (flat_map toolResultMessage blocks) = []
  /\ filter isSystemMessage (flat_map toolResultMessage blocks) = []
  /\ filter isAssistantMessage (flat_map toolResultMessage blocks) = [].
Proof.
  induction blocks as [|[] blocks IH]; simpl; tauto.
Qed.

Lemma userPart_texts blocks :
  flat_map partText
    (flat_map userPart (filter (fun block => negb (isToolResult block)) blocks))
  = textsOf blocks.
Proof.
  induction blocks as [|block blocks IH]; [reflexivity|].
  destruct block as [text|source| |]; simpl; try congruence.
  rewrite flat_map_app, IH.
  assert (E : flat_map partText (userPart (ImageBlock source)) = []).
  { unfold userPart. repeat break_inner; reflexivity. }
  simpl in E. rewrite E. reflexivity.
Qed.

Lemma toolCallOf_ids blocks :
  map tc_id (flat_map (toolCallOf JSON_stringify) (filter isToolUse blocks))
  = flat_map toolUseId blocks.
Proof.
  induction blocks as [|[] blocks IH]; simpl; congruence.
Qed.

(** What one message contributes, seen through each of the projections. *)
Lemma translateMessage_projections message :
  let out := translateMessage JSON_stringify message in
  flat_map toolMessageId out = toolResultIds message
  /\ flat_map toolCallIds out = toolUseIds message
  /\ flat_map userTexts out = messageTexts message
  /\ filter isSystemMessage out = []
  /\ List.length (filter isAssistantMessage out)
     = (if isAssistant message then 1 else 0)%nat.
Proof.
  destruct message as [[] [text|blocks]];
    unfold translateMessage, toolResultIds, toolUseIds, messageTexts, isAssistant;
    cbn [role content]; try (repeat split; reflexivity).
  - pose proof (toolResultMessage_ids blocks) as H1.
    destruct (toolResultMessage_no_calls (filter isToolResult blocks))
      as (H2 & H3 & H4 & H5).
    pose proof (userPart_texts blocks) as H6.
    set (results := flat_map toolResultMessage (filter isToolResult blocks)) in *.
    destruct (filter (fun block => negb (isToolResult block)) blocks) as [|b bs] eqn:Eo.
    { cbv zeta. simpl in H6. rewrite H1, H2, H3, H4, H5, <- H6. repeat split. }
    cbv zeta.
    set (parts := flat_map userPart (b :: bs)) in *.
    destruct parts as [|[text|image] [|part parts']];
      rewrite ?flat_map_app, ?filter_app, ?length_app, ?H1, ?H2, ?H3, ?H4, ?H5, <- ?H6;
      simpl; rewrite ?List.app_nil_r; repeat split; reflexivity.
  - cbv zeta. simpl. rewrite List.app_nil_r.
    pose proof (toolCallOf_ids blocks) as H.
    destruct (filter isToolUse blocks) as [|b bs]; simpl in *; repeat split; auto.
Qed.

Lemma flat_map_projections (f : ChatMessage -> list string) (g : Message -> list string)
    messages :
  (forall message, flat_map f (translateMessage JSON_stringify message) = g message) ->
  flat_map f (flat_map (translateMessage JSON_stringify) messages)
  = flat_map g messages.
Proof.
  intros H. induction messages as [|message rest IH]; simpl; [reflexivity|].
  rewrite flat_map_app, H, IH. reflexivity.
Qed.

Lemma systemMessages_projections system :
  flat_map toolMessageId (systemMessages system) = []
  /\ flat_map toolCallIds (systemMessages system) = []
  /\ flat_map userTexts (systemMessages system) = []
  /\ filter isSystemMessage (systemMessages system) = systemMessages system
  /\ filter isAssistantMessage (systemMessages system) = []
  /\ (List.length (systemMessages system) <= 1)%nat.
Proof.
  destruct system as [[text|blocks]|]; simpl; [destruct (nonEmpty text)| |];
    simpl; repeat split; auto.
Qed.

(** Property X13.  The identifiers that tie tool results to tool uses pass
    through the request mapper unchanged and in order: the
    [tool_call_id]s of the tool messages sent to the provider are the
    [tool_use_id]s of the tool-result blocks of the user messages, and the
    identifiers of the tool calls of the assistant messages sent are those
    of the tool-use blocks of the assistant messages. *)
Theorem tool_ids_are_forwarded anthropicRequest :
  let sent := req_messages (translateRequest JSON_stringify anthropicRequest) in
  flat_map toolMessageId sent = flat_map toolResultIds (mr_messages anthropicRequest)
  /\ flat_map toolCallIds sent = flat_map toolUseIds (mr_messages anthropicRequest).
Proof.
  unfold translateRequest. cbn [req_messages].
  destruct (systemMessages_projections (mr_system anthropicRequest))
    as (S1 & S2 & _).
  rewrite !flat_map_app, S1, S2. simpl. split.
  - apply flat_map_projections. intros m. apply translateMessage_projections.
  - apply flat_map_projections. intros m. apply translateMessage_projections.
Qed.

(** Property X14.  No text of a user is lost, doubled or reordered: the
    texts of the user messages sent to the provider (their string, or the
    texts of their text parts) are, in order, the strings and the texts of
    the top-level text blocks of the user messages of the request. *)
Theorem user_texts_are_kept anthropicRequest :
  flat_map userTexts (req_messages (translateRequest JSON_stringify anthropicRequest))
  = flat_map messageTexts (mr_messages anthropicRequest).
Proof.
  unfold translateRequest. cbn [req_messages].
  destruct (systemMessages_projections (mr_system anthropicRequest))
    as (_ & _ & S3 & _).
  rewrite flat_map_app, S3. simpl.
  apply flat_map_projections. intros m. apply translateMessage_projections.
Qed.

(** Property X15.  Roles: the messages sent start with the system message
    when the request has a system prompt that counts (a non-empty string,
    or a list of blocks, even an empty one) and hold no system message
    anywhere else; and each assistant message of the request gives exactly
    one assistant message, no other message giving any. *)
Theorem system_first_and_assistants_kept anthropicRequest :
  let sent := req_messages (translateRequest JSON_stringify anthropicRequest) in
  (exists rest,
     sent = systemMessages (mr_system anthropicRequest) ++ rest
     /\ filter isSystemMessage rest = [])
  /\ (List.length (systemMessages (mr_system anthropicRequest)) <= 1)%nat
  /\ List.length (filter isAssistantMessage sent)
     = List.length (filter isAssistant (mr_messages anthropicRequest)).
Proof.
  unfold translateRequest. cbn [req_messages].
  destruct (systemMessages_projections (mr_system anthropicRequest))
    as (_ & _ & _ & _ & S5 & S6).
  split; [|split; [exact S6|]].
  - eexists. split; [reflexivity|].
    induction (mr_messages anthropicRequest) as [|m rest IH]; simpl; [reflexivity|].
    rewrite filter_app, IH, List.app_nil_r. apply translateMessage_projections.
  - rewrite filter_app, S5. simpl.
    induction (mr_messages anthropicRequest) as [|m rest IH]; simpl; [reflexivity|].
    rewrite filter_app, length_app, IH.
    destruct (translateMessage_projections m) as (_ & _ & _ & _ & ->).
    destruct (isAssistant m); reflexivity.
Qed.

End RequestMapper.

(** *** Tools *)

Lemma set_object proto own k v :
  exists proto' own', set (VObject proto own) k v = VObject proto' own'.
Proof.
  unfold set. repeat break_inner; eauto.
Qed.

Lemma forOwn_set_object (f : string -> Value -> Value) es : forall proto own,
  exists proto' own',
    forOwn (fun newProps propKey propValue => set newProps propKey (f propKey propValue))
      es (VObject proto own)
    = VObject proto' own'.
Proof.
  induction es as [|[k v] es IH]; intros proto own; cbn [forOwn]; [eauto|].
  destruct (set_object proto own k (f k v)) as (proto' & own' & ->). apply IH.
Qed.

Lemma cleanProperties_truthy value : truthy (cleanProperties value) = true.
Proof.
  unfold cleanProperties. rewrite forEntries_forOwn.
  assert (E : forall acc k v,
             (if isObject v then set acc k (cleanSchema v) else set acc k v)
             = set acc k (if isObject v then cleanSchema v else v)).
  { intros acc k v. destruct (isObject v); reflexivity. }
  rewrite (@forOwn_ext Value _
             (fun acc k v => set acc k (if isObject v then cleanSchema v else v))
             (entries value) E).
  unfold emptyObject.
  destruct (forOwn_set_object (fun _ v => if isObject v then cleanSchema v else v)
              (entries value) None []) as (proto' & own' & ->).
  reflexivity.
Qed.

(** Property X16.  Every tool sent to the provider has a closed object
    type for parameters, whatever the input schema of the request was: an
    object, not an array, with no prototype of its own making, whose
    [type] is ["object"], whose [additionalProperties] is [false] and
    whose [properties] is truthy.  Name and description are carried
    over. *)
Theorem translated_tool_is_closed_object tool :
  let sent := translateTool tool in
  (exists own, parameters sent = VObject None own)
  /\ get (parameters sent) "type" = VString "object"
  /\ get (parameters sent) "additionalProperties" = VBool false
  /\ truthy (get (parameters sent) "properties") = true
  /\ function_name sent = tool_name tool
  /\ function_description sent = tool_description tool.
Proof.
  unfold translateTool.
  destruct (negb (truthy (input_schema tool))
            || negb (truthy (get (input_schema tool) "properties"))
            || (keyCount (get (input_schema tool) "properties") =? 0)%nat) eqn:E.
  { cbn [parameters function_name function_description].
    split; [eauto|]. repeat split. }
  cbn [parameters function_name function_description].
  apply orb_false_iff in E. destruct E as [E _].
  apply orb_false_iff in E. destruct E as [_ E].
  apply negb_false_iff in E.
  set (P := get (input_schema tool) "properties") in *.
  set (R := get (input_schema tool) "required").
  rewrite cleanSchema_own;
    [| reflexivity | repeat constructor; discriminate].
  cbn [entries fold_left]. unfold keepEntry, copyEntry. cbn [fst snd].
  change (includes UNSUPPORTED_SCHEMA_FIELDS "type") with false.
  change (includes UNSUPPORTED_SCHEMA_FIELDS "properties") with false.
  change (includes UNSUPPORTED_SCHEMA_FIELDS "required") with false.
  change (cleanValue "type" (VString "object")) with (VString "object").
  assert (HP : truthy (cleanValue "properties" P) = true).
  { unfold cleanValue. simpl. destruct (isObject P) eqn:Eo.
    - apply cleanProperties_truthy.
    - exact E. }
  set (P' := cleanValue "properties" P) in *.
  set (R' := cleanValue "required" R).
  cbv iota. simpl assoc_set.
  unfold closeOwn. rewrite !get_own.
  change (lookup "type" [("type", VString "object"); ("properties", P'); ("required", R')])
    with (VString "object").
  change (isString "object" (VString "object")) with true. cbv iota zeta.
  simpl assoc_set.
  change (lookup "properties"
            [("type", VString "object"); ("properties", P'); ("required", R');
             ("additionalProperties", VBool false)]) with P'.
  rewrite HP. cbn [negb andb].
  split; [eauto|]. repeat split. exact HP.
Qed.

Lemma translateTool_name tool : function_name (translateTool tool) = tool_name tool.
Proof.
  unfold translateTool. break_inner; reflexivity.
Qed.

(** Property X17.  The tool fields go together, and the client changes
    nothing but the stream flag.  A translated request has [tools],
    [tool_choice] and [parallel_tool_calls] all three when the request has
    at least one tool, and none of them otherwise; the tools sent are as
    many as the tools of the request and bear their names in order.  The
    "clean request" that either method of the client serializes is the
    translated request with its [stream] field set by the method. *)
Theorem tools_go_together_and_client_keeps_fields JSON_stringify anthropicRequest stream :
  let sent := translateRequest JSON_stringify anthropicRequest in
  match mr_tools anthropicRequest with
  | Some (tool :: tools) =>
      (exists sentTools,
         req_tools sent = Some sentTools
         /\ map function_name sentTools = map tool_name (tool :: tools))
      /\ req_tool_choice sent <> None
      /\ req_parallel_tool_calls sent
         = Some (negb (disableParallel (mr_tool_choice anthropicRequest)))
  | _ =>
      req_tools sent = None /\ req_tool_choice sent = None
      /\ req_parallel_tool_calls sent = None
  end
  /\ Client.cleanRequest stream sent
     = {| req_model := req_model sent;
          req_messages := req_messages sent;
          req_temperature := req_temperature sent;
          req_top_p := req_top_p sent;
          req_max_completion_tokens := req_max_completion_tokens sent;
          req_stream := Some stream;
          req_stop := req_stop sent;
          req_seed := req_seed sent;
          req_tools := req_tools sent;
          req_tool_choice := req_tool_choice sent;
          req_parallel_tool_calls := req_parallel_tool_calls sent |}.
Proof.
  unfold translateRequest, Client.cleanRequest.
  cbn [req_tools req_tool_choice req_parallel_tool_calls req_model req_messages
       req_temperature req_top_p req_max_completion_tokens req_stop req_seed].
  destruct (mr_tools anthropicRequest) as [[|tool tools]|]; cbv iota.
  - repeat split.
  - split; [|reflexivity]. split; [|split; [discriminate | reflexivity]].
    eexists. split; [reflexivity|].
    rewrite map_map. apply map_ext. exact translateTool_name.
  - repeat split.
Qed.

(* ================================================================== *)
(** ** The reader of the provider's stream *)

Section Reader.
Import Client.
Variable trim : string -> string.
Variable parseChunk : string -> option ChatCompletionsChunk.

Lemma splitLines_not_nil s : splitLines s <> [].
Proof.
  destruct s as [|c s]; simpl; [discriminate|].
  destruct (Ascii.eqb c LF); [discriminate|].
  destruct (splitLines s); discriminate.
Qed.

Lemma splitLines_app a b :
  splitLines (a ++ b)
  = removelast (splitLines a) ++ splitLines (last (splitLines a) "" ++ b).
Proof.
  induction a as [|c a IH]; [reflexivity|].
  cbn [append splitLines].
  pose proof (splitLines_not_nil a) as Ha.
  destruct (Ascii.eqb c LF) eqn:Ec.
  - rewrite IH. destruct (splitLines a) as [|line lines]; [congruence|]. reflexivity.
  - rewrite IH. destruct (splitLines a) as [|line [|line2 lines]]; [congruence| |].
    + cbn [removelast last app append splitLines]. rewrite Ec. reflexivity.
    + reflexivity.
Qed.

Lemma splitLines_noLF s : hasLF s = false -> splitLines s = [s].
Proof.
  induction s as [|c s IH]; simpl; [reflexivity|].
  intros H. apply orb_false_iff in H. destruct H as [-> H].
  rewrite (IH H). reflexivity.
Qed.

Lemma splitLines_last_noLF s : hasLF (last (splitLines s) "") = false.
Proof.
  induction s as [|c s IH]; [reflexivity|].
  cbn [splitLines]. pose proof (splitLines_not_nil s) as Hs.
  destruct (Ascii.eqb c LF) eqn:Ec.
  - destruct (splitLines s) as [|line lines]; [congruence | exact IH].
  - destruct (splitLines s) as [|line [|line2 lines]]; [congruence| |].
    + simpl in *. rewrite Ec, IH. reflexivity.
    + exact IH.
Qed.

Lemma hasLF_app a b : hasLF (a ++ b) = hasLF a || hasLF b.
Proof.
  induction a as [|c a IH]; simpl; [reflexivity|].
  rewrite IH, orb_assoc. reflexivity.
Qed.

Lemma readLines_app lines1 lines2 :
  readLines trim parseChunk (lines1 ++ lines2)
  = (let '(chunks1, returned1) := readLines trim parseChunk lines1 in
     if returned1 then (chunks1, true)
     else
       let '(chunks2, returned2) := readLines trim parseChunk lines2 in
       (chunks1 ++ chunks2, returned2)).
Proof.
  induction lines1 as [|line lines1 IH]; cbn [app readLines].
  - destruct (readLines trim parseChunk lines2). reflexivity.
  - destruct (negb (nonEmpty (trim line)) || negb (String.prefix "data: " (trim line)));
      [exact IH|].
    destruct (String.eqb (sliceFrom 6 (trim line)) "[DONE]"); [reflexivity|].
    destruct (parseChunk (sliceFrom 6 (trim line))) as [chunk|]; [|exact IH].
    rewrite IH. destruct (readLines trim parseChunk lines1) as [chunks1 [|]];
      [reflexivity|].
    destruct (readLines trim parseChunk lines2). reflexivity.
Qed.

Lemma readLines_returned lines :
  snd (readLines trim parseChunk lines) = true \/ snd (readLines trim parseChunk lines) = false.
Proof. destruct (snd (readLines trim parseChunk lines)); auto. Qed.

Lemma removelast_app_not_nil {A} (l l' : list A) :
  l' <> [] -> removelast (l ++ l') = l ++ removelast l'.
Proof. intros H. apply removelast_app. exact H. Qed.

(** What the generator yields is what the loop over the lines gives on
    the complete lines of the whole text. *)
Lemma readStream_whole reads : forall buffer,
  reads <> [] ->
  readStream trim parseChunk reads buffer
  = readLines trim parseChunk
      (removelast (splitLines (buffer ++ concatStrings reads))).
Proof.
  induction reads as [|value rest IH]; intros buffer Hne; [congruence|].
  cbn [readStream concatStrings fold_right].
  rewrite <- string_app_assoc.
  rewrite (splitLines_app (buffer ++ value)).
  rewrite removelast_app_not_nil by apply splitLines_not_nil.
  rewrite readLines_app.
  destruct (readLines trim parseChunk (removelast (splitLines (buffer ++ value))))
    as [chunks [|]]; [reflexivity|].
  destruct rest as [|value2 rest'].
  - cbn [readStream fold_right]. rewrite string_app_nil_r.
    rewrite splitLines_noLF by apply splitLines_last_noLF.
    cbn [removelast readLines]. reflexivity.
  - rewrite IH by discriminate. reflexivity.
Qed.

Lemma readStream_from_empty reads :
  readStream trim parseChunk reads ""
  = readLines trim parseChunk (removelast (splitLines (concatStrings reads))).
Proof.
  destruct reads as [|value rest]; [reflexivity|].
  apply readStream_whole. discriminate.
Qed.

(** Property X18.  How the body of the provider's reply is cut into reads
    does not matter: two sequences of reads that put end to end give the
    same text make the generator yield the same chunks and end the same
    way. *)
Theorem read_boundaries_do_not_matter reads1 reads2 :
  concatStrings reads1 = concatStrings reads2 ->
  readStream trim parseChunk reads1 "" = readStream trim parseChunk reads2 "".
Proof.
  intros H. rewrite !readStream_from_empty, H. reflexivity.
Qed.

(** Property X19.  What follows the last line feed is never read: a last
    read without line feed changes nothing, so a final event that lacks
    its line feed is lost when the body ends. *)
Theorem unterminated_last_line_is_dropped reads tail :
  hasLF tail = false ->
  readStream trim parseChunk (reads ++ [tail]) ""
  = readStream trim parseChunk reads "".
Proof.
  intros H. rewrite !readStream_from_empty.
  rewrite concatStrings_app. cbn [concatStrings fold_right].
  rewrite string_app_nil_r, splitLines_app.
  rewrite (@splitLines_noLF (last (splitLines (concatStrings reads)) "" ++ tail)).
  - rewrite removelast_last. reflexivity.
  - rewrite hasLF_app, splitLines_last_noLF, H. reflexivity.
Qed.

(** Property X20.  Nothing is read after [data: [DONE]]: once the
    generator has returned on that line, whatever else the body holds
    yields no chunk. *)
Theorem nothing_is_read_after_done reads more : forall buffer,
  snd (readStream trim parseChunk reads buffer) = true ->
  readStream trim parseChunk (reads ++ more) buffer
  = readStream trim parseChunk reads buffer.
Proof.
  induction reads as [|value rest IH]; intros buffer; cbn [app readStream].
  - discriminate.
  - destruct (readLines trim parseChunk
                (removelast (splitLines (buffer ++ value)))) as [chunks [|]];
      [reflexivity|].
    specialize (IH (last (splitLines (buffer ++ value)) "")).
    destruct (readStream trim parseChunk rest _) as [chunks' returned'].
    cbn [snd] in *. intros ->. rewrite IH; reflexivity.
Qed.

End Reader.

Lemma read_boundaries_do_not_matter_witness :
  Client.readStream (fun s => s) namedChunk
    [("data: a" ++ newline ++ "da")%string; ("ta: b" ++ newline)%string] ""
  = Client.readStream (fun s => s) namedChunk
      [("data: a" ++ newline ++ "data: b" ++ newline)%string] "".
Proof.
  apply read_boundaries_do_not_matter. reflexivity.
Defined.

Lemma unterminated_last_line_is_dropped_witness :
  Client.readStream (fun s => s) namedChunk
    ([("data: a" ++ newline)%string] ++ ["data: b"]) ""
  = Client.readStream (fun s => s) namedChunk [("data: a" ++ newline)%string] "".
Proof.
  apply unterminated_last_line_is_dropped. reflexivity.
Defined.

Lemma nothing_is_read_after_done_witness :
  Client.readStream (fun s => s) namedChunk
    ([("data: a" ++ newline ++ "data: [DONE]" ++ newline)%string]
     ++ [("data: b" ++ newline)%string]) ""
  = Client.readStream (fun s => s) namedChunk
      [("data: a" ++ newline ++ "data: [DONE]" ++ newline)%string] "".
Proof.
  apply nothing_is_read_after_done. reflexivity.
Defined.

(* ================================================================== *)
(** ** The server *)

Lemma isBlockEvent_translator events :
  Forall (fun e => isBlockEvent e = true) events ->
  Forall (fun e => isTranslatorEvent e = true) events.
Proof.
  apply Forall_impl. intros []; simpl; congruence.
Qed.

Lemma chunk_kinds JSON_parse chunk s events s' :
  translateStreamChunk JSON_parse chunk s = (Ok events, s') ->
  Forall (fun e => isTranslatorEvent e = true) events.
Proof.
  pose proof (chunk_parts JSON_parse chunk s) as H.
  destruct (chunk_choices chunk) as [|choice rest].
  { rewrite H. intros [= <- _]. constructor. }
  destruct H as (events1 & s1 & B & _ & ->).
  destruct (finishPart_cases JSON_parse choice s1) as [[_ ->]|(reason & _ & _ & ->)].
  - intros [= <- _]. rewrite List.app_nil_r. apply isBlockEvent_translator, B.
  - destruct (handleFinish_more JSON_parse reason s1) as (added & _ & _ & A).
    destruct (handleFinish JSON_parse reason s1) as [[finishEvents|e] s2];
      [|discriminate].
    simpl in A. destruct A as (closing & -> & Hc & _). intros [= <- _].
    apply Forall_app. split; [apply isBlockEvent_translator, B|].
    apply Forall_app. split; [|repeat constructor].
    apply isBlockEvent_translator, isBlockStop_counts, Hc.
Qed.

Lemma feedChunks_kinds JSON_parse chunks : forall s,
  Forall (fun e => isTranslatorEvent e = true)
    (fst (fst (feedChunks JSON_parse chunks s))).
Proof.
  induction chunks as [|chunk rest IH]; intros s; simpl; [constructor|].
  destruct (translateStreamChunk JSON_parse chunk s) as [[events|e] s1] eqn:E;
    [|constructor].
  specialize (IH s1). destruct (feedChunks JSON_parse rest s1) as [[events' e'] s2].
  simpl in *. apply Forall_app. split; [eapply chunk_kinds; eauto | exact IH].
Qed.

(** Property X21.  What the streaming handler writes: first the message
    start, which reports no content, no stop reason and zero for both
    token counters, then a ping; then only events of the translator
    (starts, deltas and stops of blocks, message delta, message stop);
    and at the very end one error event of type [api_error] exactly when
    a chunk made the translator throw or the provider's stream failed.
    Nothing is written after an error event. *)
Theorem streaming_response_shape JSON_parse syntaxErrorMessage generatedId
    originalModel chunks upstream :
  exists body tail,
    Server.handleStreamingResponse JSON_parse syntaxErrorMessage generatedId
      originalModel chunks upstream
    = firstEvent generatedId originalModel :: Ping :: body ++ tail
    /\ Forall (fun e => isTranslatorEvent e = true) body
    /\ (tail = [] \/ exists message, tail = [ErrorEvent "api_error" message])
    /\ (tail = [] <->
        snd (fst (feedChunks JSON_parse chunks
                    (createStreamState generatedId originalModel))) = None
        /\ upstream = None).
Proof.
  unfold Server.handleStreamingResponse.
  pose proof (feedChunks_kinds JSON_parse chunks
                (createStreamState generatedId originalModel)) as K.
  destruct (feedChunks JSON_parse chunks (createStreamState generatedId originalModel))
    as [[events thrown] s].
  simpl in K. exists events. eexists. split; [reflexivity|]. split; [exact K|].
  destruct thrown as [e|]; [|destruct upstream as [e|]]; simpl; split; eauto.
  - split; [discriminate | intros [? _]; discriminate].
  - split; [discriminate | intros [_ ?]; discriminate].
  - split; auto.
Qed.


(* ================================================================== *)
(** ** The logger *)

Section LoggerFacts.
Import Logger.
Variable toLowerCase : string -> string.

Lemma levelName_rank level :
  assoc_get String.eqb (levelName level) LOG_LEVELS = Some (rank level)
  /\ nonEmpty (levelName level) = true
  /\ inLogLevels (levelName level) = true.
Proof. destruct level; repeat split. Qed.

(** Property X23.  The threshold of the logger.  With [LOG_LEVEL] set to
    the name of a level, in any case that [toLowerCase] maps to that name,
    a message is logged exactly when its level ranks at least as high
    (debug, info, warn, error in rising order), so errors are then always
    logged; with [LOG_LEVEL] unset, empty, or anything that is no property
    name of [LOG_LEVELS], the threshold is [info]. *)
Theorem log_threshold LOG_LEVEL level :
  (forall value threshold,
     LOG_LEVEL = Some value ->
     toLowerCase value = levelName threshold ->
     shouldLog toLowerCase LOG_LEVEL level = (rank threshold <=? rank level)
     /\ shouldLog toLowerCase LOG_LEVEL error = true)
  /\ ((LOG_LEVEL = None
       \/ exists value,
            LOG_LEVEL = Some value
            /\ (toLowerCase value = "" \/ inLogLevels (toLowerCase value) = false)) ->
      shouldLog toLowerCase LOG_LEVEL level = (1 <=? rank level)).
Proof.
  split.
  - intros value threshold -> E. unfold shouldLog, getLogLevel. rewrite E.
    destruct (levelName_rank threshold) as (H1 & -> & ->).
    cbn [andb]. rewrite H1.
    destruct (levelName_rank level) as (-> & _).
    destruct (levelName_rank error) as (-> & _).
    split; [reflexivity|]. destruct threshold; reflexivity.
  - intros H.
    assert (E : getLogLevel toLowerCase LOG_LEVEL = "info").
    { unfold getLogLevel.
      destruct H as [-> | (value & -> & [-> | ->])]; [reflexivity | reflexivity |].
      rewrite andb_false_r. reflexivity. }
    unfold shouldLog. rewrite E.
    destruct (levelName_rank level) as (-> & _). reflexivity.
Qed.

(** Property X24.  A [LOG_LEVEL] that names, once in lower case, a
    property every object inherits (["constructor"], ["__proto__"] and the
    like) passes the test [env in LOG_LEVELS] and silences the logger
    altogether: no message is logged at any level, errors included. *)
Theorem inherited_name_silences_logger LOG_LEVEL value level :
  LOG_LEVEL = Some value ->
  In (toLowerCase value) inheritedNames ->
  shouldLog toLowerCase LOG_LEVEL level = false.
Proof.
  intros -> Hin. unfold shouldLog, getLogLevel.
  destruct (levelName_rank level) as (-> & _).
  unfold inheritedNames in Hin. simpl in Hin.
  repeat (destruct Hin as [<-|Hin]; [reflexivity|]). destruct Hin.
Qed.

End LoggerFacts.

Lemma log_threshold_witness :
  Logger.shouldLog (fun s => s) (Some "warn") Logger.info = false
  /\ Logger.shouldLog (fun s => s) (Some "warn") Logger.error = true.
Proof.
  exact (proj1 (log_threshold (fun s => s) (Some "warn") Logger.info)
           "warn" Logger.warn eq_refl eq_refl).
Defined.

Lemma inherited_name_silences_logger_witness :
  Logger.shouldLog (fun s => s) (Some "constructor") Logger.error = false.
Proof.
  apply (@inherited_name_silences_logger (fun s => s) (Some "constructor")
           "constructor" Logger.error eq_refl).
  simpl. auto.
Defined.

(* ================================================================== *)
(** ** Tool calls at the finish, and user messages left empty *)

Lemma toolUseHeads_app l1 l2 : toolUseHeads (l1 ++ l2) = toolUseHeads l1 ++ toolUseHeads l2.
Proof.
  induction l1 as [|[] l1 IH]; simpl; congruence.
Qed.

Lemma closeToolBlocks_heads JSON_parse entries : forall s events s',
  closeToolBlocks JSON_parse entries s = (Ok events, s') ->
  toolUseHeads (contentBlocks s') = toolUseHeads (contentBlocks s) ++ startedHeads entries.
Proof.
  unfold startedHeads.
  induction entries as [|[index toolState] rest IH]; intros s events s'; simpl.
  - intros [= _ <-]. rewrite List.app_nil_r. reflexivity.
  - destruct (startEventSent toolState); [|apply IH].
    destruct (if nonEmpty (argumentsBuffer toolState)
              then JSON_parse (argumentsBuffer toolState)
              else Some emptyObject) as [input|]; [|discriminate].
    match goal with |- context [closeToolBlocks _ rest ?s1] =>
      specialize (IH s1);
      destruct (closeToolBlocks JSON_parse rest s1) as [[events1|e] s2];
      [|discriminate]
    end.
    intros [= _ <-]. rewrite (IH _ _ eq_refl). simpl.
    rewrite toolUseHeads_app, <- List.app_assoc. reflexivity.
Qed.

(** Property X25.  What the finish signal makes of the tool calls.  When a
    chunk that carries only a finish reason is translated without a throw,
    the tool calls whose start was emitted are finalized as [tool_use]
    blocks with their identifiers and names, in the order in which they
    were registered, and no other [tool_use] block is added: a tool call
    that never got a name gives no block.  Yet as soon as any tool call is
    registered, started or not, the stop reason reported is [tool_use]. *)
Theorem finish_finalizes_started_tool_calls JSON_parse id created model reason
    s events s' :
  reason <> "" ->
  translateStreamChunk JSON_parse (chunkOf id created model emptyDelta (Some reason)) s
  = (Ok events, s') ->
  toolUseHeads (contentBlocks s')
  = toolUseHeads (contentBlocks s) ++ startedHeads (toolCallStates s)
  /\ (toolCallStates s <> [] ->
      exists closing,
        events = closing ++ [MessageDelta tool_use None (outputTokens s); MessageStop]).
Proof.
  intros Hr. apply nonEmpty_true_iff in Hr.
  unfold translateStreamChunk, chunkOf, emptyDelta, textPart, toolCallsPart, finishPart.
  cbn [chunk_choices cc_delta cc_finish_reason delta_content delta_tool_calls].
  rewrite Hr.
  pose proof (handleFinish_more JSON_parse reason s) as Hmore.
  pose proof (handleFinish_frame JSON_parse reason s) as Hframe.
  assert (Hheads : forall fe s2,
             handleFinish JSON_parse reason s = (Ok fe, s2) ->
             toolUseHeads (contentBlocks s2)
             = toolUseHeads (contentBlocks s) ++ startedHeads (toolCallStates s)).
  { unfold handleFinish. intros fe s2.
    destruct (textBlockStarted s).
    - destruct (closeToolBlocks JSON_parse _ _) as [[toolEvents|e] s3] eqn:Ec;
        [|discriminate].
      intros [= _ <-]. rewrite (closeToolBlocks_heads _ _ _ Ec). simpl.
      rewrite toolUseHeads_app, List.app_nil_r. reflexivity.
    - destruct (closeToolBlocks JSON_parse _ _) as [[toolEvents|e] s3] eqn:Ec;
        [|discriminate].
      intros [= _ <-]. apply (closeToolBlocks_heads _ _ _ Ec). }
  destruct (handleFinish JSON_parse reason s) as [[fe|e] s2]; [|discriminate].
  intros [= <- <-]. split; [eapply Hheads; reflexivity|].
  intros Hne. destruct Hmore as (added & _ & _ & closing & -> & _).
  exists closing. simpl. do 3 f_equal.
  unfold streamStopReason. simpl in Hframe.
  destruct Hframe as (_ & _ & _ & -> & _).
  destruct (toolCallStates s); [congruence | reflexivity].
Qed.

Lemma finish_finalizes_started_tool_calls_witness :
  let s :=
    snd (translateStreamChunk emptyObjectParser
           (chunkOf "c" 0 "m"
              (toolCallDelta {| dtc_index := 0; dtc_id := Some "call";
                                dtc_function := None |})
              None)
           (createStreamState "a" "m")) in
  let '(result, s') :=
    translateStreamChunk emptyObjectParser
      (chunkOf "c" 0 "m" emptyDelta (Some "stop")) s in
  result = Ok [MessageDelta tool_use None 0; MessageStop]
  /\ toolUseHeads (contentBlocks s') = [].
Proof.
  cbv zeta.
  destruct (translateStreamChunk emptyObjectParser
              (chunkOf "c" 0 "m" emptyDelta (Some "stop")) _)
    as [result s'] eqn:E.
  assert (Hr : result = Ok [MessageDelta tool_use None 0; MessageStop])
    by (vm_compute in E; congruence).
  split; [exact Hr|]. subst result.
  apply (@finish_finalizes_started_tool_calls emptyObjectParser "c" 0 "m" "stop"
           _ _ _ ltac:(discriminate) E).
Defined.

Section EmptyUserMessages.
Variable JSON_stringify : Value -> string.

(** Property X26.  A user message can vanish.  When none of its blocks
    gives a part (an image block whose source lacks what its type needs,
    a tool-use block, a tool-result block), the message is translated to
    the tool messages of its tool results and nothing else; with no tool
    result either, to no message at all. *)
Theorem user_message_without_parts_is_dropped blocks :
  (forall block, In block blocks -> userPart block = []) ->
  translateMessage JSON_stringify {| role := user; content := inr blocks |}
  = flat_map toolResultMessage (filter isToolResult blocks)
  /\ (filter isToolResult blocks = [] ->
      translateMessage JSON_stringify {| role := user; content := inr blocks |} = []).
Proof.
  intros H. unfold translateMessage. cbn [role content].
  assert (E : flat_map userPart
                (filter (fun block => negb (isToolResult block)) blocks) = []).
  { induction blocks as [|block rest IH]; [reflexivity|]. simpl.
    assert (Hb : userPart block = []) by (apply H; left; reflexivity).
    destruct (negb (isToolResult block)); simpl.
    - rewrite Hb. apply IH. intros b Hin. apply H. right. exact Hin.
    - apply IH. intros b Hin. apply H. right. exact Hin. }
  destruct (filter (fun block => negb (isToolResult block)) blocks) as [|b bs].
  - split; [reflexivity | intros ->; reflexivity].
  - cbv zeta. rewrite E. split; [reflexivity | intros ->; reflexivity].
Qed.

End EmptyUserMessages.

Lemma user_message_without_parts_is_dropped_witness :
  translateMessage (fun _ => "{}")
    {| role := user;
       content :=
         inr [ImageBlock {| src_type := base64; src_media_type := Some "image/png";
                            src_data := None; src_url := None |}] |}
  = [].
Proof.
  refine (proj2 (@user_message_without_parts_is_dropped (fun _ => "{}")
                   [ImageBlock {| src_type := base64;
                                  src_media_type := Some "image/png";
                                  src_data := None; src_url := None |}] _) eq_refl).
  intros block [<-|[]]. reflexivity.
Defined.
